(** * Auth0 enterprise platform: trust and access core

    A shallow embedding of the security-relevant functions of the backend
    (app/dependencies/auth.py, org_isolation.py, permissions.py,
    app/services/audit_service.py, compliance_service.py and the models and
    error classes they use), followed by the properties checked against it.

    Conventions.
    - Python [Optional[str]] is [option string]; a Python [if x:] on such a
      value is [truthy x]: [None] and the empty string are both falsy.
    - A function that can raise returns a [result]: [Ok v] or [Raise e],
      where [e] names the Python exception that leaves the function.
    - Dictionaries used as maps are stdpp [gmap]s; lists stay lists. *)

From Stdlib Require Import ZArith NArith List Bool Ascii String QArith Qround
  Qabs Qpower Sorted Lia Lqa.
From stdpp Require Import base decidable option list strings gmap.

Local Open Scope Z_scope.
Local Open Scope string_scope.

(* ===================================================================== *)
(** ** Python values *)
(* ===================================================================== *)

Module Py.

(** Truthiness of an [Optional[str]]. *)
Definition truthy (x : option string) : bool :=
  match x with
  | Some s => negb (String.eqb s "")
  | None => false
  end.

(** [x in l] for a list of strings. *)
Definition contains (x : string) (l : list string) : bool :=
  existsb (String.eqb x) l.

(** [a == b] on [Optional[str]] values. *)
Definition opt_str_eqb (a b : option string) : bool :=
  match a, b with
  | Some x, Some y => String.eqb x y
  | None, None => true
  | _, _ => false
  end.

(** Lookup of a name in a table of named values: the first match. *)
Fixpoint assoc {A : Type} (name : string) (tbl : list (string * A)) : option A :=
  match tbl with
  | [] => None
  | (k, v) :: rest => if String.eqb k name then Some v else assoc name rest
  end.

(** [sep.join(l)]. *)
Definition join (sep : string) (l : list string) : string :=
  String.concat sep l.

(** [str(x)] for an [Optional[str]]: [str(None)] is the text [None]. *)
Definition str_opt (x : option string) : string :=
  match x with
  | Some s => s
  | None => "None"
  end.

(** Decoded JSON documents (token payloads). A missing key and a JSON
    [null] both read as [JNull], as [dict.get] returns [None] for both.
    [JNum] is a Python [int], [JFloat] a finite Python [float], given by
    its value. *)
#[warnings="-register-all"]
Inductive json : Type :=
| JNull
| JBool (b : bool)
| JNum (n : Z)
| JFloat (x : Q)
| JStr (s : string)
| JList (l : list json)
| JDict (d : list (string * json)).

Definition json_truthy (v : json) : bool :=
  match v with
  | JNull => false
  | JBool b => b
  | JNum n => negb (n =? 0)%Z
  | JFloat x => negb (Qeq_bool x 0)
  | JStr s => negb (String.eqb s "")
  | JList l => match l with [] => false | _ => true end
  | JDict d => match d with [] => false | _ => true end
  end.

(** [a or b]. *)
Definition py_or (a b : json) : json :=
  if json_truthy a then a else b.

(** [d.get(k)] and [d.get(k, default)]. *)
Definition get (d : gmap string json) (k : string) : json :=
  default JNull (d !! k).

Definition get_default (d : gmap string json) (k : string) (dflt : json) : json :=
  default dflt (d !! k).

End Py.

(* ===================================================================== *)
(** ** app/utils/errors.py *)
(* ===================================================================== *)

Module Errors.
Import Py.

(** The members of [class ErrorCode(str, Enum)], in source order. *)
Inductive ErrorCode : Type :=
| UNAUTHORIZED | FORBIDDEN | TOKEN_EXPIRED | INVALID_TOKEN
| INSUFFICIENT_SCOPE | INVALID_ALGORITHM
| VALIDATION_ERROR | INVALID_INPUT | MISSING_FIELD | INVALID_FORMAT
| NOT_FOUND | ALREADY_EXISTS | CONFLICT | GONE
| OPERATION_NOT_ALLOWED | LIMIT_EXCEEDED | DEPENDENCY_ERROR | CROSS_ORG_ACCESS
| AUTH0_ERROR | DATABASE_ERROR | SERVICE_UNAVAILABLE | REDIS_ERROR
| INTERNAL_ERROR | NOT_IMPLEMENTED.

(** The enum's name table: [ErrorCode.<name>] succeeds exactly for these. *)
Definition ErrorCode_members : list (string * ErrorCode) :=
  [ ("UNAUTHORIZED", UNAUTHORIZED); ("FORBIDDEN", FORBIDDEN);
    ("TOKEN_EXPIRED", TOKEN_EXPIRED); ("INVALID_TOKEN", INVALID_TOKEN);
    ("INSUFFICIENT_SCOPE", INSUFFICIENT_SCOPE);
    ("INVALID_ALGORITHM", INVALID_ALGORITHM);
    ("VALIDATION_ERROR", VALIDATION_ERROR); ("INVALID_INPUT", INVALID_INPUT);
    ("MISSING_FIELD", MISSING_FIELD); ("INVALID_FORMAT", INVALID_FORMAT);
    ("NOT_FOUND", NOT_FOUND); ("ALREADY_EXISTS", ALREADY_EXISTS);
    ("CONFLICT", CONFLICT); ("GONE", GONE);
    ("OPERATION_NOT_ALLOWED", OPERATION_NOT_ALLOWED);
    ("LIMIT_EXCEEDED", LIMIT_EXCEEDED);
    ("DEPENDENCY_ERROR", DEPENDENCY_ERROR);
    ("CROSS_ORG_ACCESS", CROSS_ORG_ACCESS);
    ("AUTH0_ERROR", AUTH0_ERROR); ("DATABASE_ERROR", DATABASE_ERROR);
    ("SERVICE_UNAVAILABLE", SERVICE_UNAVAILABLE); ("REDIS_ERROR", REDIS_ERROR);
    ("INTERNAL_ERROR", INTERNAL_ERROR); ("NOT_IMPLEMENTED", NOT_IMPLEMENTED) ].

(** Attribute access on the enum class: [None] stands for the
    [AttributeError] Python raises for a name that is not a member. *)
Definition ErrorCode_getattr (name : string) : option ErrorCode :=
  assoc name ErrorCode_members.

(** The exceptions that cross the modelled functions. *)
Inductive exn : Type :=
| HTTPException (status_code : Z) (detail : string)
| AuthenticationError (message : string) (code : ErrorCode)
| AttributeError (name : string)
| ValueError (message : string)
| TypeError (message : string)
| JWKError
| JSONDecodeError
| ValidationError
| ZeroDivisionError.

Inductive result (A : Type) : Type :=
| Ok (a : A)
| Raise (e : exn).
Arguments Ok {A} a.
Arguments Raise {A} e.

Definition bind {A B : Type} (r : result A) (k : A -> result B) : result B :=
  match r with
  | Ok a => k a
  | Raise e => Raise e
  end.

Definition is_raise {A : Type} (r : result A) : bool :=
  match r with Ok _ => false | Raise _ => true end.

(** [raise AuthenticationError(message=m, code=ErrorCode.<name>)]: the
    arguments are evaluated first, so a name that is not a member of
    [ErrorCode] surfaces as [AttributeError] and the
    [AuthenticationError] is never built. *)
Definition raise_AuthenticationError {A : Type} (message code_name : string)
  : result A :=
  match ErrorCode_getattr code_name with
  | Some c => Raise (AuthenticationError message c)
  | None => Raise (AttributeError code_name)
  end.

Definition HTTP_400_BAD_REQUEST : Z := 400.
Definition HTTP_401_UNAUTHORIZED : Z := 401.
Definition HTTP_403_FORBIDDEN : Z := 403.

End Errors.

Notation "'let*' x ':=' c1 'in' c2" := (Errors.bind c1 (fun x => c2))
  (at level 10, x name, c1 at level 100, c2 at level 200).

(* ===================================================================== *)
(** ** app/dependencies/auth.py: the principal *)
(* ===================================================================== *)

Module Auth.
Import Py Errors.

(** [class CurrentUser(BaseModel)]. The metadata mappings are opaque
    key-value lists. *)
Record CurrentUser : Type := mkCurrentUser {
  sub : string;
  email : option string;
  email_verified : bool;
  name : option string;
  nickname : option string;
  picture : option string;
  org_id : option string;
  permissions : list string;
  roles : list string;
  app_metadata : list (string * json);
  user_metadata : list (string * json);
  raw_token : string
}.

Definition is_system_admin (u : CurrentUser) : bool :=
  contains "system_admin" (roles u) || contains "super_admin" (roles u).

Definition has_permission (u : CurrentUser) (permission : string) : bool :=
  contains permission (permissions u).

Definition has_any_permission (u : CurrentUser) (ps : list string) : bool :=
  existsb (fun p => contains p (permissions u)) ps.

Definition has_all_permissions (u : CurrentUser) (ps : list string) : bool :=
  forallb (fun p => contains p (permissions u)) ps.

Definition has_role (u : CurrentUser) (role : string) : bool :=
  contains role (roles u).

(** *** app/config.py: the settings the validator reads

    [Settings_fields] lists the integer-valued fields declared by
    [class Settings]; reading any other integer attribute raises
    [AttributeError]. *)
Record Settings : Type := mkSettings {
  AUTH0_DOMAIN : string;
  AUTH0_AUDIENCE : string;
  AUTH0_ISSUER : option string;
  AUTH0_CLAIMS_NAMESPACE : option string;
  PORT : Z;
  WORKERS : Z;
  JWT_CLOCK_TOLERANCE : Z;
  DATABASE_POOL_SIZE : Z;
  DATABASE_POOL_MAX_OVERFLOW : Z;
  DATABASE_POOL_TIMEOUT : Z;
  REDIS_MAX_CONNECTIONS : Z;
  RATE_LIMIT_REQUESTS : Z;
  RATE_LIMIT_WINDOW : Z;
  RETRY_MAX_ATTEMPTS : Z
}.

Definition Settings_fields (s : Settings) : list (string * Z) :=
  [ ("PORT", PORT s); ("WORKERS", WORKERS s);
    ("JWT_CLOCK_TOLERANCE", JWT_CLOCK_TOLERANCE s);
    ("DATABASE_POOL_SIZE", DATABASE_POOL_SIZE s);
    ("DATABASE_POOL_MAX_OVERFLOW", DATABASE_POOL_MAX_OVERFLOW s);
    ("DATABASE_POOL_TIMEOUT", DATABASE_POOL_TIMEOUT s);
    ("REDIS_MAX_CONNECTIONS", REDIS_MAX_CONNECTIONS s);
    ("RATE_LIMIT_REQUESTS", RATE_LIMIT_REQUESTS s);
    ("RATE_LIMIT_WINDOW", RATE_LIMIT_WINDOW s);
    ("RETRY_MAX_ATTEMPTS", RETRY_MAX_ATTEMPTS s) ].

Definition Settings_getattr (s : Settings) (name : string) : result Z :=
  match assoc name (Settings_fields s) with
  | Some v => Ok v
  | None => Raise (AttributeError name)
  end.

(** *** JWKSClient

    A key of the provider's key-set document: its [kid] (absent in some
    entries) and the key material, which the cache only stores. Clock
    readings ([time.time()]) and [cache_ttl] are numbers of one fixed
    unit. *)
Record jwk : Type := mkJwk {
  jwk_kid : option string;
  jwk_material : string
}.

Record JWKSClient : Type := mkJWKSClient {
  jwks_url : string;
  cache_ttl : Z;
  _keys : gmap string jwk;
  _last_fetch : Z
}.

(** [JWKSClient(jwks_url, cache_ttl=3600)]. *)
Definition JWKSClient_init (url : string) (ttl : Z) : JWKSClient :=
  {| jwks_url := url; cache_ttl := ttl; _keys := ∅; _last_fetch := 0 |}.

(** What stops the indexing loop at an entry of the ["keys"] list: the
    entry is not an object, so [key.get] raises [AttributeError], or its
    [kid] is a list or an object, so the assignment to [self._keys]
    raises [TypeError]. *)
Inductive entry_fault : Type :=
| entry_not_an_object
| kid_unhashable.

(** What the body of the [try] in [_fetch_keys] meets when it runs.
    - [HTTPError]: [client.get] or [raise_for_status] raises an
      [httpx.HTTPError] (transport failure, timeout, error status).
    - [NotJson]: the response arrives and [response.json()] raises
      [JSONDecodeError].
    - [NotAnObject]: the body decodes to a value that is not an object,
      so [jwks_data.get] raises [AttributeError].
    - [KeysNotIterable t]: the value under ["keys"] is null, a number or
      a boolean (of Python type [t]), so the [for] raises [TypeError].
    - [BadEntry before fault]: the loop indexes the entries [before] and
      stops at the next one.
    - [Response keys]: the loop runs to its end over the ["keys"] list,
      absent or present, whose entries are objects with a [kid] that is
      absent or a string. *)
Inductive http_outcome : Type :=
| HTTPError (message : string)
| Response (keys : option (list jwk))
| NotJson
| NotAnObject
| KeysNotIterable (type_name : string)
| BadEntry (before : list jwk) (fault : entry_fault).

(** The environment of one lookup: the clock read by the TTL test, the
    outcome of the GET if one is made, and the clock read after it. *)
Record World : Type := mkWorld {
  clock_check : Z;
  http_get : http_outcome;
  clock_fetch : Z
}.

(** The loop [for key in jwks_data.get("keys", []): if key.get("kid"): ...]
    run on an empty map. *)
Definition index_keys (keys : list jwk) : gmap string jwk :=
  fold_left
    (fun m key =>
       if truthy (jwk_kid key) then <[default "" (jwk_kid key) := key]> m
       else m)
    keys ∅.

Definition dict_is_empty (m : gmap string jwk) : bool :=
  bool_decide (m = ∅).

(** The client after [self._keys = {}] and the indexing of [keys]; the
    fetch time is written only at the end of the loop. *)
Definition reindexed (self : JWKSClient) (keys : list jwk) : JWKSClient :=
  {| jwks_url := jwks_url self;
     cache_ttl := cache_ttl self;
     _keys := index_keys keys;
     _last_fetch := _last_fetch self |}.

(** [_fetch_keys]: the client after the call, and how the call ends. Only
    [httpx.HTTPError] is caught; [response.json()] runs before the map is
    reset, the loop after it. *)
Definition _fetch_keys (self : JWKSClient) (w : World)
  : JWKSClient * result unit :=
  match http_get w with
  | Response keys =>
    ({| jwks_url := jwks_url self;
        cache_ttl := cache_ttl self;
        _keys := index_keys (default [] keys);
        _last_fetch := clock_fetch w |}, Ok tt)
  | HTTPError _ =>
    if dict_is_empty (_keys self) then
      (self, raise_AuthenticationError
               "Unable to fetch authentication keys" "AUTH_TOKEN_INVALID")
    else (self, Ok tt)
  | NotJson => (self, Raise JSONDecodeError)
  | NotAnObject => (reindexed self [], Raise (AttributeError "get"))
  | KeysNotIterable t =>
    (reindexed self [],
     Raise (TypeError ("'" +:+ t +:+ "' object is not iterable")))
  | BadEntry before entry_not_an_object =>
    (reindexed self before, Raise (AttributeError "get"))
  | BadEntry before kid_unhashable =>
    (reindexed self before, Raise (TypeError "unhashable type"))
  end.

(** The test that guards the refresh in [get_signing_key]. *)
Definition needs_refresh (self : JWKSClient) (now : Z) (kid : string) : bool :=
  (cache_ttl self <? now - _last_fetch self)%Z
  || negb (bool_decide (is_Some (_keys self !! kid))).

(** The result of one [get_signing_key] call: the client afterwards, the
    value returned or exception raised, and the number of GETs made. *)
Record Lookup : Type := mkLookup {
  client_after : JWKSClient;
  returned : result (option jwk);
  fetches : nat
}.

Definition get_signing_key (self : JWKSClient) (w : World) (kid : string)
  : Lookup :=
  if needs_refresh self (clock_check w) kid then
    let '(self', r) := _fetch_keys self w in
    {| client_after := self';
       returned := (let* _ := r in Ok (_keys self' !! kid));
       fetches := 1 |}
  else
    {| client_after := self;
       returned := Ok (_keys self !! kid);
       fetches := 0 |}.

(** [get_jwks_client]: the module-level singleton, created on first use. *)
Definition get_jwks_client (g : option JWKSClient) (settings : Settings)
  : JWKSClient :=
  match g with
  | Some c => c
  | None =>
    JWKSClient_init
      ("https://" +:+ AUTH0_DOMAIN settings +:+ "/.well-known/jwks.json") 3600
  end.

(** *** Token validation

    The python-jose functions are external: they are the parameters of
    this section. A decoded header exposes its [alg] and [kid]
    parameters, each absent or a string. *)
Record JoseHeader : Type := mkJoseHeader {
  alg : option string;
  kid : option string
}.

Inductive decode_outcome : Type :=
| Decoded (payload : gmap string json)
| ExpiredSignatureError
| JWTClaimsError
| JWTError.

Section Jose.
Variable PublicKey : Type.
(** [jwt.get_unverified_header]: [None] when it raises [JWTError]. *)
Variable get_unverified_header : string -> option JoseHeader.
(** [jwk.construct]: [None] when it raises [JWKError]. *)
Variable jwk_construct : jwk -> option PublicKey.
(** [jwt.decode(token, key, algorithms=["RS256"], audience, issuer,
    options)] with the given leeway. *)
Variable jwt_decode :
  string -> PublicKey -> string -> option string -> Z -> decode_outcome.

Definition validate_algorithm (token : string) : result string :=
  match get_unverified_header token with
  | Some header =>
    if negb (opt_str_eqb (alg header) (Some "RS256")) then
      raise_AuthenticationError "Invalid token algorithm" "AUTH_TOKEN_INVALID"
    else Ok (default "" (kid header))
  | None =>
    raise_AuthenticationError "Invalid token format" "AUTH_TOKEN_INVALID"
  end.

(** [validate_token]: the singleton after the call, the payload or the
    exception, and the number of GETs made on the way. *)
Record Validation : Type := mkValidation {
  jwks_after : option JWKSClient;
  validated : result (gmap string json);
  gets : nat
}.

Definition validate_token (g : option JWKSClient) (w : World)
    (token : string) (settings : Settings) : Validation :=
  match validate_algorithm token with
  | Raise e => {| jwks_after := g; validated := Raise e; gets := 0 |}
  | Ok kid =>
    let jwks_client := get_jwks_client g settings in
    let lk := get_signing_key jwks_client w kid in
    {| jwks_after := Some (client_after lk);
       gets := fetches lk;
       validated :=
         let* signing_key := returned lk in
         match signing_key with
         | None =>
           raise_AuthenticationError
             "Unable to verify token signature" "AUTH_TOKEN_INVALID"
         | Some key =>
           match jwk_construct key with
           | None => Raise JWKError
           | Some public_key =>
             let* leeway := Settings_getattr settings "CLOCK_TOLERANCE_SECONDS" in
             match jwt_decode token public_key (AUTH0_AUDIENCE settings)
                     (AUTH0_ISSUER settings) leeway with
             | Decoded payload => Ok payload
             | ExpiredSignatureError =>
               raise_AuthenticationError "Token has expired" "AUTH_TOKEN_EXPIRED"
             | JWTClaimsError =>
               raise_AuthenticationError "Invalid token claims" "AUTH_TOKEN_INVALID"
             | JWTError =>
               raise_AuthenticationError "Token validation failed" "AUTH_TOKEN_INVALID"
             end
           end
         end |}
  end.

(** [get_current_user] around [validate_token]: only
    [AuthenticationError] is turned into a 401 response; any other
    exception leaves the dependency as it is. *)
Definition to_http_401 {A : Type} (r : result A) : result A :=
  match r with
  | Raise (AuthenticationError message _) =>
    Raise (HTTPException HTTP_401_UNAUTHORIZED message)
  | other => other
  end.

End Jose.

(** *** Claim extraction

    [extract_user_from_token] computes the keyword arguments of the
    [CurrentUser] constructor and calls it; the constructor validates
    each argument against the field's annotation. *)
Record CurrentUserArgs : Type := mkCurrentUserArgs {
  arg_sub : json;
  arg_email : json;
  arg_email_verified : json;
  arg_name : json;
  arg_nickname : json;
  arg_picture : json;
  arg_org_id : json;
  arg_permissions : list json;
  arg_roles : list json;
  arg_app_metadata : list (string * json);
  arg_user_metadata : list (string * json);
  arg_raw_token : string
}.

(** The f-string [f"{namespace}/{claim}"]. *)
Definition ns_key (namespace : option string) (claim : string) : string :=
  str_opt namespace +:+ "/" +:+ claim.

(** [v if isinstance(v, list) else []] and its dict counterpart. *)
Definition list_or_empty (v : json) : list json :=
  match v with JList l => l | _ => [] end.

Definition dict_or_empty (v : json) : list (string * json) :=
  match v with JDict d => d | _ => [] end.

(** The body of [extract_user_from_token] up to its [return]: the
    keyword arguments it passes to [CurrentUser]. *)
Definition constructor_arguments (payload : gmap string json)
    (token : string) (settings : Settings) : CurrentUserArgs :=
  let namespace := AUTH0_CLAIMS_NAMESPACE settings in
  let sub := get_default payload "sub" (JStr "") in
  let email := py_or (get payload "email") (get payload (ns_key namespace "email")) in
  let email_verified :=
    py_or (get_default payload "email_verified" (JBool false))
          (get_default payload (ns_key namespace "email_verified") (JBool false)) in
  let name := py_or (get payload "name") (get payload (ns_key namespace "name")) in
  let nickname :=
    py_or (get payload "nickname") (get payload (ns_key namespace "nickname")) in
  let picture :=
    py_or (get payload "picture") (get payload (ns_key namespace "picture")) in
  let org_id := py_or (get payload "org_id") (get payload (ns_key namespace "org_id")) in
  let permissions :=
    py_or (get_default payload "permissions" (JList []))
          (get_default payload (ns_key namespace "permissions") (JList [])) in
  let roles := get_default payload (ns_key namespace "roles") (JList []) in
  let app_metadata := get_default payload (ns_key namespace "app_metadata") (JDict []) in
  let user_metadata := get_default payload (ns_key namespace "user_metadata") (JDict []) in
  {| arg_sub := sub;
     arg_email := email;
     arg_email_verified := email_verified;
     arg_name := name;
     arg_nickname := nickname;
     arg_picture := picture;
     arg_org_id := org_id;
     arg_permissions := list_or_empty permissions;
     arg_roles := list_or_empty roles;
     arg_app_metadata := dict_or_empty app_metadata;
     arg_user_metadata := dict_or_empty user_metadata;
     arg_raw_token := token |}.

(** pydantic's validation of one argument, in its default (lax) mode,
    for the annotations of [CurrentUser]: [None] stands for a validation
    error. A [str] field takes a string only; an [Optional[str]] field a
    string or [None]; a [list[str]] field a list of strings. *)
Definition validate_str (v : json) : option string :=
  match v with
  | JStr s => Some s
  | _ => None
  end.

Definition validate_optional_str (v : json) : option (option string) :=
  match v with
  | JNull => Some None
  | JStr s => Some (Some s)
  | _ => None
  end.

Fixpoint validate_list_str (l : list json) : option (list string) :=
  match l with
  | [] => Some []
  | v :: rest =>
    match validate_str v, validate_list_str rest with
    | Some s, Some ss => Some (s :: ss)
    | _, _ => None
    end
  end.

(** ASCII lower case, for the comparison that ignores case. *)
Definition ascii_lower (c : ascii) : ascii :=
  let n := nat_of_ascii c in
  if (65 <=? n)%nat && (n <=? 90)%nat then ascii_of_nat (n + 32) else c.

Fixpoint lower (s : string) : string :=
  match s with
  | EmptyString => EmptyString
  | String c rest => String (ascii_lower c) (lower rest)
  end.

(** A [bool] field takes a boolean, the numbers 0 and 1, and the
    strings pydantic reads as booleans, whatever their case. *)
Definition validate_bool (v : json) : option bool :=
  match v with
  | JBool b => Some b
  | JNum n =>
    if (n =? 0)%Z then Some false
    else if (n =? 1)%Z then Some true else None
  | JFloat x =>
    if Qeq_bool x 0 then Some false
    else if Qeq_bool x 1 then Some true else None
  | JStr s =>
    if contains (lower s) ["0"; "off"; "f"; "false"; "n"; "no"] then Some false
    else if contains (lower s) ["1"; "on"; "t"; "true"; "y"; "yes"]
         then Some true
    else None
  | _ => None
  end.

(** [CurrentUser(sub=..., ..., raw_token=...)]: the validated model, or
    pydantic's [ValidationError] when some argument does not fit its
    field. The two metadata fields are [Dict[str, Any]] and take every
    object. *)
Definition CurrentUser_init (a : CurrentUserArgs) : result CurrentUser :=
  match validate_str (arg_sub a),
        validate_optional_str (arg_email a),
        validate_bool (arg_email_verified a) with
  | Some sub, Some email, Some email_verified =>
    match validate_optional_str (arg_name a),
          validate_optional_str (arg_nickname a),
          validate_optional_str (arg_picture a) with
    | Some name, Some nickname, Some picture =>
      match validate_optional_str (arg_org_id a),
            validate_list_str (arg_permissions a),
            validate_list_str (arg_roles a) with
      | Some org_id, Some permissions, Some roles =>
        Ok {| sub := sub; email := email; email_verified := email_verified;
              name := name; nickname := nickname; picture := picture;
              org_id := org_id; permissions := permissions; roles := roles;
              app_metadata := arg_app_metadata a;
              user_metadata := arg_user_metadata a;
              raw_token := arg_raw_token a |}
      | _, _, _ => Raise ValidationError
      end
    | _, _, _ => Raise ValidationError
    end
  | _, _, _ => Raise ValidationError
  end.

Definition extract_user_from_token (payload : gmap string json)
    (token : string) (settings : Settings) : result CurrentUser :=
  CurrentUser_init (constructor_arguments payload token settings).

End Auth.

(* ===================================================================== *)
(** ** app/dependencies/org_isolation.py *)
(* ===================================================================== *)

Module OrgIsolation.
Import Py Errors Auth.

Record OrgContext : Type := mkOrgContext {
  ctx_org_id : option string;
  ctx_org_name : option string;
  is_override : bool;
  original_org_id : option string
}.

Definition has_org (c : OrgContext) : bool :=
  match ctx_org_id c with Some _ => true | None => false end.

Definition validate_org_id (c : OrgContext) : result string :=
  if negb (truthy (ctx_org_id c)) then
    Raise (HTTPException HTTP_400_BAD_REQUEST "Organization context required")
  else Ok (default "" (ctx_org_id c)).

(** [get_org_context(request, user, x_organization_override, db)]. The
    request and the database session are not read. *)
Definition get_org_context (user : CurrentUser)
    (x_organization_override : option string) : result OrgContext :=
  let user_org_id := org_id user in
  if truthy x_organization_override then
    if negb (is_system_admin user) then
      Raise (HTTPException HTTP_403_FORBIDDEN
               "Organization override requires system admin privileges")
    else
      Ok {| ctx_org_id := x_organization_override;
            ctx_org_name := None;
            is_override := true;
            original_org_id := user_org_id |}
  else
    Ok {| ctx_org_id := user_org_id;
          ctx_org_name := None;
          is_override := false;
          original_org_id := None |}.

Definition enforce_org_isolation (user : CurrentUser)
    (x_organization_override : option string) : result OrgContext :=
  let* org_ctx := get_org_context user x_organization_override in
  if negb (has_org org_ctx) then
    Raise (HTTPException HTTP_400_BAD_REQUEST
             "Organization context required for this operation")
  else Ok org_ctx.

(** *** Statements and models

    A model class over rows of type [R] either has an [organization_id]
    column or not ([hasattr(model, "organization_id")]). A [Select] is the
    conjunction of its WHERE clauses; [stmt.where(c)] adds one. *)
Record Model (R : Type) : Type := mkModel {
  organization_id_attr : option (R -> option string)
}.
Arguments organization_id_attr {R} m.

Definition Select (R : Type) : Type := list (R -> bool).

Definition where_ {R : Type} (stmt : Select R) (c : R -> bool) : Select R :=
  (stmt ++ [c])%list.

Definition execute {R : Type} (stmt : Select R) (rows : list R) : list R :=
  List.filter (fun r => forallb (fun c => c r) stmt) rows.

(** SQL [col = v]: never true on a NULL column. *)
Definition col_eq {R : Type} (col : R -> option string) (v : option string)
  : R -> bool :=
  fun r => match col r, v with
           | Some a, Some b => String.eqb a b
           | _, _ => false
           end.

(** SQL [col IS NULL]. *)
Definition col_is_null {R : Type} (col : R -> option string) : R -> bool :=
  fun r => match col r with None => true | Some _ => false end.

Definition col_or {R : Type} (p q : R -> bool) : R -> bool :=
  fun r => p r || q r.

Record OrgScopedQuery : Type := mkOrgScopedQuery {
  org_context : OrgContext;
  user : CurrentUser
}.

Definition scope_select {R : Type} (self : OrgScopedQuery)
    (stmt : Select R) (model : Model R) (allow_null_org : bool) : Select R :=
  match organization_id_attr model with
  | None => stmt
  | Some organization_id =>
    let org := ctx_org_id (org_context self) in
    if is_system_admin (user self) && is_override (org_context self) then
      if truthy org then
        if allow_null_org then
          where_ stmt (col_or (col_eq organization_id org)
                              (col_is_null organization_id))
        else where_ stmt (col_eq organization_id org)
      else stmt
    else if negb (truthy org) then
      where_ stmt (col_is_null organization_id)
    else if allow_null_org then
      where_ stmt (col_or (col_eq organization_id org)
                          (col_is_null organization_id))
    else where_ stmt (col_eq organization_id org)
  end.

Definition build_org_scoped_query (c : OrgContext) (u : CurrentUser)
  : OrgScopedQuery :=
  {| org_context := c; user := u |}.

End OrgIsolation.

(* ===================================================================== *)
(** ** app/dependencies/permissions.py *)
(* ===================================================================== *)

Module Permissions.
Import Py Errors Auth.

(** The [missing] list built by the loop of [permission_checker]. *)
Definition missing_permissions (required_permissions : list string)
    (user : CurrentUser) : list string :=
  List.filter (fun perm => negb (has_permission user perm)) required_permissions.

(** The [permission_checker] closure returned by [require_permissions],
    applied to the authenticated user; the request and the session are
    only logged. *)
Definition require_permissions (required_permissions : list string)
    (user : CurrentUser) : result CurrentUser :=
  if is_system_admin user then Ok user
  else
    let missing := missing_permissions required_permissions user in
    match missing with
    | _ :: _ =>
      Raise (HTTPException HTTP_403_FORBIDDEN
               ("Missing required permissions: " +:+ join ", " missing))
    | [] => Ok user
    end.

End Permissions.

(* ===================================================================== *)
(** ** hashlib.sha256, json.dumps and datetime.isoformat *)
(* ===================================================================== *)

(** SHA-256 (FIPS 180-4) over a list of bytes. *)
Module Sha256.

Local Open Scope N_scope.

(** Words are numbers below [2^32]; bytes are numbers below 256. *)
Definition mask32 : N := 0xFFFFFFFF.
Definition add32 (a b : N) : N := N.land (a + b) mask32.
Definition rotr (n x : N) : N :=
  N.lor (N.shiftr x n) (N.land (N.shiftl x (32 - n)) mask32).
Definition shr (n x : N) : N := N.shiftr x n.
Definition not32 (x : N) : N := N.lxor x mask32.

Definition Ch (x y z : N) : N := N.lxor (N.land x y) (N.land (not32 x) z).
Definition Maj (x y z : N) : N :=
  N.lxor (N.lxor (N.land x y) (N.land x z)) (N.land y z).
Definition Sigma0 (x : N) : N := N.lxor (N.lxor (rotr 2 x) (rotr 13 x)) (rotr 22 x).
Definition Sigma1 (x : N) : N := N.lxor (N.lxor (rotr 6 x) (rotr 11 x)) (rotr 25 x).
Definition sigma0 (x : N) : N := N.lxor (N.lxor (rotr 7 x) (rotr 18 x)) (shr 3 x).
Definition sigma1 (x : N) : N := N.lxor (N.lxor (rotr 17 x) (rotr 19 x)) (shr 10 x).

(** The first primes, by trial division. *)
Definition is_prime (n : N) : bool :=
  (1 <? n)
  && forallb (fun d => negb (n mod d =? 0))
             (map N.of_nat (seq 2 (N.to_nat n - 2))).

Fixpoint primes_from (fuel count : nat) (n : N) : list N :=
  match fuel, count with
  | S f, S c =>
    if is_prime n then n :: primes_from f c (n + 1)
    else primes_from f (S c) (n + 1)
  | _, _ => []
  end.

Definition first_primes (count : nat) : list N :=
  primes_from 400 count 2.

(** The integer cube root, one bit at a time from the top. *)
Fixpoint cube_root_bits (bits : nat) (r x : N) : N :=
  match bits with
  | O => r
  | S b =>
    let r' := r + N.shiftl 1 (N.of_nat b) in
    cube_root_bits b (if r' * r' * r' <=? x then r' else r) x
  end.

(** The first 32 bits of the fractional part of a cube root and of a
    square root. *)
Definition frac_cube_root (p : N) : N :=
  N.land (cube_root_bits 36 0 (N.shiftl p 96)) mask32.

Definition frac_square_root (p : N) : N :=
  N.land (N.sqrt (N.shiftl p 64)) mask32.

(** The round constants and the initial hash value: the fractional parts
    of the cube roots of the first 64 primes and of the square roots of
    the first 8. *)
Definition K : list N :=
  Eval vm_compute in map frac_cube_root (first_primes 64).

Definition H0 : list N :=
  Eval vm_compute in map frac_square_root (first_primes 8).

(** Padding: a 1 bit, zeros up to 56 mod 64 bytes, the bit length on 8 bytes. *)
Fixpoint be_bytes (n : nat) (x : N) : list N :=
  match n with
  | O => []
  | S n' => N.land (N.shiftr x (8 * N.of_nat n')) 0xFF :: be_bytes n' x
  end.

Definition pad (msg : list N) : list N :=
  let len := N.of_nat (List.length msg) in
  let k := (119 - len mod 64) mod 64 in
  (msg ++ [0x80] ++ repeat 0 (N.to_nat k) ++ be_bytes 8 (8 * len))%list.

Fixpoint words (fuel : nat) (bytes : list N) : list N :=
  match fuel, bytes with
  | S f, b0 :: b1 :: b2 :: b3 :: rest =>
    (N.shiftl b0 24 + N.shiftl b1 16 + N.shiftl b2 8 + b3) :: words f rest
  | _, _ => []
  end.

Fixpoint blocks (fuel : nat) (ws : list N) : list (list N) :=
  match fuel, ws with
  | S f, _ :: _ => firstn 16 ws :: blocks f (skipn 16 ws)
  | _, _ => []
  end.

(** Message schedule: [win] holds the last 16 words, oldest first. *)
Fixpoint schedule (n : nat) (win : list N) : list N :=
  match n with
  | O => []
  | S n' =>
    let w16 := nth 0 win 0 in
    let w15 := nth 1 win 0 in
    let w7 := nth 9 win 0 in
    let w2 := nth 14 win 0 in
    let new := add32 (add32 (add32 (sigma1 w2) w7) (sigma0 w15)) w16 in
    w16 :: schedule n' (tl win ++ [new])%list
  end.

Definition round (st : list N) (kw : N * N) : list N :=
  match st with
  | [a; b; c; d; e; f; g; h] =>
    let t1 := add32 (add32 (add32 (add32 h (Sigma1 e)) (Ch e f g)) (fst kw)) (snd kw) in
    let t2 := add32 (Sigma0 a) (Maj a b c) in
    [add32 t1 t2; a; b; c; add32 d t1; e; f; g]
  | _ => st
  end.

Definition compress (h : list N) (block : list N) : list N :=
  let st := fold_left round (combine K (schedule 64 block)) h in
  map (fun p => add32 (fst p) (snd p)) (combine h st).

Definition digest (msg : list N) : list N :=
  let bytes := pad msg in
  let ws := words (List.length bytes) bytes in
  fold_left compress (blocks (List.length ws) ws) H0.

Definition hex_digit (d : N) : ascii :=
  if d <? 10 then ascii_of_N (48 + d) else ascii_of_N (87 + d).

Fixpoint hex (n : nat) (x : N) : string :=
  match n with
  | O => EmptyString
  | S n' => String (hex_digit (N.land (N.shiftr x (4 * N.of_nat n')) 0xF)) (hex n' x)
  end.

Definition bytes_of_string (s : string) : list N :=
  map N_of_ascii (list_ascii_of_string s).

(** [hashlib.sha256(s.encode()).hexdigest()] for an ASCII string. *)
Definition hexdigest (s : string) : string :=
  String.concat EmptyString (map (hex 8) (digest (bytes_of_string s))).

End Sha256.

Module PyJson.
Import Sha256.

Definition dquote : string := String (ascii_of_nat 34) EmptyString.
Definition backslash : string := String (ascii_of_nat 92) EmptyString.

(** The escape of one character under [ensure_ascii=True]. A Python
    string is read here as a sequence of code points below 256. *)
Definition escape_char (c : ascii) : string :=
  let n := N_of_ascii c in
  if (n =? 34)%N then backslash +:+ dquote
  else if (n =? 92)%N then backslash +:+ backslash
  else if (n =? 10)%N then backslash +:+ "n"
  else if (n =? 13)%N then backslash +:+ "r"
  else if (n =? 9)%N then backslash +:+ "t"
  else if (n =? 8)%N then backslash +:+ "b"
  else if (n =? 12)%N then backslash +:+ "f"
  else if ((n <? 32) || (126 <? n))%N then backslash +:+ "u" +:+ hex 4 n
  else String c EmptyString.

Fixpoint escape (s : string) : string :=
  match s with
  | EmptyString => EmptyString
  | String c rest => escape_char c +:+ escape rest
  end.

Definition dumps_str (s : string) : string :=
  dquote +:+ escape s +:+ dquote.

Fixpoint insert_key (kv : string * string) (l : list (string * string))
  : list (string * string) :=
  match l with
  | [] => [kv]
  | kv' :: rest =>
    if String.leb (fst kv) (fst kv') then kv :: l
    else kv' :: insert_key kv rest
  end.

Definition sort_keys (d : list (string * string)) : list (string * string) :=
  fold_right insert_key [] d.

(** [json.dumps(data, sort_keys=True)] for a dictionary with distinct
    keys whose values are all strings. *)
Definition dumps_sorted (d : list (string * string)) : string :=
  "{" +:+ String.concat ", "
            (map (fun kv => dumps_str (fst kv) +:+ ": " +:+ dumps_str (snd kv))
                 (sort_keys d))
      +:+ "}".

End PyJson.

Module Datetime.

(** A naive [datetime], as [datetime.utcnow()] returns it: the number of
    microseconds since 1970-01-01T00:00:00. Comparison of datetimes is
    comparison of these numbers. (A datetime read back through a driver
    that attaches a time zone prints an offset after the same text; the
    printed text is never empty either way.) *)
Definition datetime : Type := Z.

Fixpoint dec (width : nat) (n : Z) : string :=
  match width with
  | O => EmptyString
  | S w =>
    String (ascii_of_N (48 + Z.to_N ((n / 10 ^ Z.of_nat w) mod 10))) (dec w n)
  end.

(** Year, month and day of a day count from the epoch (proleptic
    Gregorian calendar). *)
Definition civil_from_days (days : Z) : Z * Z * Z :=
  let z := days + 719468 in
  let era := z / 146097 in
  let doe := z - era * 146097 in
  let yoe := (doe - doe / 1460 + doe / 36524 - doe / 146096) / 365 in
  let doy := doe - (365 * yoe + yoe / 4 - yoe / 100) in
  let mp := (5 * doy + 2) / 153 in
  let d := doy - (153 * mp + 2) / 5 + 1 in
  let m := if (mp <? 10)%Z then mp + 3 else mp - 9 in
  let y := yoe + era * 400 + (if (m <=? 2)%Z then 1 else 0) in
  (y, m, d).

(** [t.isoformat()]: the fraction is printed only when it is not zero. *)
Definition isoformat (t : datetime) : string :=
  let day := 86400000000 in
  let '(y, m, d) := civil_from_days (t / day) in
  let rest := t mod day in
  let secs := rest / 1000000 in
  let us := rest mod 1000000 in
  dec 4 y +:+ "-" +:+ dec 2 m +:+ "-" +:+ dec 2 d +:+ "T"
    +:+ dec 2 (secs / 3600) +:+ ":" +:+ dec 2 ((secs / 60) mod 60)
    +:+ ":" +:+ dec 2 (secs mod 60)
    +:+ (if (us =? 0)%Z then EmptyString else "." +:+ dec 6 us).

End Datetime.


(* ===================================================================== *)
(** ** app/models/audit_log.py and app/services/audit_service.py *)
(* ===================================================================== *)

Module Audit.
Import Py Errors Auth OrgIsolation Datetime.

Inductive AuditOutcome : Type := SUCCESS | FAILURE | UNKNOWN.

Definition AuditOutcome_value (o : AuditOutcome) : string :=
  match o with
  | SUCCESS => "success"
  | FAILURE => "failure"
  | UNKNOWN => "unknown"
  end.

(** [class AuditLog(Base)]. The columns [id] and [timestamp] have
    INSERT-time defaults ([default=uuid4], [default=datetime.utcnow]): an
    object built by the constructor holds [None] in both until the
    session flushes it. *)
Record AuditLog : Type := mkAuditLog {
  id : option string;
  timestamp : option datetime;
  event_type : string;
  event_category : option string;
  severity : string;
  outcome : string;
  actor_id : option string;
  actor_type : option string;
  actor_email : option string;
  actor_ip : option string;
  actor_user_agent : option string;
  target_type : option string;
  target_id : option string;
  target_name : option string;
  organization_id : option string;
  description : option string;
  changes : option (json * json);
  metadata : option (gmap string json);
  request_id : option string;
  session_id : option string;
  geo_country : option string;
  geo_city : option string;
  previous_hash : option string;
  current_hash : option string
}.

Definition set_hashes (l : AuditLog) (prev cur : option string) : AuditLog :=
  {| id := id l; timestamp := timestamp l; event_type := event_type l;
     event_category := event_category l; severity := severity l;
     outcome := outcome l; actor_id := actor_id l; actor_type := actor_type l;
     actor_email := actor_email l; actor_ip := actor_ip l;
     actor_user_agent := actor_user_agent l; target_type := target_type l;
     target_id := target_id l; target_name := target_name l;
     organization_id := organization_id l; description := description l;
     changes := changes l; metadata := metadata l;
     request_id := request_id l; session_id := session_id l;
     geo_country := geo_country l; geo_city := geo_city l;
     previous_hash := prev; current_hash := cur |}.

(** The INSERT issued by [flush]: the column defaults fill the
    attributes that are still [None]. *)
Definition apply_defaults (new_id : string) (now : datetime) (l : AuditLog)
  : AuditLog :=
  {| id := Some (default new_id (id l));
     timestamp := Some (default now (timestamp l));
     event_type := event_type l;
     event_category := event_category l; severity := severity l;
     outcome := outcome l; actor_id := actor_id l; actor_type := actor_type l;
     actor_email := actor_email l; actor_ip := actor_ip l;
     actor_user_agent := actor_user_agent l; target_type := target_type l;
     target_id := target_id l; target_name := target_name l;
     organization_id := organization_id l; description := description l;
     changes := changes l; metadata := metadata l;
     request_id := request_id l; session_id := session_id l;
     geo_country := geo_country l; geo_city := geo_city l;
     previous_hash := previous_hash l; current_hash := current_hash l |}.

(** [AuditLogBuilder.event]: the category is the text before the first
    dot, or [None] when the type has no dot. *)
Fixpoint before_dot (s : string) : option string :=
  match s with
  | EmptyString => None
  | String c rest =>
    if Ascii.eqb c "."%char then Some EmptyString
    else match before_dot rest with
         | Some p => Some (String c p)
         | None => None
         end
  end.

(** The keyword arguments of one [create_log] call. *)
Record LogCall : Type := mkLogCall {
  c_event_type : string;
  c_actor : option CurrentUser;
  c_target_type : option string;
  c_target_id : option string;
  c_target_name : option string;
  c_organization_id : option string;
  c_description : option string;
  c_outcome : AuditOutcome;
  c_severity : string;
  c_changes : option (gmap string json);
  c_metadata : option (gmap string json);
  c_request_id : option string;
  c_ip_address : option string;
  c_user_agent : option string;
  c_geo_country : option string;
  c_geo_city : option string
}.

Definition map_truthy (m : option (gmap string json)) : bool :=
  match m with
  | Some d => negb (bool_decide (d = ∅))
  | None => false
  end.

(** The builder calls of [create_log] followed by [build()]: each
    optional group is recorded only when its guard is truthy. [build()]
    passes neither [id] nor [timestamp] to the constructor, so both are
    [None] in the object it returns. *)
Definition build_log (c : LogCall) : result AuditLog :=
  if String.eqb (c_event_type c) "" then Raise (ValueError "Event type is required")
  else
    let has_actor := match c_actor c with Some _ => true | None => false end in
    let has_target := truthy (c_target_type c) in
    let has_geo := truthy (c_geo_country c) || truthy (c_geo_city c) in
    Ok {| id := None;
          timestamp := None;
          event_type := c_event_type c;
          event_category := before_dot (c_event_type c);
          severity := c_severity c;
          outcome := match c_outcome c with
                     | SUCCESS => AuditOutcome_value SUCCESS
                     | _ => AuditOutcome_value FAILURE
                     end;
          actor_id := option_map sub (c_actor c);
          actor_type := if has_actor then Some "user" else None;
          actor_email := match c_actor c with Some a => email a | None => None end;
          actor_ip := if has_actor then c_ip_address c else None;
          actor_user_agent := if has_actor then c_user_agent c else None;
          target_type := if has_target then c_target_type c else None;
          target_id := if has_target then c_target_id c else None;
          target_name := if has_target then c_target_name c else None;
          organization_id :=
            if truthy (c_organization_id c) then c_organization_id c else None;
          description :=
            if truthy (c_description c) then c_description c else None;
          changes :=
            if map_truthy (c_changes c) then
              let d := default ∅ (c_changes c) in
              Some (default JNull (d !! "before"), default JNull (d !! "after"))
            else None;
          metadata :=
            if map_truthy (c_metadata c) then c_metadata c else None;
          request_id :=
            if truthy (c_request_id c) then c_request_id c else None;
          session_id := None;
          geo_country := if has_geo then c_geo_country c else None;
          geo_city := if has_geo then c_geo_city c else None;
          previous_hash := None;
          current_hash := None |}.

(** [_calculate_hash]. *)
Definition hash_content (l : AuditLog) : string :=
  PyJson.dumps_sorted
    [ ("timestamp", match timestamp l with
                    | Some t => isoformat t
                    | None => ""
                    end);
      ("event_type", event_type l);
      ("actor_id", if truthy (actor_id l) then str_opt (actor_id l) else "");
      ("target_id", if truthy (target_id l) then str_opt (target_id l) else "");
      ("organization_id",
        if truthy (organization_id l) then str_opt (organization_id l) else "");
      ("outcome", outcome l);
      ("description",
        if truthy (description l) then str_opt (description l) else "") ].

Definition _calculate_hash (l : AuditLog) : string :=
  Sha256.hexdigest (hash_content l).

(** *** The table

    The rows of [audit_logs], in the order they were inserted. *)
Definition Table : Type := list AuditLog.

(** SQL [organization_id = v]. *)
Definition org_is (v : option string) (l : AuditLog) : bool :=
  col_eq organization_id v l.

(** Order by timestamp: a stable insertion sort. Rows of the table
    always carry a timestamp (the column is not nullable). *)
Definition ts (l : AuditLog) : Z := default 0%Z (timestamp l).

Fixpoint insert_by (le : Z -> Z -> bool) (x : AuditLog) (l : list AuditLog)
  : list AuditLog :=
  match l with
  | [] => [x]
  | y :: rest =>
    if le (ts x) (ts y) then x :: l else y :: insert_by le x rest
  end.

Definition order_by (le : Z -> Z -> bool) (l : list AuditLog) : list AuditLog :=
  fold_right (insert_by le) [] l.

Definition asc : Z -> Z -> bool := Z.leb.
Definition desc : Z -> Z -> bool := fun a b => Z.leb b a.

(** [_get_last_log]. *)
Definition _get_last_log (db : Table) (organization_id : option string)
  : option AuditLog :=
  let rows := if truthy organization_id then List.filter (org_is organization_id) db
              else db in
  head (order_by desc rows).

(** [create_log]: [new_id] and [now] are the values the column defaults
    produce when the row is flushed. Returns the flushed object and the
    table with the new row. *)
Definition create_log (db : Table) (new_id : string) (now : datetime)
    (c : LogCall) : result (AuditLog * Table) :=
  let* audit_log := build_log c in
  let cur := Some (_calculate_hash audit_log) in
  let last_log := _get_last_log db (c_organization_id c) in
  let prev := match last_log with
              | Some l => current_hash l
              | None => previous_hash audit_log
              end in
  let flushed := apply_defaults new_id now (set_hashes audit_log prev cur) in
  Ok (flushed, (db ++ [flushed])%list).

(** *** Integrity verification *)
Inductive BrokenLink : Type :=
| hash_mismatch (id expected actual : string)
| chain_broken (id : string) (expected_previous : option string)
               (actual_previous : string).

Record IntegrityReport : Type := mkIntegrityReport {
  verified_count : nat;
  is_valid : bool;
  broken_links : list BrokenLink
}.

Definition check_hash (log : AuditLog) : list BrokenLink :=
  let expected_hash := _calculate_hash log in
  if truthy (current_hash log)
     && negb (opt_str_eqb (current_hash log) (Some expected_hash))
  then [hash_mismatch (str_opt (id log)) expected_hash
                      (str_opt (current_hash log))]
  else [].

(** The chain test of iteration [i]; [prev] is [logs[i - 1]], absent
    when [i = 0]. *)
Definition check_link (prev : option AuditLog) (log : AuditLog)
  : list BrokenLink :=
  match prev with
  | Some p =>
    if truthy (previous_hash log)
       && negb (opt_str_eqb (previous_hash log) (current_hash p))
    then [chain_broken (str_opt (id log)) (current_hash p)
                       (str_opt (previous_hash log))]
    else []
  | None => []
  end.

Fixpoint check_logs (prev : option AuditLog) (logs : list AuditLog)
  : list BrokenLink :=
  match logs with
  | [] => []
  | log :: rest =>
    (check_hash log ++ check_link prev log ++ check_logs (Some log) rest)%list
  end.

Definition fetch_logs (db : Table) (org_context : OrgContext) (limit : nat)
  : list AuditLog :=
  let rows := if truthy (ctx_org_id org_context)
              then List.filter (org_is (ctx_org_id org_context)) db
              else db in
  firstn limit (order_by asc rows).

Definition verify_chain_integrity (db : Table) (org_context : OrgContext)
    (limit : nat) : IntegrityReport :=
  let logs := fetch_logs db org_context limit in
  let broken_links := check_logs None logs in
  {| verified_count := List.length logs;
     is_valid := Nat.eqb (List.length broken_links) 0;
     broken_links := broken_links |}.

End Audit.

(* ===================================================================== *)
(** ** Python floats *)
(* ===================================================================== *)

(** A finite float is the rational it denotes. The operations are those
    of IEEE 754 binary64 as CPython has them: the exact result, rounded
    to the nearest number with 53 significant bits, ties to the even
    significand. The exponent range is not limited: overflow and
    subnormal numbers are out of reach of the values computed here,
    which lie between [2 ^ -53] and 100. *)
Module PyFloat.
Local Open Scope Q_scope.

(** The integer nearest to [q], ties to the even one. *)
Definition round_half_even (q : Q) : Z :=
  let f := Qfloor q in
  match Qcompare (q - inject_Z f) (1 # 2) with
  | Lt => f
  | Gt => (f + 1)%Z
  | Eq => if Z.even f then f else (f + 1)%Z
  end.

(** The exponent [e] of a positive [q]: [2 ^ e <= q < 2 ^ (e + 1)]. *)
Definition exponent (q : Q) : Z :=
  let e := (Z.log2 (Qnum q) - Z.log2 (Zpos (Qden q)))%Z in
  if Qle_bool (2 ^ e) q then e else (e - 1)%Z.

(** The distance between the floats around [q]. *)
Definition ulp (q : Q) : Q := 2 ^ (exponent (Qabs q) - 52).

(** The float nearest to [q]. *)
Definition nearest (q : Q) : Q :=
  if Qeq_bool q 0 then 0
  else Qred (inject_Z (round_half_even (q / ulp q)) * ulp q).

(** [a / b] and [a * b] on floats. *)
Definition truediv (a b : Q) : Q := nearest (a / b).

Definition mul (a b : Q) : Q := nearest (a * b).

(** [round(number, ndigits)] for [0 <= ndigits]: the decimal with
    [ndigits] places nearest to the exact value of [number], ties to
    the even digit, and then the float nearest to that decimal. *)
Definition round (number : Q) (ndigits : Z) : Q :=
  let scale := inject_Z (10 ^ ndigits) in
  nearest (inject_Z (round_half_even (number * scale)) / scale).

End PyFloat.

(* ===================================================================== *)
(** ** app/services/compliance_service.py *)
(* ===================================================================== *)

Module Compliance.
Import Py Errors OrgIsolation Datetime.

Inductive ComplianceFramework : Type :=
| SOC2 | HIPAA | GDPR | ISO27001 | PCI_DSS | NIST.

Inductive ControlStatus : Type :=
| COMPLIANT | NON_COMPLIANT | PARTIAL | NOT_APPLICABLE | PENDING_REVIEW.

Definition ControlStatus_value (s : ControlStatus) : string :=
  match s with
  | COMPLIANT => "compliant"
  | NON_COMPLIANT => "non_compliant"
  | PARTIAL => "partial"
  | NOT_APPLICABLE => "not_applicable"
  | PENDING_REVIEW => "pending_review"
  end.

Record Control : Type := mkControl {
  ctl_id : string;
  ctl_name : string;
  ctl_description : string
}.

Record Category : Type := mkCategory {
  cat_id : string;
  cat_name : string;
  cat_controls : list Control
}.

(** [FRAMEWORK_CONTROLS]: three of the six frameworks have a catalog. *)
Definition soc2_controls : list Category :=
  [ mkCategory "CC1" "Control Environment"
      [ mkControl "CC1.1" "COSO Principle 1" "Demonstrates commitment to integrity";
        mkControl "CC1.2" "COSO Principle 2" "Board oversight";
        mkControl "CC1.3" "COSO Principle 3" "Management structure";
        mkControl "CC1.4" "COSO Principle 4" "Commitment to competence";
        mkControl "CC1.5" "COSO Principle 5" "Accountability" ];
    mkCategory "CC2" "Communication and Information"
      [ mkControl "CC2.1" "COSO Principle 13" "Quality information";
        mkControl "CC2.2" "COSO Principle 14" "Internal communication";
        mkControl "CC2.3" "COSO Principle 15" "External communication" ];
    mkCategory "CC6" "Logical and Physical Access Controls"
      [ mkControl "CC6.1" "Logical access security" "Access control policies";
        mkControl "CC6.2" "Access provisioning" "User provisioning/deprovisioning";
        mkControl "CC6.3" "Access modification" "Role changes";
        mkControl "CC6.6" "System boundaries" "Network security";
        mkControl "CC6.7" "Data transmission" "Encryption in transit" ];
    mkCategory "CC7" "System Operations"
      [ mkControl "CC7.1" "Vulnerability management" "Security monitoring";
        mkControl "CC7.2" "Anomaly detection" "Incident detection";
        mkControl "CC7.3" "Security incidents" "Incident response";
        mkControl "CC7.4" "Incident recovery" "Recovery procedures" ] ].

Definition hipaa_controls : list Category :=
  [ mkCategory "Administrative" "Administrative Safeguards"
      [ mkControl "164.308(a)(1)" "Security Management" "Risk analysis and management";
        mkControl "164.308(a)(3)" "Workforce Security" "Authorization procedures";
        mkControl "164.308(a)(4)" "Information Access" "Access authorization";
        mkControl "164.308(a)(5)" "Security Awareness" "Training programs";
        mkControl "164.308(a)(6)" "Security Incidents" "Incident procedures" ];
    mkCategory "Technical" "Technical Safeguards"
      [ mkControl "164.312(a)(1)" "Access Control" "Unique user identification";
        mkControl "164.312(b)" "Audit Controls" "Activity logging";
        mkControl "164.312(c)(1)" "Integrity" "Data integrity mechanisms";
        mkControl "164.312(d)" "Authentication" "Person/entity authentication";
        mkControl "164.312(e)(1)" "Transmission Security" "Encryption" ] ].

Definition gdpr_controls : list Category :=
  [ mkCategory "Article5" "Principles"
      [ mkControl "Art5.1a" "Lawfulness" "Lawful processing";
        mkControl "Art5.1b" "Purpose Limitation" "Specified purposes";
        mkControl "Art5.1c" "Data Minimization" "Adequate, relevant, limited";
        mkControl "Art5.1d" "Accuracy" "Accurate and up to date";
        mkControl "Art5.1f" "Security" "Integrity and confidentiality" ];
    mkCategory "Article32" "Security of Processing"
      [ mkControl "Art32.1a" "Pseudonymization" "Data pseudonymization";
        mkControl "Art32.1b" "CIA" "Confidentiality, integrity, availability";
        mkControl "Art32.1c" "Resilience" "System resilience";
        mkControl "Art32.1d" "Testing" "Regular testing" ] ].

(** [FRAMEWORK_CONTROLS.get(framework, {})]. *)
Definition FRAMEWORK_CONTROLS_get (f : ComplianceFramework) : list Category :=
  match f with
  | SOC2 => soc2_controls
  | HIPAA => hipaa_controls
  | GDPR => gdpr_controls
  | _ => []
  end.

Definition CONTROL_EVENT_MAPPING : list (string * list string) :=
  [ ("CC6.1", ["auth.login.success"; "auth.login.failed"]);
    ("CC6.2", ["user.created"; "user.deleted"]);
    ("CC6.3", ["role.assigned"; "role.removed"]);
    ("CC7.2", ["access.denied"; "auth.login.failed"]);
    ("164.312(b)", ["auth.login.success"; "user.updated"]);
    ("164.312(a)(1)", ["auth.mfa.enrolled"; "auth.mfa.challenge"]) ].

(** [CONTROL_EVENT_MAPPING.get(control_id, [])]. *)
Definition event_types_of (control_id : string) : list string :=
  default [] (assoc control_id CONTROL_EVENT_MAPPING).

Definition _determine_control_status (control_id : string)
    (evidence_count : Z) : ControlStatus :=
  if (100 <=? evidence_count)%Z then COMPLIANT
  else if (10 <=? evidence_count)%Z then PARTIAL
  else if (0 <? evidence_count)%Z then PENDING_REVIEW
  else NOT_APPLICABLE.

(** One entry of [controls_status]. *)
Record ControlResult : Type := mkControlResult {
  category : string;
  category_name : string;
  control_id : string;
  control_name : string;
  description : string;
  status : string;
  evidence_count : Z;
  last_evaluated : string
}.

(** The count query of [_evaluate_controls] for one control. *)
Definition count_evidence (db : Audit.Table) (org_context : OrgContext)
    (start_date end_date : datetime) (event_types : list string) : Z :=
  Z.of_nat
    (List.length
       (List.filter
          (fun l =>
             (start_date <=? Audit.ts l)%Z && (Audit.ts l <=? end_date)%Z
             && contains (Audit.event_type l) event_types
             && (if truthy (ctx_org_id org_context)
                 then Audit.org_is (ctx_org_id org_context) l
                 else true))
          db)).

Definition evaluate_control (db : Audit.Table) (org_context : OrgContext)
    (start_date end_date now : datetime) (cat : Category) (control : Control)
  : ControlResult :=
  let event_types := event_types_of (ctl_id control) in
  let evidence_count :=
    match event_types with
    | _ :: _ => count_evidence db org_context start_date end_date event_types
    | [] => 0%Z
    end in
  let status := _determine_control_status (ctl_id control) evidence_count in
  {| category := cat_id cat;
     category_name := cat_name cat;
     control_id := ctl_id control;
     control_name := ctl_name control;
     description := ctl_description control;
     status := ControlStatus_value status;
     evidence_count := evidence_count;
     last_evaluated := isoformat now |}.

Definition _evaluate_controls (db : Audit.Table)
    (framework : ComplianceFramework) (org_context : OrgContext)
    (start_date end_date now : datetime) : list ControlResult :=
  flat_map
    (fun cat =>
       map (evaluate_control db org_context start_date end_date now cat)
           (cat_controls cat))
    (FRAMEWORK_CONTROLS_get framework).

(** The [weights] table of [_calculate_compliance_score] read with
    [.get]: [None] for a not-applicable status and for any other text. *)
Definition weights_get (status : string) : option Q :=
  if String.eqb status (ControlStatus_value COMPLIANT) then Some 1%Q
  else if String.eqb status (ControlStatus_value PARTIAL) then Some (1 # 2)%Q
  else if String.eqb status (ControlStatus_value PENDING_REVIEW) then Some (1 # 4)%Q
  else if String.eqb status (ControlStatus_value NON_COMPLIANT) then Some 0%Q
  else None.

(** The accumulators [(total_weight, total_score)] after the loop. Both
    are sums of quarters, which binary floating point adds exactly as
    long as there are fewer than [2 ^ 51] controls. *)
Definition accumulate (acc : Q * Q) (control : ControlResult) : Q * Q :=
  match weights_get (status control) with
  | Some weight => (fst acc + 1, snd acc + weight)%Q
  | None => acc
  end.

Definition _calculate_compliance_score (controls_status : list ControlResult)
  : Q :=
  match controls_status with
  | [] => 0%Q
  | _ :: _ =>
    let '(total_weight, total_score) :=
      fold_left accumulate controls_status (0%Q, 0%Q) in
    if Qeq_bool total_weight 0 then 100%Q
    else
      PyFloat.round
        (PyFloat.mul (PyFloat.truediv total_score total_weight) 100%Q) 2
  end.

End Compliance.

(* ===================================================================== *)
(** ** Vocabulary of the properties and sample inputs *)
(* ===================================================================== *)

Module Props.
Import Py Auth.
Local Open Scope Z_scope.

(** The claims read both at the top level and under the namespace with
    the [a or b] idiom and no default, with the constructor argument
    each one feeds. *)
Definition standard_claims : list (string * (CurrentUserArgs -> json)) :=
  [ ("email", arg_email); ("name", arg_name); ("nickname", arg_nickname);
    ("picture", arg_picture); ("org_id", arg_org_id) ].

(** The top-level claim [k] is present with a truthy value [v]. *)
Definition top_level_is (payload : gmap string json) (k : string) (v : json)
  : Prop :=
  payload !! k = Some v /\ json_truthy v = true.

(** The top-level claim [k] is absent, or present with a falsy value. *)
Definition top_level_falsy (payload : gmap string json) (k : string) : Prop :=
  payload !! k = None
  \/ exists v, payload !! k = Some v /\ json_truthy v = false.


(** The JSON value of an optional string. *)
Definition opt_json (x : option string) : json :=
  match x with
  | Some s => JStr s
  | None => JNull
  end.

(** The arguments fit the fields of [CurrentUser]: [sub] is a string,
    each optional claim is a string or null, [email_verified] is read as
    a boolean, and permissions and roles are lists of strings. *)
Definition fits_fields (a : CurrentUserArgs) : Prop :=
  (exists s, arg_sub a = JStr s)
  /\ (forall claim field, In (claim, field) standard_claims ->
        exists x, field a = opt_json x)
  /\ (exists b, validate_bool (arg_email_verified a) = Some b)
  /\ (forall v, In v (arg_permissions a) -> exists s, v = JStr s)
  /\ (forall v, In v (arg_roles a) -> exists s, v = JStr s).


(** *** Compliance scoring *)

(** A status text is known when it is the value of a [ControlStatus]. *)
Definition known_status (c : Compliance.ControlResult) : Prop :=
  exists st, Compliance.status c = Compliance.ControlStatus_value st.

(** The controls that count: those whose status is not [not_applicable]. *)
Definition applicable (cs : list Compliance.ControlResult)
  : list Compliance.ControlResult :=
  List.filter
    (fun c => negb (String.eqb (Compliance.status c) "not_applicable")) cs.

(** The weight of a counted control. *)
Definition weight_of (c : Compliance.ControlResult) : Q :=
  if String.eqb (Compliance.status c) "compliant" then 1%Q
  else if String.eqb (Compliance.status c) "partial" then (1 # 2)%Q
  else if String.eqb (Compliance.status c) "pending_review" then (1 # 4)%Q
  else 0%Q.

(** Sum of the weights, and number, of a list of controls, added in list
    order from zero. *)
Definition weight_sum (cs : list Compliance.ControlResult) : Q :=
  fold_left (fun acc c => (acc + weight_of c)%Q) cs 0%Q.

Definition control_count (cs : list Compliance.ControlResult) : Q :=
  fold_left (fun acc _ => (acc + 1)%Q) cs 0%Q.

(** *** The audit table *)

(** Rows were written at strictly increasing times. *)
Definition chronological (db : Audit.Table) : Prop :=
  StronglySorted (fun a b => (Audit.ts a < Audit.ts b)%Z) db.

(** The hash of the last row of a list, if any. *)
Definition last_hash (rows : list Audit.AuditLog) : option string :=
  match last rows with
  | Some l => Audit.current_hash l
  | None => None
  end.

(** The tables that a run of appends produces from the empty table, each
    flushed at a clock reading later than every stored timestamp. *)
Inductive appended : Audit.Table -> Prop :=
| appended_nil : appended []
| appended_step (db db' : Audit.Table) (new_id : string)
    (now : Datetime.datetime) (c : Audit.LogCall) (log : Audit.AuditLog) :
    appended db ->
    List.Forall (fun l => Audit.ts l < now) db ->
    Audit.create_log db new_id now c = Errors.Ok (log, db') ->
    appended db'.

(** Each row after the first names its predecessor's hash. *)
Definition linked (rows : list Audit.AuditLog) : Prop :=
  forall l1 p x l2,
    rows = (l1 ++ p :: x :: l2)%list ->
    Audit.previous_hash x = Audit.current_hash p.

(** The id a report entry carries. *)
Definition entry_id (b : Audit.BrokenLink) : string :=
  match b with
  | Audit.hash_mismatch i _ _ => i
  | Audit.chain_broken i _ _ => i
  end.

Definition reported_id (l : Audit.AuditLog) : string :=
  str_opt (Audit.id l).

End Props.

Module Samples.
Import Py Errors Auth OrgIsolation.

Definition settings : Settings :=
  {| AUTH0_DOMAIN := "tenant.example.com";
     AUTH0_AUDIENCE := "https://api.example.com";
     AUTH0_ISSUER := Some "https://tenant.example.com/";
     AUTH0_CLAIMS_NAMESPACE := Some "https://api.example.com";
     PORT := 8000; WORKERS := 4; JWT_CLOCK_TOLERANCE := 30;
     DATABASE_POOL_SIZE := 20; DATABASE_POOL_MAX_OVERFLOW := 10;
     DATABASE_POOL_TIMEOUT := 30; REDIS_MAX_CONNECTIONS := 10;
     RATE_LIMIT_REQUESTS := 100; RATE_LIMIT_WINDOW := 900;
     RETRY_MAX_ATTEMPTS := 3 |}.

Definition principal (org : option string) (perms roles : list string)
  : CurrentUser :=
  {| sub := "auth0|u1"; email := Some "u1@example.com";
     email_verified := true; name := None; nickname := None;
     picture := None; org_id := org; permissions := perms; roles := roles;
     app_metadata := []; user_metadata := []; raw_token := "" |}.

Definition member : CurrentUser :=
  principal (Some "org-1") ["read:teams"] ["member"].

Definition admin : CurrentUser :=
  principal (Some "org-1") [] ["system_admin"].

(** Payloads for claim extraction. *)
Definition payload_top_level_roles : gmap string json :=
  {[ "sub" := JStr "auth0|u1"; "roles" := JList [JStr "system_admin"] ]}.

Definition payload_unverified_email : gmap string json :=
  {[ "email_verified" := JBool false;
     "https://api.example.com/email_verified" := JBool true ]}.

Definition payload_numeric_permission : gmap string json :=
  {[ "sub" := JStr "auth0|u1"; "permissions" := JList [JNum 1] ]}.

Definition payload_both_emails : gmap string json :=
  {[ "email" := JStr "top@example.com";
     "https://api.example.com/email" := JStr "ns@example.com" ]}.


(** A token whose header segment is the base64url text of an object with
    [alg] set to [none] and [kid] set to [k1], the header jose reads from
    it, and jose functions under which every signature verifies. *)
Definition token_alg_none : string :=
  "eyJhbGciOiJub25lIiwia2lkIjoiazEifQ.e30.".

Definition header_alg_none (token : string) : option JoseHeader :=
  Some {| alg := Some "none"; kid := Some "k1" |}.

Definition construct_any (key : jwk) : option unit := Some tt.

Definition decode_accepts (token : string) (key : unit) (audience : string)
    (issuer : option string) (leeway : Z) : decode_outcome :=
  Decoded ∅.

(** A warm key cache, fetched at time 100 with the default TTL, and
    worlds in which the provider is down. *)
Definition key1 : jwk := {| jwk_kid := Some "k1"; jwk_material := "n1" |}.

Definition warm_cache : JWKSClient :=
  {| jwks_url := "https://tenant.example.com/.well-known/jwks.json";
     cache_ttl := 3600;
     _keys := {[ "k1" := key1 ]};
     _last_fetch := 100 |}.

Definition provider_down (now : Z) : World :=
  {| clock_check := now; http_get := HTTPError "connect timeout";
     clock_fetch := now |}.

(** Rows of a table whose only column is the organization. *)
Definition org_rows : list (option string) :=
  [ Some "org-1"; Some "org-2"; None; Some "org-1" ].

Definition org_model : Model (option string) :=
  mkModel (option string) (Some (fun r => r)).

(** Evaluated controls. *)
Definition control (status : string) (n : Z) : Compliance.ControlResult :=
  {| Compliance.category := "CC6";
     Compliance.category_name := "Logical and Physical Access Controls";
     Compliance.control_id := "CC6.1";
     Compliance.control_name := "Logical access security";
     Compliance.description := "Access control policies";
     Compliance.status := status;
     Compliance.evidence_count := n;
     Compliance.last_evaluated := "2024-01-01T00:00:00" |}.

(** Audit events. [t0] is 2024-01-01T00:00:00. *)
Definition t0 : Datetime.datetime := 1704067200000000%Z.

Definition second : Z := 1000000%Z.

Definition event (event_type : string) (org : option string) : Audit.LogCall :=
  {| Audit.c_event_type := event_type;
     Audit.c_actor := None;
     Audit.c_target_type := None;
     Audit.c_target_id := None;
     Audit.c_target_name := None;
     Audit.c_organization_id := org;
     Audit.c_description := None;
     Audit.c_outcome := Audit.SUCCESS;
     Audit.c_severity := "info";
     Audit.c_changes := None;
     Audit.c_metadata := None;
     Audit.c_request_id := None;
     Audit.c_ip_address := None;
     Audit.c_user_agent := None;
     Audit.c_geo_country := None;
     Audit.c_geo_city := None |}.

(** The table after a list of appends, each with its id and the clock
    reading at its flush; an append that raises leaves the table as it
    was. *)
Definition append (db : Audit.Table)
    (step : string * Datetime.datetime * Audit.LogCall) : Audit.Table :=
  match Audit.create_log db (fst (fst step)) (snd (fst step)) (snd step) with
  | Ok (_, db') => db'
  | Raise _ => db
  end.

Definition appends (steps : list (string * Datetime.datetime * Audit.LogCall))
  : Audit.Table :=
  fold_left append steps [].

Definition no_org : OrgContext := mkOrgContext None None false None.
Definition in_org (org : string) : OrgContext :=
  mkOrgContext (Some org) None false None.

(** A system event, then a tenant event. *)
Definition system_then_tenant : Audit.Table :=
  appends [ ("id-1", t0, event "system.startup" None);
            ("id-2", (t0 + second)%Z, event "user.created" (Some "org-a")) ].

(** One system event. *)
Definition one_event : Audit.Table :=
  appends [ ("id-1", t0, event "system.startup" None) ].

Definition blank_row : Audit.AuditLog :=
  {| Audit.id := None; Audit.timestamp := None; Audit.event_type := "";
     Audit.event_category := None; Audit.severity := ""; Audit.outcome := "";
     Audit.actor_id := None; Audit.actor_type := None;
     Audit.actor_email := None; Audit.actor_ip := None;
     Audit.actor_user_agent := None; Audit.target_type := None;
     Audit.target_id := None; Audit.target_name := None;
     Audit.organization_id := None; Audit.description := None;
     Audit.changes := None; Audit.metadata := None;
     Audit.request_id := None; Audit.session_id := None;
     Audit.geo_country := None; Audit.geo_city := None;
     Audit.previous_hash := None; Audit.current_hash := None |}.

Definition first_row : Audit.AuditLog := List.hd blank_row one_event.

(** A tenant event, a system event, a second event of the tenant. *)
Definition interleaved : Audit.Table :=
  appends [ ("id-1", t0, event "user.created" (Some "org-a"));
            ("id-2", (t0 + second)%Z, event "system.startup" None);
            ("id-3", (t0 + 2 * second)%Z, event "user.updated" (Some "org-a")) ].

End Samples.

(* ===================================================================== *)
(** ** org_isolation.py: resource and insert guards *)
(* ===================================================================== *)

Module OrgGuards.
Import Py Errors Auth OrgIsolation.

(** [getattr(resource, "organization_id", None)]: the column's value, or
    [None] when the model has no such column. A column value is read as
    its text, which is what [str] gives for it. *)
Definition getattr_organization_id {R : Type} (model : Model R) (resource : R)
  : option string :=
  match organization_id_attr model with
  | Some col => col resource
  | None => None
  end.

Definition validate_resource_org {R : Type} (model : Model R) (resource : R)
    (org_context : OrgContext) (user : CurrentUser) : result bool :=
  if is_system_admin user && is_override org_context then Ok true
  else
    match getattr_organization_id model resource with
    | None => Ok true
    | Some resource_org_id =>
      if negb (String.eqb resource_org_id (str_opt (ctx_org_id org_context)))
      then Raise (HTTPException HTTP_403_FORBIDDEN
                    "Access denied: resource belongs to different organization")
      else Ok true
    end.

(** [get_org_filter]: a dictionary with at most the key
    [organization_id]. *)
Definition get_org_filter {R : Type} (self : OrgScopedQuery) (model : Model R)
  : gmap string (option string) :=
  match organization_id_attr model with
  | None => ∅
  | Some _ =>
    let org := ctx_org_id (org_context self) in
    if is_system_admin (user self) && is_override (org_context self) then
      if truthy org then {[ "organization_id" := org ]} else ∅
    else {[ "organization_id" := org ]}
  end.

(** [filter_by] with such a dictionary as its keyword arguments, on a
    model whose organization column is [col]: equality with the value,
    which SQLAlchemy renders as [IS NULL] when the value is [None]. *)
Definition filter_by {R : Type} (col : R -> option string)
    (f : gmap string (option string)) : R -> bool :=
  match f !! "organization_id" with
  | None => fun _ => true
  | Some None => col_is_null col
  | Some (Some v) => col_eq col (Some v)
  end.

(** [validate_insert_data], on insert data whose values are strings or
    [None]. *)
Definition validate_insert_data (self : OrgScopedQuery)
    (data : gmap string (option string)) (require_org : bool)
  : result (gmap string (option string)) :=
  let org := ctx_org_id (org_context self) in
  let conflict :=
    match data !! "organization_id" with
    | Some v =>
      truthy v
      && negb (String.eqb (str_opt v) (str_opt org))
      && negb (is_system_admin (user self) && is_override (org_context self))
    | None => false
    end in
  if conflict then
    Raise (HTTPException HTTP_403_FORBIDDEN
             "Cannot create resource in different organization")
  else if require_org && negb (bool_decide (is_Some (data !! "organization_id")))
  then
    if negb (truthy org) then
      Raise (HTTPException HTTP_400_BAD_REQUEST
               "Organization context required to create resource")
    else Ok (<[ "organization_id" := org ]> data)
  else Ok data.

End OrgGuards.

(* ===================================================================== *)
(** ** permissions.py: roles, any-permission, ABAC and the checker *)
(* ===================================================================== *)

Module Rbac.
Import Py Errors Auth.

Definition require_any_permission (permissions : list string)
    (user : CurrentUser) : result CurrentUser :=
  if is_system_admin user then Ok user
  else if negb (has_any_permission user permissions) then
    Raise (HTTPException HTTP_403_FORBIDDEN
             ("Requires one of: " +:+ join ", " permissions))
  else Ok user.

Definition missing_roles (required_roles : list string) (user : CurrentUser)
  : list string :=
  List.filter (fun r => negb (has_role user r)) required_roles.

Definition require_role (required_roles : list string) (user : CurrentUser)
  : result CurrentUser :=
  if is_system_admin user then Ok user
  else
    let missing := missing_roles required_roles user in
    match missing with
    | _ :: _ =>
      Raise (HTTPException HTTP_403_FORBIDDEN
               ("Missing required roles: " +:+ join ", " missing))
    | [] => Ok user
    end.

(** A resource as the policies probe it with [getattr(resource, name,
    None)]: each attribute is absent or null ([None]) or has a value, read
    as its text. *)
Record Resource : Type := mkResource {
  res_organization_id : option string;
  res_user_id : option string;
  res_owner_id : option string;
  res_created_by : option string
}.

(** The context dictionary, with string or [None] values. *)
Definition Context : Type := gmap string (option string).

(** [context.get(k)]. *)
Definition context_get (context : Context) (k : string) : option string :=
  default None (context !! k).

Definition ABACCondition : Type := CurrentUser -> Resource -> Context -> bool.

(** [a or b] on optional strings. *)
Definition opt_or (a b : option string) : option string :=
  if truthy a then a else b.

Definition same_organization : ABACCondition :=
  fun user resource context =>
    let resource_org_id :=
      match res_organization_id resource with
      | None => context_get context "organization_id"
      | Some v => Some v
      end in
    match resource_org_id with
    | None => true
    | Some v => String.eqb (str_opt (org_id user)) v
    end.

Definition owned_by : ABACCondition :=
  fun user resource context =>
    let owner_id :=
      opt_or (res_user_id resource)
        (opt_or (res_owner_id resource)
           (opt_or (res_created_by resource)
              (context_get context "owner_id"))) in
    match owner_id with
    | None => false
    | Some v => String.eqb (sub user) v
    end.

(** [ABACPolicies.all] and [ABACPolicies.any]. *)
Definition abac_all (conditions : list ABACCondition) : ABACCondition :=
  fun user resource context =>
    forallb (fun c => c user resource context) conditions.

Definition abac_any (conditions : list ABACCondition) : ABACCondition :=
  fun user resource context =>
    existsb (fun c => c user resource context) conditions.

(** The module-level [check_abac]: [context or {}], then every policy in
    turn. *)
Definition check_abac (user : CurrentUser) (resource : Resource)
    (policies : list ABACCondition) (context : option Context) : bool :=
  let ctx := default ∅ context in
  forallb (fun policy => policy user resource ctx) policies.

Record PermissionChecker : Type := mkPermissionChecker {
  pc_permissions : list string;
  pc_roles : list string;
  pc_abac_policies : list ABACCondition;
  require_all_permissions : bool;
  require_all_roles : bool
}.

Definition nonempty {A : Type} (l : list A) : bool :=
  match l with [] => false | _ :: _ => true end.

Definition check_rbac (self : PermissionChecker) (user : CurrentUser) : bool :=
  if is_system_admin user then true
  else if nonempty (pc_permissions self)
          && (if require_all_permissions self
              then negb (has_all_permissions user (pc_permissions self))
              else negb (has_any_permission user (pc_permissions self)))
  then false
  else if nonempty (pc_roles self)
          && (let has_roles := map (has_role user) (pc_roles self) in
              if require_all_roles self
              then negb (forallb (fun b => b) has_roles)
              else negb (existsb (fun b => b) has_roles))
  then false
  else true.

Definition checker_check_abac (self : PermissionChecker) (user : CurrentUser)
    (resource : Resource) (context : option Context) : bool :=
  if is_system_admin user then true
  else check_abac user resource (pc_abac_policies self) context.

Definition check (self : PermissionChecker) (user : CurrentUser)
    (resource : option Resource) (context : option Context) : bool :=
  if negb (check_rbac self user) then false
  else
    match resource with
    | Some r =>
      if nonempty (pc_abac_policies self)
         && negb (checker_check_abac self user r context)
      then false
      else true
    | None => true
    end.

End Rbac.

(* ===================================================================== *)
(** ** auth.py: the request dependencies *)
(* ===================================================================== *)

Module AuthDeps.
Import Py Errors Auth.

Section Jose.
Variable PublicKey : Type.
Variable get_unverified_header : string -> option JoseHeader.
Variable jwk_construct : jwk -> option PublicKey.
Variable jwt_decode :
  string -> PublicKey -> string -> option string -> Z -> decode_outcome.

(** [get_current_user]: [credentials] is the bearer token of the request,
    if it has one. *)
Definition get_current_user (g : option JWKSClient) (w : World)
    (credentials : option string) (settings : Settings)
  : result CurrentUser :=
  match credentials with
  | None => Raise (HTTPException HTTP_401_UNAUTHORIZED "Authentication required")
  | Some token =>
    to_http_401
      (let* payload :=
         validated
           (validate_token PublicKey get_unverified_header jwk_construct
              jwt_decode g w token settings) in
       extract_user_from_token payload token settings)
  end.

(** [get_current_user_optional]: an [HTTPException] from
    [get_current_user] becomes [None]; any other exception passes. *)
Definition get_current_user_optional (g : option JWKSClient) (w : World)
    (credentials : option string) (settings : Settings)
  : result (option CurrentUser) :=
  match credentials with
  | None => Ok None
  | Some _ =>
    match get_current_user g w credentials settings with
    | Ok user => Ok (Some user)
    | Raise (HTTPException _ _) => Ok None
    | Raise e => Raise e
    end
  end.

End Jose.

Definition require_verified_email (user : CurrentUser) : result CurrentUser :=
  if negb (email_verified user) then
    Raise (HTTPException HTTP_403_FORBIDDEN "Email verification required")
  else Ok user.

End AuthDeps.

(* ===================================================================== *)
(** ** audit_log.py properties and audit_service.py queries *)
(* ===================================================================== *)

Module AuditQueries.
Import Py Errors Auth OrgIsolation Datetime Audit.

(** The model class, with its organization column. *)
Definition AuditLog_model : Model AuditLog :=
  mkModel AuditLog (Some organization_id).

(** [s.startswith(t)], and SQL [s LIKE 't%'] for a [t] without
    wildcards. *)
Definition startswith (s t : string) : bool := String.prefix t s.

Definition security_types : list string := ["auth."; "access."; "admin."].

Definition is_security_event (l : AuditLog) : bool :=
  existsb (startswith (event_type l)) security_types.

Definition is_failure (l : AuditLog) : bool :=
  String.eqb (outcome l) (AuditOutcome_value FAILURE).

Definition high_severities : list string := ["error"; "critical"; "alert"].

Definition is_high_severity (l : AuditLog) : bool :=
  contains (severity l) high_severities.

(** SQL [col = v] on a column that is never null. *)
Definition text_is (col : AuditLog -> string) (v : option string)
  : AuditLog -> bool :=
  fun l => opt_str_eqb (Some (col l)) v.

(** The filters and the page of one [get_logs] call. The page number is
    at least 1 and the page size is not negative, as the route declares
    them. *)
Record LogQuery : Type := mkLogQuery {
  q_event_type : option string;
  q_actor_id : option string;
  q_target_type : option string;
  q_target_id : option string;
  q_severity : option string;
  q_outcome : option string;
  q_start_date : option datetime;
  q_end_date : option datetime;
  q_page : positive;
  q_page_size : nat
}.

Definition when_truthy (v : option string) (c : AuditLog -> bool)
  : list (AuditLog -> bool) :=
  if truthy v then [c] else [].

(** The [conditions] list of [get_logs]. *)
Definition conditions (q : LogQuery) : list (AuditLog -> bool) :=
  (when_truthy (q_event_type q) (text_is event_type (q_event_type q))
   ++ when_truthy (q_actor_id q) (col_eq actor_id (q_actor_id q))
   ++ when_truthy (q_target_type q) (col_eq target_type (q_target_type q))
   ++ when_truthy (q_target_id q) (col_eq target_id (q_target_id q))
   ++ when_truthy (q_severity q) (text_is severity (q_severity q))
   ++ when_truthy (q_outcome q) (text_is outcome (q_outcome q))
   ++ match q_start_date q with
      | Some d => [fun l => (d <=? ts l)%Z]
      | None => []
      end
   ++ match q_end_date q with
      | Some d => [fun l => (ts l <=? d)%Z]
      | None => []
      end)%list.

(** The statement of [get_logs] before ordering and paging. *)
Definition get_logs_stmt (scoped_query : OrgScopedQuery) (q : LogQuery)
  : Select AuditLog :=
  let stmt := scope_select scoped_query [] AuditLog_model false in
  match conditions q with
  | [] => stmt
  | conds => where_ stmt (fun l => forallb (fun c => c l) conds)
  end.

Definition get_logs (db : Table) (org_context : OrgContext)
    (scoped_query : OrgScopedQuery) (q : LogQuery) : list AuditLog * nat :=
  let stmt := get_logs_stmt scoped_query q in
  let total := List.length (execute stmt db) in
  let ordered := order_by desc (execute stmt db) in
  let offset := ((Pos.to_nat (q_page q) - 1) * q_page_size q)%nat in
  (firstn (q_page_size q) (skipn offset ordered), total).

Definition get_user_activity (db : Table) (user_id : string)
    (org_context : OrgContext) (scoped_query : OrgScopedQuery) (limit : nat)
  : list AuditLog :=
  let stmt :=
    where_ []
      (fun l =>
         col_eq actor_id (Some user_id) l
         || (col_eq target_type (Some "user") l
             && col_eq target_id (Some user_id) l)) in
  let stmt := scope_select scoped_query stmt AuditLog_model false in
  firstn limit (order_by desc (execute stmt db)).

(** [timedelta(hours=h)] and [timedelta(days=d)] in microseconds. *)
Definition hours_us (h : Z) : Z := (h * 3600000000)%Z.
Definition days_us (d : Z) : Z := (d * 86400000000)%Z.

(** The WHERE clause of [get_security_events]. *)
Definition security_clause (cutoff : datetime) (l : AuditLog) : bool :=
  (cutoff <=? ts l)%Z
  && (startswith (event_type l) "auth."
      || startswith (event_type l) "access."
      || startswith (event_type l) "admin."
      || contains (severity l) high_severities).

(** [get_security_events]; [now] is the reading of [datetime.utcnow()]. *)
Definition get_security_events (db : Table) (now : datetime)
    (org_context : OrgContext) (scoped_query : OrgScopedQuery)
    (hours : Z) (limit : nat) : list AuditLog :=
  let cutoff := (now - hours_us hours)%Z in
  let stmt := where_ [] (security_clause cutoff) in
  let stmt := scope_select scoped_query stmt AuditLog_model false in
  firstn limit (order_by desc (execute stmt db)).

(** The rows a count of [get_summary] ranges over: those of the window,
    and of the context's organization when it has one. *)
Definition summary_rows (db : Table) (cutoff : datetime)
    (org_context : OrgContext) : list AuditLog :=
  List.filter
    (fun l =>
       (cutoff <=? ts l)%Z
       && (if truthy (ctx_org_id org_context)
           then org_is (ctx_org_id org_context) l
           else true))
    db.

(** The GROUP BY on [event_category] read into a dictionary, keeping the
    groups whose key is truthy. *)
Definition count_by_category (rows : list AuditLog) : gmap string nat :=
  fold_left
    (fun m l =>
       if truthy (event_category l)
       then let c := default "" (event_category l) in
            <[ c := S (default 0%nat (m !! c)) ]> m
       else m)
    rows ∅.

Record Summary : Type := mkSummary {
  period_days : Z;
  total_events : nat;
  by_category : gmap string nat;
  failed_events : nat;
  high_severity_events : nat
}.

Definition get_summary (db : Table) (now : datetime)
    (org_context : OrgContext) (scoped_query : OrgScopedQuery) (days : Z)
  : Summary :=
  let cutoff := (now - days_us days)%Z in
  let rows := summary_rows db cutoff org_context in
  {| period_days := days;
     total_events := List.length rows;
     by_category := count_by_category rows;
     failed_events :=
       List.length
         (List.filter (text_is outcome (Some (AuditOutcome_value FAILURE))) rows);
     high_severity_events :=
       List.length
         (List.filter (fun l => contains (severity l) high_severities) rows) |}.

(** The keyword arguments the four logging helpers pass to [create_log];
    the parameters they leave out take its defaults. *)
Definition log_call (event_type : string) (actor : CurrentUser)
    (target_type target_id target_name organization_id description
       : option string)
    (outcome : AuditOutcome) (severity : string)
    (changes metadata : option (gmap string json))
    (ip_address user_agent : option string) : LogCall :=
  {| c_event_type := event_type;
     c_actor := Some actor;
     c_target_type := target_type;
     c_target_id := target_id;
     c_target_name := target_name;
     c_organization_id := organization_id;
     c_description := description;
     c_outcome := outcome;
     c_severity := severity;
     c_changes := changes;
     c_metadata := metadata;
     c_request_id := None;
     c_ip_address := ip_address;
     c_user_agent := user_agent;
     c_geo_country := None;
     c_geo_city := None |}.

Definition log_auth_event (db : Table) (new_id : string) (now : datetime)
    (event_type : string) (user : CurrentUser) (success : bool)
    (ip_address user_agent : option string)
    (metadata : option (gmap string json)) : result (AuditLog * Table) :=
  create_log db new_id now
    (log_call event_type user (Some "user") (Some (sub user)) None
       (org_id user) None
       (if success then SUCCESS else FAILURE)
       (if success then "info" else "warning")
       None metadata ip_address user_agent).

Definition log_user_action (db : Table) (new_id : string) (now : datetime)
    (event_type : string) (actor : CurrentUser) (target_user_id : string)
    (target_email : option string) (changes : option (gmap string json))
    (description : option string) : result (AuditLog * Table) :=
  create_log db new_id now
    (log_call event_type actor (Some "user") (Some target_user_id)
       target_email (org_id actor) description SUCCESS "info"
       changes None None None).

Definition log_team_action (db : Table) (new_id : string) (now : datetime)
    (event_type : string) (actor : CurrentUser) (team_id : string)
    (team_name : option string) (changes : option (gmap string json))
    (description : option string) : result (AuditLog * Table) :=
  create_log db new_id now
    (log_call event_type actor (Some "team") (Some team_id)
       team_name (org_id actor) description SUCCESS "info"
       changes None None None).

Definition log_access_denied (db : Table) (new_id : string) (now : datetime)
    (user : CurrentUser) (resource_type : string)
    (resource_id : option string) (reason : string)
    (ip_address : option string) : result (AuditLog * Table) :=
  create_log db new_id now
    (log_call "access.denied" user (Some resource_type) resource_id None
       (org_id user) (Some reason) FAILURE "warning"
       None None ip_address None).

End AuditQueries.

(* ===================================================================== *)
(** ** schemas/common.py: pagination metadata *)
(* ===================================================================== *)

Module Pagination.
Import Errors.

Record PaginationMeta : Type := mkPaginationMeta {
  page : Z;
  page_size : Z;
  total_items : Z;
  total_pages : Z;
  has_next : bool;
  has_previous : bool
}.

(** [PaginationMeta(...)]: pydantic checks the bounds the fields declare,
    [page >= 1], [1 <= page_size <= 100], [total_items >= 0] and
    [total_pages >= 0], and raises [ValidationError] when one fails. *)
Definition PaginationMeta_init (page page_size total_items total_pages : Z)
    (has_next has_previous : bool) : result PaginationMeta :=
  if ((1 <=? page) && (1 <=? page_size) && (page_size <=? 100)
      && (0 <=? total_items) && (0 <=? total_pages))%Z
  then Ok {| page := page;
             page_size := page_size;
             total_items := total_items;
             total_pages := total_pages;
             has_next := has_next;
             has_previous := has_previous |}
  else Raise ValidationError.

(** [a // b]: floor division, which raises on a zero divisor. *)
Definition floordiv (a b : Z) : result Z :=
  if (b =? 0)%Z then Raise ZeroDivisionError else Ok (a / b)%Z.

(** [create_pagination_meta]. *)
Definition create_pagination_meta (page page_size total : Z)
  : result PaginationMeta :=
  let* total_pages :=
    if (0 <? total)%Z then floordiv (total + page_size - 1) page_size
    else Ok 0%Z in
  PaginationMeta_init page page_size total total_pages
    (page <? total_pages)%Z (1 <? page)%Z.

End Pagination.

(* ===================================================================== *)
(** ** compliance_service.py: recommendations, readiness, audit summary *)
(* ===================================================================== *)

Module ComplianceReport.
Import Py OrgIsolation Datetime Compliance.

Record Recommendation : Type := mkRecommendation {
  priority : string;
  rec_control_id : string;
  rec_control_name : string;
  recommendation : string;
  impact : string
}.

(** The entry the loop of [_generate_recommendations] appends for one
    control, if any. *)
Definition recommend (control : ControlResult) : option Recommendation :=
  if String.eqb (status control) (ControlStatus_value NON_COMPLIANT) then
    Some {| priority := "high";
            rec_control_id := control_id control;
            rec_control_name := control_name control;
            recommendation :=
              "Implement " +:+ description control +:+ " to achieve compliance";
            impact := "Critical for compliance certification" |}
  else if String.eqb (status control) (ControlStatus_value PARTIAL) then
    Some {| priority := "medium";
            rec_control_id := control_id control;
            rec_control_name := control_name control;
            recommendation := "Enhance " +:+ description control +:+ " coverage";
            impact := "Improve compliance posture" |}
  else if String.eqb (status control) (ControlStatus_value PENDING_REVIEW) then
    Some {| priority := "low";
            rec_control_id := control_id control;
            rec_control_name := control_name control;
            recommendation := "Review evidence for " +:+ control_name control;
            impact := "Validate compliance status" |}
  else None.

(** [priority_order.get(p, 99)]. *)
Definition priority_order (p : string) : Z :=
  if String.eqb p "high" then 0
  else if String.eqb p "medium" then 1
  else if String.eqb p "low" then 2
  else 99.

(** [list.sort(key=...)]: a stable sort, here by insertion. *)
Fixpoint insert_rec (x : Recommendation) (l : list Recommendation)
  : list Recommendation :=
  match l with
  | [] => [x]
  | y :: rest =>
    if (priority_order (priority x) <=? priority_order (priority y))%Z
    then x :: l
    else y :: insert_rec x rest
  end.

Definition sort_by_priority (l : list Recommendation) : list Recommendation :=
  fold_right insert_rec [] l.

Definition _generate_recommendations (controls_status : list ControlResult)
  : list Recommendation :=
  sort_by_priority (omap recommend controls_status).

(** [_get_audit_summary]. *)
Record AuditSummary : Type := mkAuditSummary {
  total_events : nat;
  security_events : nat;
  failed_authentications : nat;
  access_denied_events : nat
}.

Definition base_conditions (org_context : OrgContext)
    (start_date end_date : datetime) (l : Audit.AuditLog) : bool :=
  (start_date <=? Audit.ts l)%Z && (Audit.ts l <=? end_date)%Z
  && (if truthy (ctx_org_id org_context)
      then Audit.org_is (ctx_org_id org_context) l
      else true).

Definition count_where (db : Audit.Table) (c : Audit.AuditLog -> bool) : nat :=
  List.length (List.filter c db).

Definition _get_audit_summary (db : Audit.Table) (org_context : OrgContext)
    (start_date end_date : datetime) : AuditSummary :=
  let base := base_conditions org_context start_date end_date in
  {| total_events := count_where db base;
     security_events :=
       count_where db
         (fun l =>
            base l
            && (AuditQueries.startswith (Audit.event_type l) "auth."
                || AuditQueries.startswith (Audit.event_type l) "access."));
     failed_authentications :=
       count_where db
         (fun l => base l && String.eqb (Audit.event_type l) "auth.login.failed");
     access_denied_events :=
       count_where db
         (fun l => base l && String.eqb (Audit.event_type l) "access.denied") |}.

Record Readiness : Type := mkReadiness {
  framework : string;
  score : Q;
  readiness_level : string;
  readiness_color : string;
  evaluated_at : string;
  readiness_period_days : Z;
  summary_total_controls : nat;
  summary_compliant : nat;
  summary_needs_attention : nat
}.

Definition ComplianceFramework_value (f : ComplianceFramework) : string :=
  match f with
  | SOC2 => "soc2"
  | HIPAA => "hipaa"
  | GDPR => "gdpr"
  | ISO27001 => "iso27001"
  | PCI_DSS => "pci_dss"
  | NIST => "nist"
  end.

(** [calculate_audit_readiness]; [now] and [now'] are the two readings of
    [datetime.utcnow()], before the evaluation and for [evaluated_at].
    The controls' own [last_evaluated] stamps are taken at [now]. *)
Definition calculate_audit_readiness (db : Audit.Table) (now now' : datetime)
    (f : ComplianceFramework) (org_context : OrgContext) : Readiness :=
  let end_date := now in
  let start_date := (end_date - AuditQueries.days_us 90)%Z in
  let controls_status :=
    _evaluate_controls db f org_context start_date end_date now in
  let overall_score := _calculate_compliance_score controls_status in
  let '(level, color) :=
    if Qle_bool 90 overall_score then ("Audit Ready", "green")
    else if Qle_bool 70 overall_score then ("Nearly Ready", "yellow")
    else if Qle_bool 50 overall_score then ("Needs Work", "orange")
    else ("Not Ready", "red") in
  {| framework := ComplianceFramework_value f;
     score := overall_score;
     readiness_level := level;
     readiness_color := color;
     evaluated_at := isoformat now';
     readiness_period_days := 90;
     summary_total_controls := List.length controls_status;
     summary_compliant :=
       List.length
         (List.filter
            (fun c => String.eqb (status c) (ControlStatus_value COMPLIANT))
            controls_status);
     summary_needs_attention :=
       List.length
         (List.filter
            (fun c =>
               contains (status c)
                 [ ControlStatus_value NON_COMPLIANT;
                   ControlStatus_value PARTIAL ])
            controls_status) |}.

End ComplianceReport.

(* ===================================================================== *)
(** ** Further vocabulary and sample inputs *)
(* ===================================================================== *)

Module Terms.
Import Py Auth OrgIsolation.

(** Whether a row whose organization column holds [org] is within the
    scope of a query helper. *)
Definition in_scope (q : OrgScopedQuery) (allow_null_org : bool)
    (org : option string) : bool :=
  let ctx_org := ctx_org_id (org_context q) in
  let own := opt_str_eqb org ctx_org || (allow_null_org && bool_decide (org = None)) in
  if is_system_admin (user q) && is_override (org_context q) then
    if truthy ctx_org then own else true
  else if truthy ctx_org then own
  else bool_decide (org = None).

(** The query with another page number. *)
Definition with_page (q : AuditQueries.LogQuery) (p : positive)
  : AuditQueries.LogQuery :=
  {| AuditQueries.q_event_type := AuditQueries.q_event_type q;
     AuditQueries.q_actor_id := AuditQueries.q_actor_id q;
     AuditQueries.q_target_type := AuditQueries.q_target_type q;
     AuditQueries.q_target_id := AuditQueries.q_target_id q;
     AuditQueries.q_severity := AuditQueries.q_severity q;
     AuditQueries.q_outcome := AuditQueries.q_outcome q;
     AuditQueries.q_start_date := AuditQueries.q_start_date q;
     AuditQueries.q_end_date := AuditQueries.q_end_date q;
     AuditQueries.q_page := p;
     AuditQueries.q_page_size := AuditQueries.q_page_size q |}.

(** Whether a row is within the scope of the helper and passes every
    filter of the query. *)
Definition matching (scoped_query : OrgScopedQuery)
    (q : AuditQueries.LogQuery) (l : Audit.AuditLog) : bool :=
  in_scope scoped_query false (Audit.organization_id l)
  && forallb (fun c => c l) (AuditQueries.conditions q).

(** Newest first. *)
Definition newest_first (rows : list Audit.AuditLog) : Prop :=
  StronglySorted (fun a b => (Audit.ts b <= Audit.ts a)%Z) rows.

(** Whether a row is of the event category [c]. *)
Definition in_category (c : string) (l : Audit.AuditLog) : bool :=
  opt_str_eqb (Audit.event_category l) (Some c).

(** Recommendations come in the order of their priority. *)
Definition by_priority (recs : list ComplianceReport.Recommendation) : Prop :=
  StronglySorted
    (fun a b =>
       (ComplianceReport.priority_order (ComplianceReport.priority a)
        <= ComplianceReport.priority_order (ComplianceReport.priority b))%Z)
    recs.

(** Whether a recommendation has the priority [p]. *)
Definition has_priority (p : string) (r : ComplianceReport.Recommendation)
  : bool :=
  String.eqb (ComplianceReport.priority r) p.

(** Whether an exception passes the handlers of the authentication
    dependencies, which catch [AuthenticationError] and [HTTPException]
    only. *)
Definition uncaught (e : Errors.exn) : bool :=
  match e with
  | Errors.HTTPException _ _ => false
  | Errors.AuthenticationError _ _ => false
  | _ => true
  end.

(** Whether a key of a JWKS document carries the key id [kid]. *)
Definition has_kid (kid : string) (key : jwk) : bool :=
  opt_str_eqb (jwk_kid key) (Some kid).

End Terms.

Module Cases.
Import Py Errors Auth OrgIsolation.

(** A principal whose token carries an empty organization id. *)
Definition blank_org_member : CurrentUser :=
  Samples.principal (Some "") ["read:teams"] ["member"].

(** A token with an [RS256] header naming key [k1], and the header jose
    reads from it. *)
Definition token_rs256 : string :=
  "eyJhbGciOiJSUzI1NiIsImtpZCI6ImsxIn0.e30.c2ln".

Definition header_rs256 (token : string) : option JoseHeader :=
  Some {| alg := Some "RS256"; kid := Some "k1" |}.

(** A world in which the provider serves the given keys. *)
Definition provider_serves (now : Z) (keys : list jwk) : World :=
  {| clock_check := now; http_get := Response (Some keys);
     clock_fetch := now |}.

Definition key2 : jwk := {| jwk_kid := Some "k1"; jwk_material := "n2" |}.

(** Worlds in which the provider answers with status 200 and a body that
    is not JSON, or with the JSON document whose ["keys"] is [null]. *)
Definition provider_garbled (now : Z) : World :=
  {| clock_check := now; http_get := NotJson; clock_fetch := now |}.

Definition provider_null_keys (now : Z) : World :=
  {| clock_check := now; http_get := KeysNotIterable "NoneType";
     clock_fetch := now |}.

(** An empty table after one refused access of a member, and the row
    written. *)
Definition denied_table : Audit.Table :=
  Samples.appends
    [ ("id-1", Samples.t0, Samples.event "access.denied" (Some "org-1")) ].

Definition denied_row : Audit.AuditLog :=
  List.hd Samples.blank_row denied_table.

(** The tenant's row of [Samples.system_then_tenant]: the second row of
    the table and the first of its organization. *)
Definition tenant_row : Audit.AuditLog :=
  List.nth 1 Samples.system_then_tenant Samples.blank_row.

End Cases.

(* ===================================================================== *)
(** * Properties *)
(* ===================================================================== *)

(** ** Python values *)

Section PyFacts.
Import Py.

Lemma contains_In (x : string) (l : list string) :
  contains x l = true <-> In x l.
Proof.
  unfold contains. rewrite existsb_exists. split.
  - intros [y [Hy Heq]]. apply String.eqb_eq in Heq. now subst.
  - intros H. exists x. split; [assumption | apply String.eqb_refl].
Qed.

Lemma contains_not_In (x : string) (l : list string) :
  contains x l = false <-> ~ In x l.
Proof.
  rewrite <- contains_In. destruct (contains x l); split; congruence.
Qed.

Lemma truthy_Some (x : option string) :
  truthy x = true <-> exists v, x = Some v /\ v <> "".
Proof.
  destruct x as [s|]; simpl.
  - rewrite negb_true_iff, String.eqb_neq. split.
    + intros H. now exists s.
    + intros [v [Hv Hne]]. now inversion Hv; subst.
  - split; [discriminate | intros [v [Hv _]]; discriminate].
Qed.

Lemma truthy_false (x : option string) :
  truthy x = false <-> x = None \/ x = Some "".
Proof.
  destruct x as [s|]; simpl.
  - rewrite negb_false_iff, String.eqb_eq. split.
    + intros ->. now right.
    + intros [H|H]; [discriminate | now inversion H].
  - split; [now left | reflexivity].
Qed.

Lemma opt_str_eqb_eq (a b : option string) :
  opt_str_eqb a b = true <-> a = b.
Proof.
  destruct a as [x|], b as [y|]; simpl; try (split; congruence).
  rewrite String.eqb_eq. split; congruence.
Qed.

End PyFacts.

(** ** Organization context and query scoping *)

Section OrgIsolationFacts.
Import Py Errors Auth OrgIsolation.

Lemma is_system_admin_roles (u : CurrentUser) :
  is_system_admin u = true <->
  In "system_admin" (roles u) \/ In "super_admin" (roles u).
Proof.
  unfold is_system_admin. rewrite orb_true_iff, !contains_In. reflexivity.
Qed.

Lemma execute_where {R : Type} (stmt : Select R) (c : R -> bool)
    (rows : list R) :
  execute (where_ stmt c) rows = List.filter c (execute stmt rows).
Proof.
  unfold execute, where_.
  induction rows as [|r rows IH]; simpl; [reflexivity|].
  rewrite forallb_app. simpl. rewrite andb_true_r.
  destruct (forallb (fun c0 => c0 r) stmt); simpl.
  - destruct (c r); simpl; now rewrite IH.
  - exact IH.
Qed.

Lemma col_eq_Some {R : Type} (col : R -> option string) (v : string) (r : R) :
  col_eq col (Some v) r = bool_decide (col r = Some v).
Proof.
  unfold col_eq. destruct (col r) as [a|].
  - case_bool_decide as H.
    + inversion H; subst. apply String.eqb_refl.
    + apply String.eqb_neq. congruence.
  - case_bool_decide; congruence.
Qed.

Lemma col_is_null_None {R : Type} (col : R -> option string) (r : R) :
  col_is_null col r = bool_decide (col r = None).
Proof.
  unfold col_is_null. destruct (col r); case_bool_decide; congruence.
Qed.

End OrgIsolationFacts.

(** C3, as the code has it. Organization-context resolution, for every
    principal and every value of the override header. The guard of
    [get_org_context] tests the header's truth value, so a header with a
    non-empty value counts as an override and an absent header or one
    with an empty value does not. An override from a principal who is not
    a system admin is refused with a 403 response; an override with value
    [v] from a system admin yields the context with [org_id = v],
    [is_override = true] and [original_org_id] the principal's own
    organization; with no header or an empty one the context is the
    principal's own organization with [is_override = false], for admins
    and others alike. *)
Theorem get_org_context_cases :
  forall (user : Auth.CurrentUser) (header : option string),
    (Py.truthy header = true ->
     Auth.is_system_admin user = false ->
     exists detail,
       OrgIsolation.get_org_context user header
       = Errors.Raise (Errors.HTTPException 403 detail))
    /\ (forall v, header = Some v -> v <> "" ->
        Auth.is_system_admin user = true ->
        OrgIsolation.get_org_context user header
        = Errors.Ok (OrgIsolation.mkOrgContext (Some v) None true (Auth.org_id user)))
    /\ (Py.truthy header = false ->
        OrgIsolation.get_org_context user header
        = Errors.Ok (OrgIsolation.mkOrgContext (Auth.org_id user) None false None)).
Proof.
  intros user header. unfold OrgIsolation.get_org_context.
  repeat split.
  - intros Hh Ha. rewrite Hh, Ha. simpl. eexists. reflexivity.
  - intros v -> Hv Ha.
    assert (Ht : Py.truthy (Some v) = true)
      by (apply truthy_Some; now exists v).
    now rewrite Ht, Ha.
  - intros Hh. now rewrite Hh.
Qed.

(** C3 as stated fails for a header that is sent with an empty value: a
    principal who is not a system admin is not refused, the header is
    passed over and the context is the principal's own. *)
Lemma get_org_context_empty_override_passes :
  Auth.is_system_admin Samples.member = false
  /\ OrgIsolation.get_org_context Samples.member (Some "")
     = Errors.Ok (OrgIsolation.mkOrgContext (Some "org-1") None false None).
Proof. split; reflexivity. Qed.

(** C4. What [scope_select] lets through, for a model with an
    organization column [col] and for a model without one. A principal is
    in override mode when it is a system admin and the context has
    [is_override] set. Out of override mode: with no organization, only
    rows whose column is null; with organization [v], the rows whose
    column is [v], together with the null rows exactly when
    [allow_null_org] is set. In override mode: with a target organization
    [v] the same filter on [v]; with no target organization the statement
    is unchanged. A model without the column leaves the statement
    unchanged. *)
Theorem scope_select_filters :
  forall (R : Type) (q : OrgIsolation.OrgScopedQuery)
         (stmt : OrgIsolation.Select R) (col : R -> option string)
         (allow_null_org : bool) (rows : list R),
    let model := OrgIsolation.mkModel R (Some col) in
    let ctx := OrgIsolation.org_context q in
    let org := OrgIsolation.ctx_org_id ctx in
    let overriding :=
      Auth.is_system_admin (OrgIsolation.user q) && OrgIsolation.is_override ctx in
    let scoped := OrgIsolation.scope_select q stmt model allow_null_org in
    let only_org (v : string) :=
      List.filter
        (fun r => bool_decide (col r = Some v)
                  || (allow_null_org && bool_decide (col r = None)))
        (OrgIsolation.execute stmt rows) in
    (overriding = false -> Py.truthy org = false ->
     OrgIsolation.execute scoped rows
     = List.filter (fun r => bool_decide (col r = None))
                   (OrgIsolation.execute stmt rows))
    /\ (forall v, overriding = false -> org = Some v -> v <> "" ->
        OrgIsolation.execute scoped rows = only_org v)
    /\ (forall v, overriding = true -> org = Some v -> v <> "" ->
        OrgIsolation.execute scoped rows = only_org v)
    /\ (overriding = true -> Py.truthy org = false ->
        OrgIsolation.execute scoped rows = OrgIsolation.execute stmt rows)
    /\ OrgIsolation.execute
         (OrgIsolation.scope_select q stmt (OrgIsolation.mkModel R None)
            allow_null_org) rows
       = OrgIsolation.execute stmt rows.
Proof.
  intros R q stmt col allow rows model ctx org overriding scoped only_org.
  assert (Hfilter : forall v, org = Some v -> v <> "" ->
            OrgIsolation.execute
              (if allow
               then OrgIsolation.where_ stmt
                      (OrgIsolation.col_or (OrgIsolation.col_eq col org)
                         (OrgIsolation.col_is_null col))
               else OrgIsolation.where_ stmt (OrgIsolation.col_eq col org)) rows
            = only_org v).
  { intros v Hv _. unfold only_org. rewrite Hv.
    destruct allow; rewrite execute_where; apply List.filter_ext; intros r;
      unfold OrgIsolation.col_or; rewrite col_eq_Some; simpl.
    - now rewrite col_is_null_None.
    - now rewrite orb_false_r. }
  assert (Htruthy : forall v, org = Some v -> v <> "" -> Py.truthy org = true).
  { intros v Hv Hne. apply truthy_Some. now exists v. }
  subst scoped. unfold OrgIsolation.scope_select. simpl.
  fold ctx. fold org. fold overriding.
  repeat split.
  - intros Ho Ht. rewrite Ho, Ht. simpl. rewrite execute_where.
    apply List.filter_ext. intros r. apply col_is_null_None.
  - intros v Ho Hv Hne. rewrite Ho, (Htruthy v Hv Hne). simpl.
    now apply Hfilter.
  - intros v Ho Hv Hne. rewrite Ho, (Htruthy v Hv Hne).
    now apply Hfilter.
  - intros Ho Ht. now rewrite Ho, Ht.
Qed.

(** ** Permission checks *)

Section PermissionFacts.
Import Py Errors Auth Permissions.

Lemma missing_permissions_In (required : list string) (u : CurrentUser)
    (q : string) :
  In q (missing_permissions required u) <->
  In q required /\ ~ In q (permissions u).
Proof.
  unfold missing_permissions, has_permission.
  rewrite List.filter_In, negb_true_iff, contains_not_In. reflexivity.
Qed.

End PermissionFacts.

(** C5. A principal whose roles contain [system_admin] or [super_admin]
    passes [require_permissions] for every required list, whatever
    permissions it holds (so also when it holds none of them). A principal
    with neither role that lacks some required permission is refused with a
    403 response whose detail lists the missing permissions, which are
    exactly the required ones it does not hold. *)
Theorem require_permissions_bypass_and_denial :
  forall (required : list string) (user : Auth.CurrentUser),
    (In "system_admin" (Auth.roles user) \/ In "super_admin" (Auth.roles user) ->
     Permissions.require_permissions required user = Errors.Ok user)
    /\ (~ (In "system_admin" (Auth.roles user)
           \/ In "super_admin" (Auth.roles user)) ->
        forall p, In p required -> ~ In p (Auth.permissions user) ->
        exists missing,
          Permissions.require_permissions required user
          = Errors.Raise
              (Errors.HTTPException 403
                 ("Missing required permissions: " +:+ Py.join ", " missing))
          /\ In p missing
          /\ (forall q, In q missing <->
                        In q required /\ ~ In q (Auth.permissions user))).
Proof.
  intros required user. unfold Permissions.require_permissions. split.
  - intros Hadmin. apply is_system_admin_roles in Hadmin. now rewrite Hadmin.
  - intros Hnot p Hp Hlack.
    assert (Ha : Auth.is_system_admin user = false).
    { destruct (Auth.is_system_admin user) eqn:E; [|reflexivity].
      apply is_system_admin_roles in E. contradiction. }
    rewrite Ha.
    assert (Hin : In p (Permissions.missing_permissions required user))
      by (apply missing_permissions_In; now split).
    exists (Permissions.missing_permissions required user).
    split; [|split].
    + destruct (Permissions.missing_permissions required user) as [|m ms];
        [destruct Hin | reflexivity].
    + exact Hin.
    + intros q. apply missing_permissions_In.
Qed.

(** ** Token validation *)

(** C6. For every token whose unverified header is malformed or carries
    an [alg] other than [RS256] (an absent one and [none] included),
    [validate_token] stops in [validate_algorithm], before any key lookup
    and whatever the signature check would say. It does not fail with an
    [AuthenticationError]: the code names [ErrorCode.AUTH_TOKEN_INVALID],
    which is not a member of [ErrorCode], so the exception that leaves is
    [AttributeError]. *)
Theorem validate_token_wrong_algorithm :
  forall (PublicKey : Type)
         (get_unverified_header : string -> option Auth.JoseHeader)
         (jwk_construct : Auth.jwk -> option PublicKey)
         (jwt_decode : string -> PublicKey -> string -> option string -> Z
                       -> Auth.decode_outcome)
         (g : option Auth.JWKSClient) (w : Auth.World) (token : string)
         (settings : Auth.Settings),
    (get_unverified_header token = None
     \/ exists h, get_unverified_header token = Some h
                  /\ Auth.alg h <> Some "RS256") ->
    let v := Auth.validate_token PublicKey get_unverified_header jwk_construct
               jwt_decode g w token settings in
    Auth.validated v
    = Errors.Raise (Errors.AttributeError "AUTH_TOKEN_INVALID")
    /\ Auth.jwks_after v = g
    /\ Auth.gets v = 0%nat
    /\ Auth.to_http_401 (Auth.validated v)
       = Errors.Raise (Errors.AttributeError "AUTH_TOKEN_INVALID").
Proof.
  intros PublicKey guh jc jd g w token settings H v. subst v.
  unfold Auth.validate_token, Auth.validate_algorithm.
  destruct H as [H | [h [H Halg]]]; rewrite H.
  - repeat split.
  - assert (E : Py.opt_str_eqb (Auth.alg h) (Some "RS256") = false).
    { destruct (Py.opt_str_eqb (Auth.alg h) (Some "RS256")) eqn:E;
        [|reflexivity].
      apply opt_str_eqb_eq in E. contradiction. }
    rewrite E. repeat split.
Qed.

(** ** The key cache *)

Section JwksFacts.
Import Py Errors Auth.

Lemma needs_refresh_iff (self : JWKSClient) (now : Z) (kid : string) :
  needs_refresh self now kid = true <->
  (cache_ttl self < now - _last_fetch self)%Z \/ _keys self !! kid = None.
Proof.
  unfold needs_refresh.
  rewrite orb_true_iff, Z.ltb_lt, negb_true_iff, bool_decide_eq_false.
  rewrite <- eq_None_not_Some. reflexivity.
Qed.

Lemma dict_is_empty_iff (m : gmap string jwk) :
  dict_is_empty m = true <-> m = ∅.
Proof. unfold dict_is_empty. apply bool_decide_eq_true. Qed.

End JwksFacts.

(** C8, as the code has it. One [get_signing_key] call on any cache
    state. A GET is made exactly when the TTL has elapsed or the key id is
    not in the map, and never more than once. Within the TTL, a cached key
    id is answered from the map with no GET and the cache is left as it
    was. When the GET fails with an [httpx.HTTPError], the cache (map and
    fetch time) is left as it was, the call raises exactly when the map
    was empty, and otherwise it answers from the old map. When the GET
    succeeds the map is replaced by the keys of the document and the fetch
    time is set. *)
Theorem get_signing_key_cache_policy :
  forall (self : Auth.JWKSClient) (w : Auth.World) (kid : string),
    let lk := Auth.get_signing_key self w kid in
    (Auth.fetches lk = 1%nat <->
       (Auth.cache_ttl self < Auth.clock_check w - Auth._last_fetch self)%Z
       \/ Auth._keys self !! kid = None)
    /\ (Auth.fetches lk <= 1)%nat
    /\ (forall key,
          (Auth.clock_check w - Auth._last_fetch self <= Auth.cache_ttl self)%Z ->
          Auth._keys self !! kid = Some key ->
          Auth.fetches lk = 0%nat
          /\ Auth.returned lk = Errors.Ok (Some key)
          /\ Auth.client_after lk = self)
    /\ (forall message,
          Auth.fetches lk = 1%nat ->
          Auth.http_get w = Auth.HTTPError message ->
          Auth.client_after lk = self
          /\ (Errors.is_raise (Auth.returned lk) = true <-> Auth._keys self = ∅)
          /\ (Auth._keys self <> ∅ ->
              Auth.returned lk = Errors.Ok (Auth._keys self !! kid)))
    /\ (forall keys,
          Auth.fetches lk = 1%nat ->
          Auth.http_get w = Auth.Response keys ->
          Auth._keys (Auth.client_after lk) = Auth.index_keys (default [] keys)
          /\ Auth._last_fetch (Auth.client_after lk) = Auth.clock_fetch w
          /\ Auth.returned lk
             = Errors.Ok (Auth.index_keys (default [] keys) !! kid)).
Proof.
  intros self w kid lk. subst lk. unfold Auth.get_signing_key.
  pose proof (needs_refresh_iff self (Auth.clock_check w) kid) as Hn.
  destruct (Auth.needs_refresh self (Auth.clock_check w) kid) eqn:E.
  - assert (Hc : (Auth.cache_ttl self
                  < Auth.clock_check w - Auth._last_fetch self)%Z
                 \/ Auth._keys self !! kid = None) by now apply Hn.
    assert (Hmiss : forall key,
              (Auth.clock_check w - Auth._last_fetch self
               <= Auth.cache_ttl self)%Z ->
              Auth._keys self !! kid = Some key -> False).
    { intros key Hle Hk. destruct Hc as [Hc|Hc]; [lia | congruence]. }
    unfold Auth._fetch_keys.
    destruct (Auth.http_get w) as [msg | keys | | | t | before fault] eqn:Eg.
    + destruct (Auth.dict_is_empty (Auth._keys self)) eqn:Ed; simpl.
      * apply dict_is_empty_iff in Ed.
        split; [tauto | split; [lia | split; [|split]]].
        -- intros key Hle Hk. destruct (Hmiss key Hle Hk).
        -- intros message _ _. split; [reflexivity | split].
           ++ split; [intros _; exact Ed | reflexivity].
           ++ intros Hne. contradiction.
        -- intros keys _ Hk. discriminate.
      * assert (Hne : Auth._keys self <> ∅).
        { intros Hm. apply dict_is_empty_iff in Hm. congruence. }
        split; [tauto | split; [lia | split; [|split]]].
        -- intros key Hle Hk. destruct (Hmiss key Hle Hk).
        -- intros message _ _. split; [reflexivity | split].
           ++ split; [discriminate | intros Hm; contradiction].
           ++ reflexivity.
        -- intros keys _ Hk. discriminate.
    + simpl. split; [tauto | split; [lia | split; [|split]]].
      * intros key Hle Hk. destruct (Hmiss key Hle Hk).
      * intros message _ Hk. discriminate.
      * intros keys0 _ Hk. inversion Hk; subst. repeat split.
    + simpl. split; [tauto | split; [lia | split; [|split]]].
      * intros key Hle Hk. destruct (Hmiss key Hle Hk).
      * intros message _ Hk. discriminate.
      * intros keys0 _ Hk. discriminate.
    + simpl. split; [tauto | split; [lia | split; [|split]]].
      * intros key Hle Hk. destruct (Hmiss key Hle Hk).
      * intros message _ Hk. discriminate.
      * intros keys0 _ Hk. discriminate.
    + simpl. split; [tauto | split; [lia | split; [|split]]].
      * intros key Hle Hk. destruct (Hmiss key Hle Hk).
      * intros message _ Hk. discriminate.
      * intros keys0 _ Hk. discriminate.
    + destruct fault; simpl;
        (split; [tauto | split; [lia | split; [|split]]]);
        [ intros key Hle Hk; destruct (Hmiss key Hle Hk)
        | intros message _ Hk; discriminate
        | intros keys0 _ Hk; discriminate
        | intros key Hle Hk; destruct (Hmiss key Hle Hk)
        | intros message _ Hk; discriminate
        | intros keys0 _ Hk; discriminate ].
  - assert (Hc : ~ ((Auth.cache_ttl self
                     < Auth.clock_check w - Auth._last_fetch self)%Z
                    \/ Auth._keys self !! kid = None)).
    { intros Hc. apply Hn in Hc. discriminate. }
    simpl. split; [|split; [lia | split; [|split]]].
    + split; [discriminate | intros Hc'; contradiction].
    + intros key _ Hk. rewrite Hk. repeat split.
    + intros message Hf. discriminate.
    + intros keys Hf. discriminate.
Qed.

(** C8 does not hold of a refresh that fails past the handler of
    [httpx.HTTPError]. With key [k1] cached and the TTL elapsed, a
    response whose body is not JSON makes the lookup raise
    [JSONDecodeError] although the map is not empty; and a document whose
    ["keys"] is [null] leaves the map empty, the reset having been done
    before the loop raises [TypeError]. *)
Lemma refresh_failure_past_the_handler :
  Auth._keys Samples.warm_cache !! "k1" = Some Samples.key1
  /\ Auth.fetches (Auth.get_signing_key Samples.warm_cache
                     (Cases.provider_garbled 5000) "k1") = 1%nat
  /\ Auth.returned (Auth.get_signing_key Samples.warm_cache
                      (Cases.provider_garbled 5000) "k1")
     = Errors.Raise Errors.JSONDecodeError
  /\ Auth.fetches (Auth.get_signing_key Samples.warm_cache
                     (Cases.provider_null_keys 5000) "k1") = 1%nat
  /\ Auth.returned (Auth.get_signing_key Samples.warm_cache
                      (Cases.provider_null_keys 5000) "k1")
     = Errors.Raise (Errors.TypeError "'NoneType' object is not iterable")
  /\ Auth._keys (Auth.client_after
                   (Auth.get_signing_key Samples.warm_cache
                      (Cases.provider_null_keys 5000) "k1"))
     = ∅.
Proof. repeat split; vm_compute; reflexivity. Qed.

(** ** Claim extraction *)

Section ExtractionFacts.
Import Py Auth Props.

Lemma py_or_top (payload : gmap string json) (k : string) (v dflt b : json) :
  top_level_is payload k v ->
  py_or (get_default payload k dflt) b = v.
Proof.
  intros [Hk Ht]. unfold py_or, get_default. rewrite Hk. simpl. now rewrite Ht.
Qed.

Lemma py_or_fallback (payload : gmap string json) (k : string) (dflt b : json) :
  json_truthy dflt = false ->
  top_level_falsy payload k ->
  py_or (get_default payload k dflt) b = b.
Proof.
  intros Hd [Hk | [v [Hk Hf]]]; unfold py_or, get_default; rewrite Hk; simpl.
  - now rewrite Hd.
  - now rewrite Hf.
Qed.

End ExtractionFacts.

Section ValidationFacts.
Import Py Errors Auth Props.

Lemma validate_optional_str_Some (v : json) (x : option string) :
  validate_optional_str v = Some x <-> v = opt_json x.
Proof.
  destruct v, x; cbn; split; intros H; try discriminate; congruence.
Qed.

Lemma validate_str_Some (v : json) (s : string) :
  validate_str v = Some s <-> v = JStr s.
Proof. destruct v; cbn; split; intros H; try discriminate; congruence. Qed.

Lemma validate_list_str_Some (l : list json) (ss : list string) :
  validate_list_str l = Some ss <-> l = map JStr ss.
Proof.
  revert ss. induction l as [|v l IH]; intros ss; cbn.
  - destruct ss; cbn; split; intros H; try discriminate; congruence.
  - destruct (validate_str v) as [s|] eqn:Ev.
    + apply validate_str_Some in Ev. subst v.
      destruct (validate_list_str l) as [ss'|].
      * split.
        -- intros H. inversion H; subst ss. cbn. f_equal.
           now apply (IH ss').
        -- destruct ss as [|s0 ss0]; cbn; [discriminate|].
           intros H. inversion H; subst s0.
           assert (Some ss' = Some ss0) by (apply IH; assumption).
           congruence.
      * split; [discriminate|].
        destruct ss as [|s0 ss0]; cbn; [discriminate|].
        intros H. inversion H; subst s0.
        assert (None = Some ss0) by (apply IH; assumption). discriminate.
    + split; [discriminate|].
      destruct ss as [|s0 ss0]; cbn; [discriminate|].
      intros H. inversion H; subst v. discriminate.
Qed.

Lemma validate_list_str_None (l : list json) :
  validate_list_str l = None <->
  exists v, In v l /\ forall s, v <> JStr s.
Proof.
  induction l as [|v l IH]; cbn.
  - split; [discriminate | intros [v [[] _]]].
  - destruct (validate_str v) as [s|] eqn:Ev.
    + apply validate_str_Some in Ev. subst v.
      destruct (validate_list_str l) as [ss|].
      * split; [discriminate|].
        intros [v [[<- | Hin] Hv]]; [now destruct (Hv s)|].
        assert (@None (list string) = None) as _ by reflexivity.
        destruct IH as [_ IH]. discriminate IH. now exists v.
      * split; [|reflexivity]. intros _.
        destruct IH as [IH _]. destruct (IH eq_refl) as [v [Hin Hv]].
        exists v. split; [now right | assumption].
    + split; [|reflexivity]. intros _. exists v. split; [now left|].
      intros s Hs. subst v. discriminate.
Qed.

(** The constructor returns exactly when the arguments fit the fields,
    and then the model holds the arguments as they were given. *)
Lemma CurrentUser_init_Ok (a : CurrentUserArgs) (u : CurrentUser) :
  CurrentUser_init a = Ok u <->
  arg_sub a = JStr (sub u)
  /\ arg_email a = opt_json (email u)
  /\ validate_bool (arg_email_verified a) = Some (email_verified u)
  /\ arg_name a = opt_json (name u)
  /\ arg_nickname a = opt_json (nickname u)
  /\ arg_picture a = opt_json (picture u)
  /\ arg_org_id a = opt_json (org_id u)
  /\ arg_permissions a = map JStr (permissions u)
  /\ arg_roles a = map JStr (roles u)
  /\ arg_app_metadata a = app_metadata u
  /\ arg_user_metadata a = user_metadata u
  /\ arg_raw_token a = raw_token u.
Proof.
  unfold CurrentUser_init.
  rewrite <- validate_str_Some, <- !validate_optional_str_Some,
    <- !validate_list_str_Some.
  destruct (validate_str (arg_sub a)) as [x1|];
    [|split; [discriminate | intros [H _]; discriminate]].
  destruct (validate_optional_str (arg_email a)) as [x2|];
    [|split; [discriminate | intros [_ [H _]]; discriminate]].
  destruct (validate_bool (arg_email_verified a)) as [x3|];
    [|split; [discriminate | intros [_ [_ [H _]]]; discriminate]].
  destruct (validate_optional_str (arg_name a)) as [x4|];
    [|split; [discriminate | intros [_ [_ [_ [H _]]]]; discriminate]].
  destruct (validate_optional_str (arg_nickname a)) as [x5|];
    [|split; [discriminate | intros [_ [_ [_ [_ [H _]]]]]; discriminate]].
  destruct (validate_optional_str (arg_picture a)) as [x6|];
    [|split; [discriminate | intros [_ [_ [_ [_ [_ [H _]]]]]]; discriminate]].
  destruct (validate_optional_str (arg_org_id a)) as [x7|];
    [|split; [discriminate
             | intros [_ [_ [_ [_ [_ [_ [H _]]]]]]]; discriminate]].
  destruct (validate_list_str (arg_permissions a)) as [x8|];
    [|split; [discriminate
             | intros [_ [_ [_ [_ [_ [_ [_ [H _]]]]]]]]; discriminate]].
  destruct (validate_list_str (arg_roles a)) as [x9|];
    [|split; [discriminate
             | intros [_ [_ [_ [_ [_ [_ [_ [_ [H _]]]]]]]]]; discriminate]].
  split.
  - intros H. inversion H; subst u; clear H. cbn. repeat split.
  - intros [H1 [H2 [H3 [H4 [H5 [H6 [H7 [H8 [H9 [H10 [H11 H12]]]]]]]]]]].
    destruct u. cbn in *. congruence.
Qed.

Lemma CurrentUser_init_Raise (a : CurrentUserArgs) (e : exn) :
  CurrentUser_init a = Raise e -> e = ValidationError.
Proof.
  unfold CurrentUser_init.
  repeat match goal with
         | |- context [match ?x with Some _ => _ | None => _ end] =>
           destruct x
         end; intros H; inversion H; reflexivity.
Qed.

Lemma CurrentUser_init_fits (a : CurrentUserArgs) :
  (exists u, CurrentUser_init a = Ok u) <-> fits_fields a.
Proof.
  split.
  - intros [u Hu]. apply CurrentUser_init_Ok in Hu.
    destruct Hu as [H1 [H2 [H3 [H4 [H5 [H6 [H7 [H8 [H9 _]]]]]]]]].
    unfold fits_fields. split; [eauto|]. split; [|split; [eauto|split]].
    + intros claim field Hin. cbn in Hin.
      repeat (destruct Hin as [Hin | Hin];
              [inversion Hin; subst; eauto|]).
      destruct Hin.
    + intros v Hv. rewrite H8 in Hv. apply in_map_iff in Hv.
      destruct Hv as [s [<- _]]. eauto.
    + intros v Hv. rewrite H9 in Hv. apply in_map_iff in Hv.
      destruct Hv as [s [<- _]]. eauto.
  - intros [[s Hs] [Hopt [[b Hb] [Hp Hr]]]].
    destruct (Hopt "email" arg_email) as [x2 H2]; [cbn; tauto|].
    destruct (Hopt "name" arg_name) as [x4 H4]; [cbn; tauto|].
    destruct (Hopt "nickname" arg_nickname) as [x5 H5]; [cbn; tauto|].
    destruct (Hopt "picture" arg_picture) as [x6 H6]; [cbn; tauto|].
    destruct (Hopt "org_id" arg_org_id) as [x7 H7]; [cbn; tauto|].
    destruct (validate_list_str (arg_permissions a)) as [ps|] eqn:Ep.
    2:{ apply validate_list_str_None in Ep. destruct Ep as [v [Hin Hv]].
        destruct (Hp v Hin) as [s' Hs']. now destruct (Hv s'). }
    destruct (validate_list_str (arg_roles a)) as [rs|] eqn:Er.
    2:{ apply validate_list_str_None in Er. destruct Er as [v [Hin Hv]].
        destruct (Hr v Hin) as [s' Hs']. now destruct (Hv s'). }
    apply validate_list_str_Some in Ep, Er.
    exists {| sub := s; email := x2; email_verified := b; name := x4;
              nickname := x5; picture := x6; org_id := x7;
              permissions := ps; roles := rs;
              app_metadata := arg_app_metadata a;
              user_metadata := arg_user_metadata a;
              raw_token := arg_raw_token a |}.
    apply CurrentUser_init_Ok. cbn. repeat split; assumption.
Qed.

End ValidationFacts.

(** C7, as the code has it. A claim is taken from the top level when it is
    present there with a truthy value; when it is absent or falsy there
    (null, false, zero, an empty string, list or object), the value under
    the namespace prefix is taken instead. This holds for [email], [name],
    [nickname], [picture], [org_id], [email_verified] and [permissions].
    [roles] is read under the namespace prefix only. A [permissions] or
    [roles] value that is not a list becomes the empty list. The values
    taken are then handed to [CurrentUser], which validates them:
    extraction returns a user exactly when they fit the fields ([sub] a
    string, each optional claim a string or null, [email_verified] read
    as a boolean, permissions and roles lists of strings), the user then
    holds them as taken, and otherwise extraction raises
    [ValidationError]. *)
Theorem extract_user_precedence :
  forall (payload : gmap string Py.json) (token : string)
         (settings : Auth.Settings),
    let a := Auth.constructor_arguments payload token settings in
    let r := Auth.extract_user_from_token payload token settings in
    let ns := Auth.ns_key (Auth.AUTH0_CLAIMS_NAMESPACE settings) in
    (forall claim field, In (claim, field) Props.standard_claims ->
       (forall v, Props.top_level_is payload claim v -> field a = v)
       /\ (Props.top_level_falsy payload claim ->
           field a = default Py.JNull (payload !! ns claim)))
    /\ (forall v, Props.top_level_is payload "email_verified" v ->
          Auth.arg_email_verified a = v)
    /\ (Props.top_level_falsy payload "email_verified" ->
        Auth.arg_email_verified a
        = default (Py.JBool false) (payload !! ns "email_verified"))
    /\ (forall v, Props.top_level_is payload "permissions" v ->
          Auth.arg_permissions a = Auth.list_or_empty v)
    /\ (Props.top_level_falsy payload "permissions" ->
        Auth.arg_permissions a
        = Auth.list_or_empty (default (Py.JList []) (payload !! ns "permissions")))
    /\ Auth.arg_roles a
       = Auth.list_or_empty (default (Py.JList []) (payload !! ns "roles"))
    /\ (forall v, (forall l, v <> Py.JList l) -> Auth.list_or_empty v = [])
    /\ ((exists u, r = Errors.Ok u) <-> Props.fits_fields a)
    /\ (forall u, r = Errors.Ok u ->
          Auth.arg_sub a = Py.JStr (Auth.sub u)
          /\ Auth.arg_email a = Props.opt_json (Auth.email u)
          /\ Auth.validate_bool (Auth.arg_email_verified a)
             = Some (Auth.email_verified u)
          /\ Auth.arg_name a = Props.opt_json (Auth.name u)
          /\ Auth.arg_nickname a = Props.opt_json (Auth.nickname u)
          /\ Auth.arg_picture a = Props.opt_json (Auth.picture u)
          /\ Auth.arg_org_id a = Props.opt_json (Auth.org_id u)
          /\ Auth.arg_permissions a = map Py.JStr (Auth.permissions u)
          /\ Auth.arg_roles a = map Py.JStr (Auth.roles u)
          /\ Auth.raw_token u = token)
    /\ (forall e, r = Errors.Raise e -> e = Errors.ValidationError).
Proof.
  intros payload token settings a r ns.
  split; [|split; [|split; [|split; [|split; [|split; [|split;
    [|split; [|split]]]]]]]].
  - intros claim field Hin.
    assert (Hcases :
      field a = Py.py_or (Py.get_default payload claim Py.JNull)
                         (Py.get payload (ns claim))).
    { simpl in Hin.
      repeat (destruct Hin as [Hin | Hin];
              [inversion Hin; subst; reflexivity|]).
      destruct Hin. }
    rewrite Hcases. split.
    + intros v Hv. now apply py_or_top.
    + intros Hf. now apply py_or_fallback.
  - intros v Hv. subst a. simpl. now apply py_or_top.
  - intros Hf. subst a. simpl. now apply py_or_fallback.
  - intros v Hv. subst a. simpl. f_equal. now apply py_or_top.
  - intros Hf. subst a. simpl. f_equal. now apply py_or_fallback.
  - reflexivity.
  - intros v Hv. destruct v; try reflexivity. now destruct (Hv l).
  - apply CurrentUser_init_fits.
  - intros u Hu. apply CurrentUser_init_Ok in Hu.
    destruct Hu as [H1 [H2 [H3 [H4 [H5 [H6 [H7 [H8 [H9 [_ [_ H12]]]]]]]]]]].
    repeat split; try assumption. now rewrite <- H12.
  - intros e He. now apply CurrentUser_init_Raise in He.
Qed.

(** C7 as stated fails: a [roles] claim at the top level is not read, a
    top-level value that is present but falsy gives way to the namespaced
    one, and a list of permissions that holds a number is an error. *)
Lemma extract_user_ignores_top_level :
  Samples.payload_top_level_roles !! "roles"
  = Some (Py.JList [Py.JStr "system_admin"])
  /\ (exists u,
        Auth.extract_user_from_token Samples.payload_top_level_roles "t"
          Samples.settings = Errors.Ok u
        /\ Auth.roles u = [])
  /\ Samples.payload_unverified_email !! "email_verified" = Some (Py.JBool false)
  /\ (exists u,
        Auth.extract_user_from_token Samples.payload_unverified_email "t"
          Samples.settings = Errors.Ok u
        /\ Auth.email_verified u = true)
  /\ Auth.extract_user_from_token Samples.payload_numeric_permission "t"
       Samples.settings = Errors.Raise Errors.ValidationError.
Proof.
  split; [vm_compute; reflexivity|].
  split; [eexists; split; vm_compute; reflexivity|].
  split; [vm_compute; reflexivity|].
  split; [eexists; split; vm_compute; reflexivity|].
  vm_compute. reflexivity.
Qed.

(** The precedence theorem at a payload that carries both emails. *)
Lemma extract_user_precedence_witness :
  Auth.arg_email
    (Auth.constructor_arguments Samples.payload_both_emails "t"
       Samples.settings) = Py.JStr "top@example.com"
  /\ exists u,
       Auth.extract_user_from_token Samples.payload_both_emails "t"
         Samples.settings = Errors.Ok u
       /\ Auth.email u = Some "top@example.com".
Proof.
  destruct (extract_user_precedence Samples.payload_both_emails "t"
              Samples.settings) as [H [_ [_ [_ [_ [_ [_ [_ [Hok _]]]]]]]]].
  assert (He : Auth.arg_email
                 (Auth.constructor_arguments Samples.payload_both_emails "t"
                    Samples.settings) = Py.JStr "top@example.com").
  { apply (H "email" Auth.arg_email).
    - simpl. now left.
    - split; vm_compute; reflexivity. }
  split; [exact He|].
  eexists. split; [vm_compute; reflexivity|].
  reflexivity.
Defined.

(** ** Compliance scoring *)

(** ** Floating point *)

Section FloatFacts.
Import PyFloat.
Local Open Scope Q_scope.

Lemma round_half_even_error (q : Q) :
  inject_Z (round_half_even q) - q <= 1 # 2
  /\ q - inject_Z (round_half_even q) <= 1 # 2.
Proof.
  unfold round_half_even.
  pose proof (Qfloor_le q) as Hl. pose proof (Qlt_floor q) as Hu.
  rewrite inject_Z_plus in Hu. change (inject_Z 1) with 1 in Hu.
  destruct (Qcompare (q - inject_Z (Qfloor q)) (1 # 2)) eqn:E.
  - apply Qeq_alt in E. destruct (Z.even (Qfloor q));
      [|rewrite inject_Z_plus; change (inject_Z 1) with 1]; split; lra.
  - apply Qlt_alt in E. split; lra.
  - apply Qgt_alt in E. rewrite inject_Z_plus. change (inject_Z 1) with 1.
    split; lra.
Qed.

Lemma round_half_even_le (q : Q) (z : Z) :
  q <= inject_Z z -> (round_half_even q <= z)%Z.
Proof.
  intros H. unfold round_half_even.
  pose proof (Qfloor_le q) as Hl.
  assert (Hf : (Qfloor q <= z)%Z).
  { rewrite <- (Qfloor_Z z). now apply Qfloor_resp_le. }
  destruct (Z.eq_dec (Qfloor q) z) as [Heq | Hne].
  - assert (Hq : q - inject_Z (Qfloor q) <= 0) by (rewrite Heq; lra).
    destruct (Qcompare (q - inject_Z (Qfloor q)) (1 # 2)) eqn:E.
    + apply Qeq_alt in E. lra.
    + lia.
    + apply Qgt_alt in E. lra.
  - destruct (Qcompare _ _); [destruct (Z.even _)| |]; lia.
Qed.

Lemma round_half_even_ge (q : Q) (z : Z) :
  inject_Z z <= q -> (z <= round_half_even q)%Z.
Proof.
  intros H. unfold round_half_even.
  assert (Hf : (z <= Qfloor q)%Z).
  { rewrite <- (Qfloor_Z z). now apply Qfloor_resp_le. }
  destruct (Qcompare _ _); [destruct (Z.even _)| |]; lia.
Qed.

Lemma pow2_pos (k : Z) : 0 < 2 ^ k.
Proof. apply Qpower_0_lt. reflexivity. Qed.

Lemma exponent_le (q : Q) : 0 < q -> 2 ^ exponent q <= q.
Proof.
  intros Hq. unfold exponent.
  set (la := Z.log2 (Qnum q)). set (lb := Z.log2 (Z.pos (Qden q))).
  destruct (Qle_bool (2 ^ (la - lb)) q) eqn:E.
  - now apply Qle_bool_iff.
  - destruct q as [a b]. cbn [Qnum Qden] in *.
    assert (Ha : (0 < a)%Z) by (unfold Qlt in Hq; cbn in Hq; lia).
    pose proof (Z.log2_spec a Ha) as [Ha1 _]. fold la in Ha1.
    pose proof (Z.log2_spec (Z.pos b) (Pos2Z.is_pos b)) as [_ Hb2].
    fold lb in Hb2.
    assert (Hla : (0 <= la)%Z) by apply Z.log2_nonneg.
    assert (Hlb : (0 <= lb)%Z) by apply Z.log2_nonneg.
    replace (la - lb - 1)%Z with (la - (lb + 1))%Z by lia.
    rewrite Qpower_minus by discriminate.
    rewrite <- (Zpower_Qpower 2 la Hla).
    rewrite <- (Zpower_Qpower 2 (lb + 1)) by lia.
    apply Qle_shift_div_r.
    + change 0 with (inject_Z 0). rewrite <- Zlt_Qlt. lia.
    + unfold Qle, Qmult, inject_Z. cbn [Qnum Qden].
      rewrite !Z.mul_1_r, Pos.mul_1_r.
      unfold Z.succ in Hb2. nia.
Qed.

Lemma exponent_lt (q : Q) (k : Z) : 0 < q -> q < 2 ^ k -> (exponent q < k)%Z.
Proof.
  intros Hq Hk. apply (Qpower_lt_compat_l_inv 2); [|reflexivity].
  apply Qle_lt_trans with q; [now apply exponent_le | assumption].
Qed.

Lemma Qabs_of_pos (q : Q) : 0 < q -> Qabs q = q.
Proof.
  destruct q as [a b]. unfold Qlt. cbn. intros H.
  rewrite Z.abs_eq by lia. reflexivity.
Qed.

Lemma ulp_pos (q : Q) : 0 < ulp q.
Proof. apply pow2_pos. Qed.

Lemma ulp_le (q : Q) : 0 < q -> ulp q <= q * (1 # 2 ^ 52).
Proof.
  intros Hq. unfold ulp. rewrite (Qabs_of_pos q Hq).
  rewrite Qpower_minus by discriminate.
  pose proof (exponent_le q Hq) as He.
  change (2 ^ 52) with (inject_Z (2 ^ 52)).
  unfold Qdiv. change (/ inject_Z (2 ^ 52)) with (1 # 2 ^ 52).
  apply Qmult_le_compat_r; [assumption | discriminate].
Qed.

Lemma nearest_eq (q : Q) :
  ~ q == 0 ->
  nearest q == inject_Z (round_half_even (q / ulp q)) * ulp q.
Proof.
  intros Hq. unfold nearest.
  destruct (Qeq_bool q 0) eqn:E; [apply Qeq_bool_iff in E; contradiction|].
  apply Qred_correct.
Qed.

Lemma nearest_0 : nearest 0 = 0.
Proof. reflexivity. Qed.

Lemma nearest_error (q : Q) :
  0 < q ->
  nearest q - q <= q * (1 # 2 ^ 53) /\ q - nearest q <= q * (1 # 2 ^ 53).
Proof.
  intros Hq. rewrite nearest_eq by lra.
  pose proof (ulp_pos q) as Hu. pose proof (ulp_le q Hq) as Hle.
  pose proof (round_half_even_error (q / ulp q)) as [H1 H2].
  set (m := inject_Z (round_half_even (q / ulp q))) in *.
  assert (Hq' : q == q / ulp q * ulp q) by (field; lra).
  assert (Ha : (m - q / ulp q) * ulp q <= (1 # 2) * ulp q)
    by (apply Qmult_le_compat_r; lra).
  assert (Hb : (q / ulp q - m) * ulp q <= (1 # 2) * ulp q)
    by (apply Qmult_le_compat_r; lra).
  assert (Hc : (m - q / ulp q) * ulp q == m * ulp q - q) by (field; lra).
  assert (Hd : (q / ulp q - m) * ulp q == q - m * ulp q) by (field; lra).
  rewrite Hc in Ha. rewrite Hd in Hb.
  assert (He : q * (1 # 2 ^ 53) == (1 # 2) * (q * (1 # 2 ^ 52))).
  { change (1 # 2 ^ 53) with ((1 # 2) * (1 # 2 ^52)). ring. }
  rewrite He. split; lra.
Qed.

Lemma nearest_le (q B : Q) (z : Z) :
  0 < q -> q <= B -> B == inject_Z z * ulp q -> nearest q <= B.
Proof.
  intros Hq HB Hz. rewrite nearest_eq by lra.
  pose proof (ulp_pos q) as Hu.
  assert (H : q / ulp q <= inject_Z z).
  { apply Qle_shift_div_r; [assumption|]. now rewrite <- Hz. }
  apply round_half_even_le in H. rewrite Zle_Qle in H.
  rewrite Hz. apply Qmult_le_compat_r; lra.
Qed.

Lemma nearest_ge (q B : Q) (z : Z) :
  0 < q -> B <= q -> B == inject_Z z * ulp q -> B <= nearest q.
Proof.
  intros Hq HB Hz. rewrite nearest_eq by lra.
  pose proof (ulp_pos q) as Hu.
  assert (H : inject_Z z <= q / ulp q).
  { apply Qle_shift_div_l; [assumption|]. now rewrite <- Hz. }
  apply round_half_even_ge in H. rewrite Zle_Qle in H.
  rewrite Hz. apply Qmult_le_compat_r; lra.
Qed.

(** A multiple of [2 ^ j] is a multiple of the ulp of [q] when
    [q < 2 ^ (j + 53)]. *)
Lemma multiple_of_ulp (q : Q) (b j : Z) :
  0 < q -> q < 2 ^ (j + 53) ->
  exists z, inject_Z b * 2 ^ j == inject_Z z * ulp q.
Proof.
  intros Hq Hk. pose proof (exponent_lt q (j + 53) Hq Hk) as He.
  exists (b * 2 ^ (j + 52 - exponent q))%Z.
  unfold ulp. rewrite (Qabs_of_pos q Hq).
  rewrite inject_Z_mult, Zpower_Qpower by lia.
  change (inject_Z 2) with 2.
  rewrite <- Qmult_assoc, <- Qpower_plus by discriminate.
  replace (j + 52 - exponent q + (exponent q - 52))%Z with j by lia.
  reflexivity.
Qed.


Lemma nearest_of_zero (q : Q) : q == 0 -> nearest q = 0.
Proof.
  intros H. unfold nearest. apply Qeq_bool_iff in H. now rewrite H.
Qed.

Lemma nearest_error_nonneg (q : Q) :
  0 <= q ->
  nearest q - q <= q * (1 # 9007199254740992)
  /\ q - nearest q <= q * (1 # 9007199254740992).
Proof.
  intros Hq. destruct (Qeq_dec q 0) as [H0 | H0].
  - rewrite (nearest_of_zero q H0). split; lra.
  - apply nearest_error. lra.
Qed.

Lemma nearest_le_dyadic (q : Q) (b j : Z) :
  0 <= q -> q <= inject_Z b * 2 ^ j -> q < 2 ^ (j + 53) ->
  nearest q <= inject_Z b * 2 ^ j.
Proof.
  intros Hq HB Hk. destruct (Qeq_dec q 0) as [H0 | H0].
  - rewrite (nearest_of_zero q H0). lra.
  - assert (Hq' : 0 < q) by lra.
    destruct (multiple_of_ulp q b j Hq' Hk) as [z Hz].
    now apply (nearest_le q _ z).
Qed.

Lemma nearest_ge_dyadic (q : Q) (b j : Z) :
  0 < q -> inject_Z b * 2 ^ j <= q -> q < 2 ^ (j + 53) ->
  inject_Z b * 2 ^ j <= nearest q.
Proof.
  intros Hq HB Hk.
  destruct (multiple_of_ulp q b j Hq Hk) as [z Hz].
  now apply (nearest_ge q _ z).
Qed.

(** The expression [round((s / n) * 100, 2)] for [0 <= s <= n], [0 < n]. *)
Lemma rounded_percentage (s n : Q) :
  0 <= s -> s <= n -> 0 < n ->
  let p := s / n * 100 in
  let z := round (mul (truediv s n) 100) 2 in
  z - p <= (1 # 200) + (1 # 10000000000000)
  /\ p - z <= (1 # 200) + (1 # 10000000000000)
  /\ 0 <= z /\ z <= 100
  /\ (n * (1 # 4) <= s -> 25 <= z)
  /\ exists k, (0 <= k <= 10000)%Z /\ z = nearest (inject_Z k / 100).
Proof.
  intros Hs Hsn Hn p z. subst p z. unfold round, mul, truediv.
  set (x := s / n).
  assert (Hx0 : 0 <= x).
  { unfold x. apply Qle_shift_div_l; [assumption | lra]. }
  assert (Hx1 : x <= 1).
  { unfold x. apply Qle_shift_div_r; [assumption | lra]. }
  assert (Hxq : n * (1 # 4) <= s -> (1 # 4) <= x).
  { intros H. unfold x. apply Qle_shift_div_l; [assumption | lra]. }
    set (x1 := nearest x).
  pose proof (nearest_error_nonneg x Hx0) as [Ex1 Ex2]. fold x1 in Ex1, Ex2.
  assert (Hx1u : x1 <= 1).
  { change 1 with (inject_Z 1 * 2 ^ 0). apply nearest_le_dyadic.
    - assumption.
    - change (inject_Z 1 * 2 ^ 0) with 1. assumption.
    - apply Qle_lt_trans with 1; [assumption | reflexivity]. }
  assert (Hx1l : 0 <= x1) by lra.
  assert (Hx1q : n * (1 # 4) <= s -> (1 # 4) <= x1).
  { intros H. apply Hxq in H.
    change (1 # 4) with (inject_Z 1 * 2 ^ (-2)). apply nearest_ge_dyadic.
    - lra.
    - change (inject_Z 1 * 2 ^ (-2)) with (1 # 4). assumption.
    - apply Qle_lt_trans with 1; [assumption | reflexivity]. }
    set (y0 := x1 * 100).
  assert (Ey0 : y0 == x1 * 100) by reflexivity.
  assert (Hy0 : 0 <= y0 /\ y0 <= 100) by (split; lra).
  set (y := nearest y0).
  pose proof (nearest_error_nonneg y0 (proj1 Hy0)) as [Ey1 Ey2].
  fold y in Ey1, Ey2.
  assert (Hyu : y <= 100).
  { change 100 with (inject_Z 100 * 2 ^ 0). apply nearest_le_dyadic.
    - tauto.
    - change (inject_Z 100 * 2 ^ 0) with 100. tauto.
    - apply Qle_lt_trans with 100; [tauto | reflexivity]. }
  assert (Hyl : 0 <= y) by lra.
  assert (Hyq : n * (1 # 4) <= s -> 25 <= y).
  { intros H. apply Hx1q in H.
    change 25 with (inject_Z 25 * 2 ^ 0). apply nearest_ge_dyadic.
    - unfold y0. lra.
    - change (inject_Z 25 * 2 ^ 0) with 25. unfold y0. lra.
    - apply Qle_lt_trans with 100; [tauto | reflexivity]. }
    change (inject_Z (10 ^ 2)) with 100.
  set (k := round_half_even (y * 100)).
  pose proof (round_half_even_error (y * 100)) as [Ek1 Ek2]. fold k in Ek1, Ek2.
  assert (Hku : (k <= 10000)%Z).
  { apply round_half_even_le. change (inject_Z 10000) with 10000. lra. }
  assert (Hkl : (0 <= k)%Z).
  { apply round_half_even_ge. change (inject_Z 0) with 0. lra. }
  assert (Hkq : n * (1 # 4) <= s -> (2500 <= k)%Z).
  { intros H. apply Hyq in H. apply round_half_even_ge.
    change (inject_Z 2500) with 2500. lra. }
  rewrite Zle_Qle in Hku, Hkl. change (inject_Z 10000) with 10000 in Hku.
  change (inject_Z 0) with 0 in Hkl.
  set (r := inject_Z k / 100).
  assert (Hr : r * 100 == inject_Z k) by (unfold r; field).
  assert (Hr0 : 0 <= r /\ r <= 100) by (split; lra).
  pose proof (nearest_error_nonneg r (proj1 Hr0)) as [Er1 Er2].
  assert (Hzu : nearest r <= 100).
  { change 100 with (inject_Z 100 * 2 ^ 0). apply nearest_le_dyadic.
    - tauto.
    - change (inject_Z 100 * 2 ^ 0) with 100. tauto.
    - apply Qle_lt_trans with 100; [tauto | reflexivity]. }
  assert (Hzq : n * (1 # 4) <= s -> 25 <= nearest r).
  { intros H. apply Hkq in H. rewrite Zle_Qle in H.
    change (inject_Z 2500) with 2500 in H.
    change 25 with (inject_Z 25 * 2 ^ 0). apply nearest_ge_dyadic.
    - lra.
    - change (inject_Z 25 * 2 ^ 0) with 25. lra.
    - apply Qle_lt_trans with 100; [tauto | reflexivity]. }
  split; [lra|]. split; [lra|]. split; [lra|]. split; [assumption|].
  split; [assumption|].
  exists k. rewrite !Zle_Qle. change (inject_Z 0) with 0.
  change (inject_Z 10000) with 10000. split; [split; assumption|].
  reflexivity.
Qed.

End FloatFacts.

(** ** Compliance scoring facts *)

Section ComplianceFacts.
Import Py Compliance Props.

Lemma known_status_cases (c : ControlResult) :
  known_status c ->
  status c = "compliant" \/ status c = "non_compliant"
  \/ status c = "partial" \/ status c = "not_applicable"
  \/ status c = "pending_review".
Proof. intros [[] H]; simpl in H; tauto. Qed.

Lemma accumulate_step (c : ControlResult) (w s : Q) :
  known_status c ->
  accumulate (w, s) c
  = if String.eqb (status c) "not_applicable" then (w, s)
    else ((w + 1)%Q, (s + weight_of c)%Q).
Proof.
  intros Hc. unfold accumulate, weights_get, weight_of.
  destruct (known_status_cases c Hc) as [H|[H|[H|[H|H]]]];
    rewrite H; reflexivity.
Qed.

(** The loop of [_calculate_compliance_score] adds one per counted
    control to the first accumulator and its weight to the second. *)
Lemma fold_accumulate (cs : list ControlResult) :
  Forall known_status cs ->
  forall w s,
    fold_left accumulate cs (w, s)
    = (fold_left (fun acc _ => (acc + 1)%Q) (applicable cs) w,
       fold_left (fun acc c => (acc + weight_of c)%Q) (applicable cs) s).
Proof.
  induction 1 as [|c cs Hc _ IH]; intros w s; [reflexivity|].
  cbn [fold_left]. rewrite (accumulate_step c w s Hc).
  unfold applicable. cbn [List.filter]. fold (applicable cs).
  destruct (String.eqb (status c) "not_applicable"); cbn [negb fold_left];
    apply IH.
Qed.

Lemma fold_count_Qeq (cs : list ControlResult) (w : Q) :
  (fold_left (fun acc _ => acc + 1) cs w
   == w + inject_Z (Z.of_nat (List.length cs)))%Q.
Proof.
  revert w. induction cs as [|c cs IH]; intros w.
  - simpl. ring.
  - cbn [fold_left List.length]. rewrite IH, Nat2Z.inj_succ.
    unfold Z.succ. rewrite inject_Z_plus. ring.
Qed.

Lemma control_count_length (cs : list ControlResult) :
  (control_count cs == inject_Z (Z.of_nat (List.length cs)))%Q.
Proof. unfold control_count. rewrite fold_count_Qeq. ring. Qed.

Lemma control_count_nonzero (cs : list ControlResult) :
  cs <> [] -> Qeq_bool (control_count cs) 0 = false.
Proof.
  intros Hne. destruct (Qeq_bool (control_count cs) 0) eqn:E; [|reflexivity].
  apply Qeq_bool_iff in E. rewrite control_count_length in E.
  destruct cs as [|c cs]; [congruence|].
  exfalso. unfold Qeq, inject_Z in E. simpl in E. lia.
Qed.

Lemma weight_of_bounds (c : ControlResult) : (0 <= weight_of c <= 1)%Q.
Proof.
  unfold weight_of.
  destruct (String.eqb (status c) "compliant"); [split; lra|].
  destruct (String.eqb (status c) "partial"); [split; lra|].
  destruct (String.eqb (status c) "pending_review"); split; lra.
Qed.

Lemma weight_fold_range (cs : list ControlResult) (w s : Q) :
  let W := fold_left (fun acc _ => (acc + 1)%Q) cs w in
  let S := fold_left (fun acc c => (acc + weight_of c)%Q) cs s in
  (s <= S /\ S <= s + (W - w))%Q.
Proof.
  revert w s. induction cs as [|c cs IH]; intros w s; cbn [fold_left].
  - cbv zeta. split; lra.
  - cbv zeta. pose proof (weight_of_bounds c) as Hc.
    specialize (IH (w + 1)%Q (s + weight_of c)%Q). cbv zeta in IH.
    split; lra.
Qed.

Lemma weight_sum_range (cs : list ControlResult) :
  (0 <= weight_sum cs /\ weight_sum cs <= control_count cs)%Q.
Proof.
  pose proof (weight_fold_range cs 0%Q 0%Q) as H. cbv zeta in H.
  fold (weight_sum cs) in H. fold (control_count cs) in H. split; lra.
Qed.

Lemma control_count_pos (cs : list ControlResult) :
  cs <> [] -> (0 < control_count cs)%Q.
Proof.
  intros Hne. rewrite control_count_length.
  destruct cs as [|c cs]; [congruence|].
  change 0%Q with (inject_Z 0). rewrite <- Zlt_Qlt. cbn [List.length]. lia.
Qed.

(** The score of an evaluation whose counted controls are [counted]. *)
Lemma score_of_counted (cs : list ControlResult) :
  Forall known_status cs -> applicable cs <> [] ->
  _calculate_compliance_score cs
  = PyFloat.round
      (PyFloat.mul
         (PyFloat.truediv (weight_sum (applicable cs))
            (control_count (applicable cs))) 100%Q) 2.
Proof.
  intros Hknown Happ. unfold _calculate_compliance_score.
  destruct cs as [|c cs]; [contradiction Happ; reflexivity|].
  rewrite (fold_accumulate (c :: cs) Hknown).
  fold (control_count (applicable (c :: cs))).
  fold (weight_sum (applicable (c :: cs))).
  now rewrite (control_count_nonzero _ Happ).
Qed.

Lemma evaluate_control_known db ctx s e now cat control :
  known_status (evaluate_control db ctx s e now cat control).
Proof. unfold known_status, evaluate_control. simpl. eexists. reflexivity. Qed.

Lemma _evaluate_controls_known db f ctx s e now :
  Forall known_status (_evaluate_controls db f ctx s e now).
Proof.
  unfold _evaluate_controls. apply List.Forall_forall. intros c Hc.
  apply in_flat_map in Hc. destruct Hc as [cat [_ Hc]].
  apply in_map_iff in Hc. destruct Hc as [control [<- _]].
  apply evaluate_control_known.
Qed.

End ComplianceFacts.

(** C9, as the code has it. The status of a control depends on its
    evidence count alone: at least 100 gives compliant, at least 10
    partial, more than 0 pending review, and 0 not applicable; a control
    with no mapped event type has count 0 and is not applicable, and
    every status an evaluation produces is one of the five status values.
    The score of an evaluation with no control at all is 0. The score of a
    non-empty evaluation in which every control is not applicable is 100;
    otherwise it is the percentage average of the weights (compliant 1,
    partial 1/2, pending review 1/4, non-compliant 0) of the controls that
    are not not-applicable, rounded to two decimals in floating point: it
    is the float nearest to a number of hundredths between 0 and 100, and
    it is off the exact percentage by at most 0.005 and the error of the
    floating-point operations, which is below one part in ten to the 13. *)
Theorem compliance_status_and_score :
    (forall control_id n,
       ((100 <= n)%Z ->
        Compliance._determine_control_status control_id n = Compliance.COMPLIANT)
       /\ ((10 <= n < 100)%Z ->
           Compliance._determine_control_status control_id n = Compliance.PARTIAL)
       /\ ((0 < n < 10)%Z ->
           Compliance._determine_control_status control_id n
           = Compliance.PENDING_REVIEW)
       /\ ((n <= 0)%Z ->
           Compliance._determine_control_status control_id n
           = Compliance.NOT_APPLICABLE))
    /\ (forall db ctx s e now cat control,
          let r := Compliance.evaluate_control db ctx s e now cat control in
          Compliance.status r
          = Compliance.ControlStatus_value
              (Compliance._determine_control_status
                 (Compliance.ctl_id control) (Compliance.evidence_count r))
          /\ (Compliance.event_types_of (Compliance.ctl_id control) = [] ->
              Compliance.evidence_count r = 0%Z
              /\ Compliance.status r = "not_applicable"))
    /\ (forall db framework ctx s e now,
          Forall Props.known_status
            (Compliance._evaluate_controls db framework ctx s e now))
    /\ Compliance._calculate_compliance_score [] = 0%Q
    /\ (forall cs,
          cs <> [] -> Forall Props.known_status cs ->
          (Props.applicable cs = [] ->
           Compliance._calculate_compliance_score cs = 100%Q)
          /\ (Props.applicable cs <> [] ->
              let total_score := Props.weight_sum (Props.applicable cs) in
              let total_weight := Props.control_count (Props.applicable cs) in
              let score := Compliance._calculate_compliance_score cs in
              score
              = PyFloat.round
                  (PyFloat.mul (PyFloat.truediv total_score total_weight)
                     100%Q) 2
              /\ (Qabs (score - total_score / total_weight * 100)
                  <= (1 # 200) + (1 # 10000000000000))%Q
              /\ (0 <= score <= 100)%Q
              /\ exists k : Z,
                   (0 <= k <= 10000)%Z
                   /\ score = PyFloat.nearest (inject_Z k / 100))).
Proof.
  split; [|split; [|split; [|split]]].
  - intros cid n. unfold Compliance._determine_control_status.
    repeat split; intros H.
    + destruct (Z.leb_spec 100 n); [reflexivity | lia].
    + destruct (Z.leb_spec 100 n); [lia|].
      destruct (Z.leb_spec 10 n); [reflexivity | lia].
    + destruct (Z.leb_spec 100 n); [lia|].
      destruct (Z.leb_spec 10 n); [lia|].
      destruct (Z.ltb_spec 0 n); [reflexivity | lia].
    + destruct (Z.leb_spec 100 n); [lia|].
      destruct (Z.leb_spec 10 n); [lia|].
      destruct (Z.ltb_spec 0 n); [lia | reflexivity].
  - intros db ctx s e now cat control r. subst r.
    unfold Compliance.evaluate_control. simpl. split; [reflexivity|].
    intros Hnone. rewrite Hnone. split; reflexivity.
  - intros db framework ctx s e now. apply _evaluate_controls_known.
  - reflexivity.
  - intros cs Hne Hknown. split.
    + intros Happ. unfold Compliance._calculate_compliance_score.
      destruct cs as [|c cs]; [congruence|].
      rewrite (fold_accumulate (c :: cs) Hknown), Happ. reflexivity.
    + intros Happ total_score total_weight score.
      subst total_score total_weight score.
      rewrite (score_of_counted cs Hknown Happ).
      pose proof (weight_sum_range (Props.applicable cs)) as [Hs0 Hs1].
      pose proof (control_count_pos (Props.applicable cs) Happ) as Hn.
      destruct (rounded_percentage _ _ Hs0 Hs1 Hn)
        as [H1 [H2 [H3 [H4 [_ H5]]]]].
      split; [reflexivity|]. split; [|split; [split; assumption|exact H5]].
      apply Qabs_Qle_condition. split; lra.
Qed.

(** C9 as stated fails on an evaluation with no control: every control of
    it is not applicable, and its score is 0, not 100. Such an evaluation
    is what a framework without a catalog yields. *)
Lemma empty_evaluation_scores_zero :
  Compliance._evaluate_controls [] Compliance.ISO27001
    (OrgIsolation.mkOrgContext None None false None) 0 0 0 = []
  /\ Forall (fun c => Compliance.status c = "not_applicable")
            (Compliance._evaluate_controls [] Compliance.ISO27001
               (OrgIsolation.mkOrgContext None None false None) 0 0 0)
  /\ Compliance._calculate_compliance_score
       (Compliance._evaluate_controls [] Compliance.ISO27001
          (OrgIsolation.mkOrgContext None None false None) 0 0 0) = 0%Q
  /\ ~ (0 == 100)%Q.
Proof.
  split; [reflexivity|]. split; [constructor|]. split; [reflexivity|].
  intros H. discriminate H.
Qed.

(** ** The audit ledger *)

Section AuditFacts.
Import Py Errors OrgIsolation Audit Props.
Local Open Scope Z_scope.

(** *** Ordering *)

Lemma In_insert_by le (x y : AuditLog) (l : list AuditLog) :
  In x (insert_by le y l) <-> x = y \/ In x l.
Proof.
  induction l as [|z l IH]; simpl.
  - intuition congruence.
  - destruct (le (ts y) (ts z)); simpl; [intuition congruence|].
    rewrite IH. intuition congruence.
Qed.

Lemma In_order_by le (x : AuditLog) (l : list AuditLog) :
  In x (order_by le l) <-> In x l.
Proof.
  induction l as [|y l IH]; simpl; [reflexivity|].
  rewrite In_insert_by, IH. intuition congruence.
Qed.

Lemma In_firstn_In {A : Type} (n : nat) (l : list A) (x : A) :
  In x (firstn n l) -> In x l.
Proof.
  revert l. induction n as [|n IH]; intros [|y l]; simpl; try tauto.
  intros [H|H]; [now left | right; now apply IH].
Qed.

Lemma fetch_logs_In db ctx limit (x : AuditLog) :
  In x (fetch_logs db ctx limit) -> In x db.
Proof.
  unfold fetch_logs. intros H. apply In_firstn_In in H.
  apply In_order_by in H.
  destruct (truthy (ctx_org_id ctx)); [|assumption].
  now apply List.filter_In in H.
Qed.

Lemma insert_by_asc_head (a : AuditLog) (l : list AuditLog) :
  List.Forall (fun y => ts a < ts y) l -> insert_by asc a l = a :: l.
Proof.
  intros H. destruct l as [|y l]; [reflexivity|]. simpl.
  inversion H; subst. unfold asc.
  destruct (Z.leb_spec (ts a) (ts y)); [reflexivity | lia].
Qed.

Lemma insert_by_desc_last (a : AuditLog) (l : list AuditLog) :
  List.Forall (fun y => ts a < ts y) l ->
  insert_by desc a l = (l ++ [a])%list.
Proof.
  induction 1 as [|y l Hy _ IH]; [reflexivity|]. simpl. unfold desc at 1.
  destruct (Z.leb_spec (ts y) (ts a)); [lia|]. now rewrite IH.
Qed.

Lemma order_by_asc_chronological (l : list AuditLog) :
  chronological l -> order_by asc l = l.
Proof.
  induction 1 as [|a l _ IH Ha]; [reflexivity|]. simpl.
  rewrite IH. apply insert_by_asc_head. exact Ha.
Qed.

Lemma order_by_desc_chronological (l : list AuditLog) :
  chronological l -> order_by desc l = reverse l.
Proof.
  induction 1 as [|a l _ IH Ha]; [reflexivity|]. simpl.
  rewrite IH, reverse_cons. apply insert_by_desc_last.
  apply List.Forall_forall. intros y Hy.
  rewrite List.Forall_forall in Ha. apply Ha.
  apply list_elem_of_In. apply list_elem_of_In in Hy.
  rewrite elem_of_reverse in Hy. exact Hy.
Qed.

Lemma chronological_filter (f : AuditLog -> bool) (l : list AuditLog) :
  chronological l -> chronological (List.filter f l).
Proof.
  induction 1 as [|a l _ IH Ha]; simpl; [constructor|].
  destruct (f a); [|assumption].
  constructor; [assumption|].
  apply List.Forall_forall. intros y Hy. apply List.filter_In in Hy.
  rewrite List.Forall_forall in Ha. now apply Ha.
Qed.

(** On a chronological table the latest row of a scope is its last. *)
Lemma _get_last_log_chronological (db : Table) (org : option string) :
  chronological db ->
  _get_last_log db org
  = last (if truthy org then List.filter (org_is org) db else db).
Proof.
  intros H. unfold _get_last_log.
  rewrite order_by_desc_chronological; [apply head_reverse|].
  destruct (truthy org); [now apply chronological_filter | assumption].
Qed.

Lemma org_is_Some (org : string) (l : AuditLog) :
  org_is (Some org) l = bool_decide (organization_id l = Some org).
Proof. apply col_eq_Some. Qed.

(** *** The verification loop *)

Lemma check_hash_entries (log : AuditLog) (b : BrokenLink) :
  In b (check_hash log) ->
  exists e a, b = hash_mismatch (reported_id log) e a.
Proof.
  unfold check_hash.
  destruct (truthy (current_hash log)
            && negb (opt_str_eqb (current_hash log)
                       (Some (_calculate_hash log)))); simpl.
  - intros [<- | []]. eexists. eexists. reflexivity.
  - intros [].
Qed.

Lemma check_link_entries (prev : option AuditLog) (log : AuditLog)
    (b : BrokenLink) :
  In b (check_link prev log) ->
  exists p a,
    prev = Some p
    /\ previous_hash log = Some a /\ a <> ""
    /\ previous_hash log <> current_hash p
    /\ b = chain_broken (reported_id log) (current_hash p) a.
Proof.
  unfold check_link. destruct prev as [p|]; [|intros []].
  destruct (truthy (previous_hash log)) eqn:Et; simpl; [|intros []].
  destruct (opt_str_eqb (previous_hash log) (current_hash p)) eqn:Ee;
    simpl; [intros []|].
  intros [<- | []].
  apply truthy_Some in Et. destruct Et as [a [Ha Hne]].
  exists p, a. repeat split; try assumption.
  - intros Heq. apply opt_str_eqb_eq in Heq. congruence.
  - unfold reported_id. now rewrite Ha.
Qed.

(** Every [chain_broken] entry comes from a record that has a
    predecessor in the sequence and a non-empty [previous_hash]
    different from the predecessor's [current_hash]. *)
Lemma check_logs_chain_broken (logs : list AuditLog) :
  forall prev i e a,
    In (chain_broken i e a) (check_logs prev logs) ->
    exists l1 p log l2,
      (match prev with Some p0 => p0 :: logs | None => logs end)
      = (l1 ++ p :: log :: l2)%list
      /\ In log logs
      /\ reported_id log = i
      /\ previous_hash log = Some a /\ a <> ""
      /\ e = current_hash p
      /\ previous_hash log <> current_hash p.
Proof.
  induction logs as [|log rest IH]; intros prev i e a Hin; [destruct Hin|].
  simpl in Hin. apply in_app_or in Hin. destruct Hin as [Hin | Hin].
  { apply check_hash_entries in Hin. destruct Hin as [? [? Hin]].
    discriminate. }
  apply in_app_or in Hin. destruct Hin as [Hin | Hin].
  - apply check_link_entries in Hin.
    destruct Hin as [p [a' [-> [Ha [Hne [Hdiff Hb]]]]]].
    inversion Hb; subst.
    exists [], p, log, rest. repeat split; try assumption. now left.
  - apply IH in Hin.
    destruct Hin as [l1 [p [log' [l2 [Heq [Hl [Hid [Ha [Hne [He Hd]]]]]]]]]].
    simpl in Heq.
    exists (match prev with Some p0 => p0 :: l1 | None => l1 end), p, log', l2.
    repeat split; try assumption.
    + destruct prev; simpl; now rewrite Heq.
    + now right.
Qed.

Lemma NoDup_reported_inj (db : Table) (x y : AuditLog) :
  List.NoDup (map reported_id db) -> In x db -> In y db ->
  reported_id x = reported_id y -> x = y.
Proof.
  induction db as [|z db IH]; intros Hnd Hx Hy Heq; [destruct Hx|].
  simpl in Hnd. apply List.NoDup_cons_iff in Hnd. destruct Hnd as [Hz Hnd].
  destruct Hx as [<- | Hx], Hy as [<- | Hy].
  - reflexivity.
  - exfalso. apply Hz. rewrite Heq. now apply in_map.
  - exfalso. apply Hz. rewrite <- Heq. now apply in_map.
  - now apply IH.
Qed.

(** *** Appends *)

(** What one successful append does: the object is built and hashed while
    its timestamp is still unset, linked to the latest row of its scope,
    and flushed with the id and the clock reading. *)
Lemma create_log_inv db new_id now c log db' :
  create_log db new_id now c = Ok (log, db') ->
  exists pre,
    build_log c = Ok pre
    /\ timestamp pre = None
    /\ current_hash log = Some (_calculate_hash pre)
    /\ timestamp log = Some now
    /\ id log = Some new_id
    /\ organization_id log
       = (if truthy (c_organization_id c) then c_organization_id c else None)
    /\ previous_hash log
       = match _get_last_log db (c_organization_id c) with
         | Some l => current_hash l
         | None => None
         end
    /\ db' = (db ++ [log])%list.
Proof.
  unfold create_log. destruct (build_log c) as [pre|e] eqn:Eb; [|discriminate].
  cbn [bind]. intros H. inversion H; subst; clear H.
  exists pre. unfold build_log in Eb.
  destruct (String.eqb (c_event_type c) ""); [discriminate|].
  inversion Eb; subst; clear Eb. cbn. repeat split.
Qed.

(** *** The hashed text before and after the flush *)

Lemma string_length_app (a b : string) :
  String.length (a +:+ b) = (String.length a + String.length b)%nat.
Proof. induction a as [|c a IH]; simpl; [reflexivity | now rewrite IH]. Qed.

Lemma escape_char_length (c : ascii) :
  (1 <= String.length (PyJson.escape_char c))%nat.
Proof.
  unfold PyJson.escape_char.
  repeat match goal with
         | |- context [if ?b then _ else _] => destruct b
         end;
    try rewrite !string_length_app; simpl; lia.
Qed.

Lemma escape_length (s : string) :
  (String.length s <= String.length (PyJson.escape s))%nat.
Proof.
  induction s as [|c s IH]; simpl; [lia|].
  rewrite string_length_app. pose proof (escape_char_length c). lia.
Qed.

Lemma isoformat_length (t : Datetime.datetime) :
  (1 <= String.length (Datetime.isoformat t))%nat.
Proof.
  unfold Datetime.isoformat.
  destruct (Datetime.civil_from_days (t `div` 86400000000)) as [[y m] d].
  rewrite string_length_app. cbn [Datetime.dec String.length]. lia.
Qed.

(** The serialized dictionary grows by the escaped timestamp text when
    only the timestamp entry changes from empty to that text. *)
Lemma dumps_sorted_timestamp_length (stamp et ai ti oi oc de : string) :
  String.length
    (PyJson.dumps_sorted
       [ ("timestamp", stamp); ("event_type", et); ("actor_id", ai);
         ("target_id", ti); ("organization_id", oi); ("outcome", oc);
         ("description", de) ])
  = (String.length
       (PyJson.dumps_sorted
          [ ("timestamp", ""); ("event_type", et); ("actor_id", ai);
            ("target_id", ti); ("organization_id", oi); ("outcome", oc);
            ("description", de) ])
     + String.length (PyJson.escape stamp))%nat.
Proof.
  assert (Hsorted : forall s,
            PyJson.sort_keys
              [ ("timestamp", s); ("event_type", et); ("actor_id", ai);
                ("target_id", ti); ("organization_id", oi); ("outcome", oc);
                ("description", de) ]
            = [ ("actor_id", ai); ("description", de); ("event_type", et);
                ("organization_id", oi); ("outcome", oc); ("target_id", ti);
                ("timestamp", s) ]) by reflexivity.
  unfold PyJson.dumps_sorted, PyJson.dumps_str. rewrite !Hsorted.
  cbn [map String.concat fst snd PyJson.escape].
  repeat rewrite string_length_app. cbn [String.length]. lia.
Qed.

(** For every append, the text hashed at verification is strictly longer
    than the text whose hash was stored. *)
Lemma stored_hash_is_of_shorter_text db new_id now c log db' :
  create_log db new_id now c = Ok (log, db') ->
  exists pre,
    build_log c = Ok pre
    /\ current_hash log = Some (Sha256.hexdigest (hash_content pre))
    /\ _calculate_hash log = Sha256.hexdigest (hash_content log)
    /\ (String.length (hash_content pre)
        < String.length (hash_content log))%nat.
Proof.
  intros Hc. unfold create_log in Hc.
  destruct (build_log c) as [pre|e] eqn:Eb; [|discriminate].
  cbn [bind] in Hc. inversion Hc; subst; clear Hc.
  exists pre. split; [reflexivity|]. split; [reflexivity|].
  split; [reflexivity|].
  assert (Hts : timestamp pre = None).
  { unfold build_log in Eb.
    destruct (String.eqb (c_event_type c) ""); [discriminate|].
    now inversion Eb. }
  unfold hash_content.
  cbn [timestamp event_type actor_id target_id organization_id outcome
       description apply_defaults set_hashes default from_option].
  rewrite Hts. cbn [default from_option id].
  rewrite (dumps_sorted_timestamp_length (Datetime.isoformat now)).
  pose proof (isoformat_length now).
  pose proof (escape_length (Datetime.isoformat now)).
  lia.
Qed.

Lemma chronological_snoc (db : Table) (log : AuditLog) :
  chronological db ->
  List.Forall (fun l => ts l < ts log) db ->
  chronological (db ++ [log])%list.
Proof.
  induction 1 as [|a l _ IH Ha]; intros Hlt; simpl.
  - repeat constructor.
  - inversion Hlt; subst. constructor; [now apply IH|].
    apply List.Forall_app. split; [assumption | now constructor].
Qed.

Lemma appended_chronological (db : Table) :
  appended db -> chronological db.
Proof.
  induction 1 as [|db db' new_id now c log _ IH Hlt Hc]; [constructor|].
  apply create_log_inv in Hc.
  destruct Hc as [pre [_ [_ [_ [Hts [_ [_ [_ ->]]]]]]]].
  apply chronological_snoc; [assumption|].
  unfold ts at 2. now rewrite Hts.
Qed.

Lemma linked_snoc (rows : list AuditLog) (x : AuditLog) :
  linked rows ->
  (forall p, last rows = Some p -> previous_hash x = current_hash p) ->
  linked (rows ++ [x])%list.
Proof.
  intros Hl Hx l1 p y l2 Heq.
  destruct l2 as [|z l2' _] using rev_ind.
  - change (l1 ++ p :: [y])%list with (l1 ++ [p] ++ [y])%list in Heq.
    rewrite app_assoc in Heq. apply app_inj_tail in Heq.
    destruct Heq as [-> <-]. apply Hx. apply last_snoc.
  - change (l1 ++ p :: y :: l2' ++ [z])%list
      with (l1 ++ (p :: y :: l2') ++ [z])%list in Heq.
    rewrite app_assoc in Heq. apply app_inj_tail in Heq.
    destruct Heq as [-> _]. now apply (Hl l1 p y l2').
Qed.

Lemma linked_firstn (n : nat) (rows : list AuditLog) :
  linked rows -> linked (firstn n rows).
Proof.
  intros Hl l1 p x l2 Heq. apply (Hl l1 p x (l2 ++ skipn n rows)%list).
  rewrite <- (firstn_skipn n rows) at 1. rewrite Heq.
  now rewrite <- !app_assoc.
Qed.

(** The rows of one tenant in an appended table are linked. *)
Lemma appended_linked (db : Table) (org : string) :
  appended db -> org <> "" ->
  linked (List.filter (org_is (Some org)) db).
Proof.
  intros Happ Hne.
  induction Happ as [|db db' new_id now c log Hdb IH Hlt Hc].
  - intros [|? ?] ? ? ? Heq; discriminate.
  - pose proof (appended_chronological db Hdb) as Hchrono.
    apply create_log_inv in Hc.
    destruct Hc as [pre [_ [_ [_ [_ [_ [Horg [Hprev ->]]]]]]]].
    rewrite List.filter_app. cbn [List.filter].
    destruct (org_is (Some org) log) eqn:Eo;
      [|now rewrite app_nil_r].
    apply linked_snoc; [assumption|].
    rewrite org_is_Some in Eo. apply bool_decide_eq_true in Eo.
    rewrite Horg in Eo.
    destruct (truthy (c_organization_id c)) eqn:Et; [|discriminate].
    rewrite Eo in Hprev, Et.
    rewrite (_get_last_log_chronological db _ Hchrono), Et in Hprev.
    intros p Hp. now rewrite Hprev, Hp.
Qed.

End AuditFacts.

(** C10. Verification of any table, in any scope and with any limit.
    Every [chain_broken] entry of the report belongs to a fetched record
    that has a predecessor in the fetched sequence and a [previous_hash]
    that is set, not empty, and different from that predecessor's
    [current_hash]. Hence, ids being unique, a stored record whose
    [previous_hash] is null has no [chain_broken] entry, wherever it
    stands: every entry that carries its id is a [hash_mismatch]. *)
Theorem null_previous_hash_never_chain_broken :
  forall (db : Audit.Table) (org_context : OrgIsolation.OrgContext)
         (limit : nat),
    let logs := Audit.fetch_logs db org_context limit in
    let report := Audit.verify_chain_integrity db org_context limit in
    (forall i e a,
       In (Audit.chain_broken i e a) (Audit.broken_links report) ->
       exists l1 p log l2,
         logs = (l1 ++ p :: log :: l2)%list
         /\ Props.reported_id log = i
         /\ Audit.previous_hash log = Some a /\ a <> ""
         /\ e = Audit.current_hash p
         /\ Audit.previous_hash log <> Audit.current_hash p)
    /\ (forall log,
          List.NoDup (map Props.reported_id db) ->
          In log db ->
          Audit.previous_hash log = None ->
          forall b,
            In b (Audit.broken_links report) ->
            Props.entry_id b = Props.reported_id log ->
            exists e a, b = Audit.hash_mismatch (Props.reported_id log) e a).
Proof.
  intros db ctx limit logs report. subst report. simpl. fold logs. split.
  - intros i e a Hin. apply check_logs_chain_broken in Hin.
    destruct Hin as [l1 [p [log [l2 [Heq [_ [Hid [Ha [Hne [He Hd]]]]]]]]]].
    exists l1, p, log, l2. repeat split; assumption.
  - intros log Hnd Hlog Hnull b Hb Hid.
    destruct b as [i e a | i e a]; simpl in Hid; subst i.
    + now exists e, a.
    + exfalso. apply check_logs_chain_broken in Hb.
      destruct Hb as [l1 [p [log' [l2 [_ [Hin [Hid' [Ha _]]]]]]]].
      assert (log' = log).
      { apply (NoDup_reported_inj db); try assumption.
        now apply (fetch_logs_In db ctx limit). }
      subst log'. congruence.
Qed.

(** The part of the chain that does hold. In a table produced by appends
    at increasing times, verification in the scope of one tenant never
    reports [chain_broken]: every entry of the report is a
    [hash_mismatch]. *)
Lemma tenant_scope_links_hold :
  forall (db : Audit.Table) (org : string) (org_name original : option string)
         (is_override : bool) (limit : nat) (b : Audit.BrokenLink),
    Props.appended db -> org <> "" ->
    In b (Audit.broken_links
            (Audit.verify_chain_integrity db
               (OrgIsolation.mkOrgContext (Some org) org_name is_override
                  original) limit)) ->
    exists i e a, b = Audit.hash_mismatch i e a.
Proof.
  intros db org org_name original is_override limit b Happ Hne Hb.
  destruct b as [i e a | i e a]; [eauto|]. exfalso.
  cbn [Audit.verify_chain_integrity Audit.broken_links] in Hb.
  apply check_logs_chain_broken in Hb.
  destruct Hb as [l1 [p [log [l2 [Heq [_ [_ [_ [_ [_ Hdiff]]]]]]]]]].
  unfold Audit.fetch_logs in Heq. cbn [OrgIsolation.ctx_org_id] in Heq.
  assert (Ht : Py.truthy (Some org) = true)
    by (apply truthy_Some; now exists org).
  rewrite Ht in Heq.
  rewrite order_by_asc_chronological in Heq
    by (apply chronological_filter; now apply appended_chronological).
  apply Hdiff.
  eapply (linked_firstn limit); [|exact Heq].
  now apply appended_linked.
Qed.

(** C2, as the code has it. On a table written at increasing times, an
    append with a non-empty event type succeeds and adds one row. If the
    event carries a (non-empty) organization id, the row's [previous_hash]
    is the [current_hash] of the last row of that organization, or null
    when there is none. If it carries none, the row's [previous_hash] is
    the [current_hash] of the last row of the whole table, whatever that
    row's organization. *)
Theorem create_log_previous_hash :
  forall (db : Audit.Table) (new_id : string) (now : Datetime.datetime)
         (c : Audit.LogCall),
    Props.chronological db ->
    Audit.c_event_type c <> "" ->
    exists log,
      Audit.create_log db new_id now c = Errors.Ok (log, (db ++ [log])%list)
      /\ (forall org,
            Audit.c_organization_id c = Some org -> org <> "" ->
            Audit.previous_hash log
            = Props.last_hash
                (List.filter
                   (fun l => bool_decide (Audit.organization_id l = Some org))
                   db))
      /\ (Py.truthy (Audit.c_organization_id c) = false ->
          Audit.previous_hash log = Props.last_hash db).
Proof.
  intros db new_id now c Hchrono Hev.
  unfold Audit.create_log, Audit.build_log.
  apply String.eqb_neq in Hev. rewrite Hev. cbn [Errors.bind].
  eexists. split; [reflexivity|]. cbn [Audit.previous_hash Audit.apply_defaults
                                       Audit.set_hashes].
  rewrite (_get_last_log_chronological db _ Hchrono).
  unfold Props.last_hash. split.
  - intros org Horg Hne.
    assert (Ht : Py.truthy (Audit.c_organization_id c) = true)
      by (apply truthy_Some; now exists org).
    rewrite Ht, Horg.
    rewrite (List.filter_ext _ _ (org_is_Some org)). reflexivity.
  - intros Ht. rewrite Ht. reflexivity.
Qed.

(** C2 as stated fails for an event without organization: after a system
    event and a tenant event, the next system event is chained to the
    tenant's row, not to the earlier system row. *)
Lemma system_event_chains_to_tenant_row :
  exists log db',
    Audit.create_log Samples.system_then_tenant "id-3"
      (Samples.t0 + 2 * Samples.second)%Z (Samples.event "system.error" None)
    = Errors.Ok (log, db')
    /\ Audit.previous_hash log
       = Some "ff19d998561f703cc778c4d038bb72178551282ef3768f5987603c49f0296adf"
    /\ Props.last_hash
         (List.filter (fun l => bool_decide (Audit.organization_id l = None))
            Samples.system_then_tenant)
       = Some "db969e35669593aa20f288aef8fea0b95ebf24cb26be6f32235639cfc2c03dc6"
    /\ Props.last_hash
         (List.filter
            (fun l => bool_decide (Audit.organization_id l = Some "org-a"))
            Samples.system_then_tenant)
       = Some "ff19d998561f703cc778c4d038bb72178551282ef3768f5987603c49f0296adf".
Proof.
  eexists. eexists. split; [vm_compute; reflexivity|].
  vm_compute. repeat split.
Qed.

(** C1 fails on the code. One event appended to an empty table and left
    untouched: the stored hash was computed before the flush gave the row
    its timestamp, the verification recomputes it with the timestamp, and
    the report is invalid with a [hash_mismatch] for the row. *)
Theorem verify_rejects_untouched_append :
  exists log,
    Audit.create_log [] "id-1" Samples.t0 (Samples.event "system.startup" None)
    = Errors.Ok (log, Samples.one_event)
    /\ Audit.timestamp log = Some Samples.t0
    /\ Audit.current_hash log
       = Some "db969e35669593aa20f288aef8fea0b95ebf24cb26be6f32235639cfc2c03dc6"
    /\ Audit._calculate_hash log
       = "934cbec8e47d026466fefbd0f70d99e8588ac4f4ea144d66e7794916bfa05654"
    /\ Audit.verify_chain_integrity Samples.one_event Samples.no_org 1000
       = {| Audit.verified_count := 1;
            Audit.is_valid := false;
            Audit.broken_links :=
              [ Audit.hash_mismatch "id-1"
                  "934cbec8e47d026466fefbd0f70d99e8588ac4f4ea144d66e7794916bfa05654"
                  "db969e35669593aa20f288aef8fea0b95ebf24cb26be6f32235639cfc2c03dc6" ] |}.
Proof.
  eexists. split; [vm_compute; reflexivity|].
  vm_compute. repeat split.
Qed.

(** A second way an untouched table fails verification: in the scope
    without organization the rows of all tenants are fetched, and a
    tenant's row that follows a system row is chained to the tenant's
    previous row, not to its predecessor in that sequence. *)
Lemma verify_global_scope_reports_chain_broken :
  In (Audit.chain_broken "id-3"
        (Some "db969e35669593aa20f288aef8fea0b95ebf24cb26be6f32235639cfc2c03dc6")
        "ff19d998561f703cc778c4d038bb72178551282ef3768f5987603c49f0296adf")
     (Audit.broken_links
        (Audit.verify_chain_integrity Samples.interleaved Samples.no_org 1000)).
Proof. vm_compute. tauto. Qed.

(** ** The theorems at sample inputs *)

(** C3 at a member and at a system admin, with and without a header. *)
Lemma get_org_context_witness :
  (exists detail,
     OrgIsolation.get_org_context Samples.member (Some "org-42")
     = Errors.Raise (Errors.HTTPException 403 detail))
  /\ OrgIsolation.get_org_context Samples.admin (Some "org-42")
     = Errors.Ok (OrgIsolation.mkOrgContext (Some "org-42") None true
                    (Some "org-1"))
  /\ OrgIsolation.get_org_context Samples.member None
     = Errors.Ok (OrgIsolation.mkOrgContext (Some "org-1") None false None).
Proof.
  destruct (get_org_context_cases Samples.member (Some "org-42")) as [H1 _].
  destruct (get_org_context_cases Samples.admin (Some "org-42")) as [_ [H2 _]].
  destruct (get_org_context_cases Samples.member None) as [_ [_ H3]].
  split; [|split].
  - apply H1; reflexivity.
  - apply (H2 "org-42"); [reflexivity | discriminate | reflexivity].
  - apply H3; reflexivity.
Defined.

(** C4 at a member of org-1: only the rows of org-1 come back. *)
Lemma scope_select_witness :
  OrgIsolation.execute
    (OrgIsolation.scope_select
       (OrgIsolation.build_org_scoped_query (Samples.in_org "org-1")
          Samples.member)
       [] Samples.org_model false)
    Samples.org_rows
  = [ Some "org-1"; Some "org-1" ].
Proof.
  pose proof (scope_select_filters (option string)
                (OrgIsolation.build_org_scoped_query (Samples.in_org "org-1")
                   Samples.member)
                [] (fun r => r) false Samples.org_rows) as H.
  cbv zeta in H. destruct H as [_ [H _]].
  unfold Samples.org_model.
  rewrite (H "org-1"); [reflexivity | reflexivity | reflexivity | discriminate].
Defined.

(** C5 at a system admin without permissions and at a member. *)
Lemma require_permissions_witness :
  Permissions.require_permissions ["read:users"] Samples.admin
  = Errors.Ok Samples.admin
  /\ exists missing,
       Permissions.require_permissions ["read:teams"; "write:teams"]
         Samples.member
       = Errors.Raise
           (Errors.HTTPException 403
              ("Missing required permissions: " +:+ Py.join ", " missing))
       /\ In "write:teams" missing.
Proof.
  destruct (require_permissions_bypass_and_denial ["read:users"] Samples.admin)
    as [H1 _].
  destruct (require_permissions_bypass_and_denial
              ["read:teams"; "write:teams"] Samples.member) as [_ H2].
  split.
  - apply H1. left. simpl. now left.
  - destruct (H2 ltac:(simpl; intuition discriminate) "write:teams"
                 ltac:(simpl; tauto) ltac:(simpl; intuition discriminate))
      as [missing [Hr [Hin _]]].
    exists missing. now split.
Defined.

(** C6 at a token whose header says [none], with a decoder that would
    accept it. *)
Lemma validate_token_witness :
  Auth.validated
    (Auth.validate_token unit Samples.header_alg_none Samples.construct_any
       Samples.decode_accepts (Some Samples.warm_cache)
       (Samples.provider_down 200) Samples.token_alg_none Samples.settings)
  = Errors.Raise (Errors.AttributeError "AUTH_TOKEN_INVALID").
Proof.
  apply (validate_token_wrong_algorithm unit Samples.header_alg_none
           Samples.construct_any Samples.decode_accepts
           (Some Samples.warm_cache) (Samples.provider_down 200)
           Samples.token_alg_none Samples.settings).
  right. eexists. split; [reflexivity | discriminate].
Defined.

(** C8 at a warm cache: a hit within the TTL, and a miss while the
    provider is down. *)
Lemma get_signing_key_witness :
  (Auth.fetches (Auth.get_signing_key Samples.warm_cache
                   (Samples.provider_down 200) "k1") = 0%nat
   /\ Auth.returned (Auth.get_signing_key Samples.warm_cache
                       (Samples.provider_down 200) "k1")
      = Errors.Ok (Some Samples.key1)
   /\ Auth.client_after (Auth.get_signing_key Samples.warm_cache
                           (Samples.provider_down 200) "k1")
      = Samples.warm_cache)
  /\ Auth.client_after (Auth.get_signing_key Samples.warm_cache
                          (Samples.provider_down 200) "k2")
     = Samples.warm_cache.
Proof.
  pose proof (get_signing_key_cache_policy Samples.warm_cache
                (Samples.provider_down 200) "k1") as H1.
  pose proof (get_signing_key_cache_policy Samples.warm_cache
                (Samples.provider_down 200) "k2") as H2.
  cbv zeta in H1, H2.
  destruct H1 as [_ [_ [H1 _]]]. destruct H2 as [_ [_ [_ [H2 _]]]].
  split.
  - apply H1; [vm_compute; discriminate | reflexivity].
  - apply (H2 "connect timeout"); reflexivity.
Defined.

(** C9 at an evaluation of not-applicable controls and at two mixed
    ones: one compliant and one partial control score 75; a compliant, a
    partial and a pending one score the float nearest to 58.33. *)
Lemma compliance_score_witness :
  Compliance._calculate_compliance_score
    [ Samples.control "not_applicable" 0; Samples.control "not_applicable" 0 ]
  = 100%Q
  /\ Compliance._calculate_compliance_score
       [ Samples.control "compliant" 100; Samples.control "not_applicable" 0;
         Samples.control "partial" 10 ]
     = 75%Q
  /\ Compliance._calculate_compliance_score
       [ Samples.control "compliant" 100; Samples.control "partial" 10;
         Samples.control "pending_review" 1 ]
     = PyFloat.nearest (5833 # 100)
  /\ Compliance._determine_control_status "CC6.1" 99 = Compliance.PARTIAL.
Proof.
  destruct compliance_status_and_score as [Hs [_ [_ [_ Hscore]]]].
  split; [|split; [|split]].
  - apply Hscore; [discriminate | | reflexivity].
    repeat constructor; now exists Compliance.NOT_APPLICABLE.
  - destruct (Hscore [ Samples.control "compliant" 100;
                       Samples.control "not_applicable" 0;
                       Samples.control "partial" 10 ]) as [_ H];
      [discriminate | |].
    + repeat constructor;
        [ now exists Compliance.COMPLIANT
        | now exists Compliance.NOT_APPLICABLE
        | now exists Compliance.PARTIAL ].
    + destruct H as [H _]; [discriminate|]. rewrite H. vm_compute.
      reflexivity.
  - destruct (Hscore [ Samples.control "compliant" 100;
                       Samples.control "partial" 10;
                       Samples.control "pending_review" 1 ]) as [_ H];
      [discriminate | |].
    + repeat constructor;
        [ now exists Compliance.COMPLIANT
        | now exists Compliance.PARTIAL
        | now exists Compliance.PENDING_REVIEW ].
    + destruct H as [H _]; [discriminate|]. rewrite H. vm_compute.
      reflexivity.
  - apply Hs. lia.
Defined.

(** C10 at a record that is not the first of the fetched sequence: the
    tenant's row of a table that begins with a system row has a null
    [previous_hash], stands second in the scope without organization,
    and the one entry of the report that carries its id is a
    [hash_mismatch]. *)
Lemma null_previous_hash_witness :
  Audit.fetch_logs Samples.system_then_tenant Samples.no_org 1000
  = [Samples.first_row; Cases.tenant_row]
  /\ Audit.previous_hash Cases.tenant_row = None
  /\ exists e a,
       List.nth 1
         (Audit.broken_links
            (Audit.verify_chain_integrity Samples.system_then_tenant
               Samples.no_org 1000))
         (Audit.chain_broken "" None "")
       = Audit.hash_mismatch (Props.reported_id Cases.tenant_row) e a.
Proof.
  split; [vm_compute; reflexivity|]. split; [vm_compute; reflexivity|].
  pose proof (null_previous_hash_never_chain_broken
                Samples.system_then_tenant Samples.no_org 1000) as H.
  cbv zeta in H. destruct H as [_ H].
  apply (H Cases.tenant_row).
  - vm_compute. repeat constructor; intros H0; simpl in H0;
      intuition discriminate.
  - vm_compute. right. now left.
  - vm_compute. reflexivity.
  - vm_compute. right. now left.
  - vm_compute. reflexivity.
Defined.

(** C2 at a second event of a tenant, after a system event and a first
    event of the tenant. *)
Lemma create_log_previous_hash_witness :
  exists log,
    Audit.create_log Samples.system_then_tenant "id-3"
      (Samples.t0 + 2 * Samples.second)%Z
      (Samples.event "user.updated" (Some "org-a"))
    = Errors.Ok (log, (Samples.system_then_tenant ++ [log])%list)
    /\ Audit.previous_hash log
       = Some "ff19d998561f703cc778c4d038bb72178551282ef3768f5987603c49f0296adf".
Proof.
  destruct (create_log_previous_hash Samples.system_then_tenant "id-3"
              (Samples.t0 + 2 * Samples.second)%Z
              (Samples.event "user.updated" (Some "org-a")))
    as [log [Hc [Horg _]]].
  - unfold Props.chronological. vm_compute. repeat constructor.
  - discriminate.
  - exists log. split; [exact Hc|].
    rewrite (Horg "org-a"); [vm_compute; reflexivity | reflexivity | discriminate].
Defined.

(* ===================================================================== *)
(** * Further properties of the code *)
(* ===================================================================== *)

(** ** Organization guards *)

Section OrgGuardFacts.
Import Py Errors Auth OrgIsolation OrgGuards Terms.

Lemma col_eq_opt {R : Type} (col : R -> option string) (v : option string)
    (r : R) :
  truthy v = true -> col_eq col v r = opt_str_eqb (col r) v.
Proof.
  intros Hv. apply truthy_Some in Hv. destruct Hv as [s [-> _]].
  unfold col_eq. now destruct (col r).
Qed.

(** The rows a scoped statement returns are the rows of the statement
    that are within the scope. *)
Lemma In_scope_select {R : Type} (q : OrgScopedQuery) (stmt : Select R)
    (col : R -> option string) (allow : bool) (rows : list R) (r : R) :
  In r (execute (scope_select q stmt (mkModel R (Some col)) allow) rows)
  <-> In r (execute stmt rows) /\ in_scope q allow (col r) = true.
Proof.
  unfold scope_select, in_scope. cbn [organization_id_attr].
  destruct (is_system_admin (user q) && is_override (org_context q));
    destruct (truthy (ctx_org_id (org_context q))) eqn:Et; cbn [negb];
    try destruct allow; try rewrite execute_where; try rewrite List.filter_In;
    unfold col_or; try rewrite (col_eq_opt col _ r Et);
    try rewrite col_is_null_None; cbn [andb orb];
    try rewrite orb_false_r; intuition.
Qed.

Lemma in_scope_cases (q : OrgScopedQuery) (allow : bool) (org : option string) :
  in_scope q allow org = true ->
  (is_system_admin (user q) && is_override (org_context q) = true
   /\ truthy (ctx_org_id (org_context q)) = false)
  \/ (org = None
      /\ (allow = true \/ truthy (ctx_org_id (org_context q)) = false))
  \/ (org = ctx_org_id (org_context q)
      /\ truthy (ctx_org_id (org_context q)) = true).
Proof.
  unfold in_scope.
  destruct (is_system_admin (user q) && is_override (org_context q));
    destruct (truthy (ctx_org_id (org_context q))) eqn:Et; intros H;
    try (left; split; reflexivity);
    try (apply orb_true_iff in H; destruct H as [H | H];
         [ apply opt_str_eqb_eq in H; right; right; now split
         | apply andb_true_iff in H; destruct H as [-> H];
           apply bool_decide_eq_true in H; right; left; split;
           [assumption | now left] ]);
    try (apply bool_decide_eq_true in H; right; left; split;
         [assumption | now right]).
Qed.

End OrgGuardFacts.

(** X1. With a context resolved by [get_org_context], a scoped statement
    on a model with an organization column is never left unrestricted:
    every row it returns is a row of the statement whose organization is
    the context's or null, null rows appear only on request or for a
    context without organization, and a principal who is not a system
    admin only ever gets rows of its own organization or null ones. *)
Theorem resolved_scope_restricts :
  forall (R : Type) (user : Auth.CurrentUser) (header : option string)
         (ctx : OrgIsolation.OrgContext) (stmt : OrgIsolation.Select R)
         (col : R -> option string) (allow_null_org : bool) (rows : list R)
         (r : R),
    OrgIsolation.get_org_context user header = Errors.Ok ctx ->
    In r (OrgIsolation.execute
            (OrgIsolation.scope_select
               (OrgIsolation.build_org_scoped_query ctx user) stmt
               (OrgIsolation.mkModel R (Some col)) allow_null_org) rows) ->
    In r (OrgIsolation.execute stmt rows)
    /\ (col r = None \/ col r = OrgIsolation.ctx_org_id ctx)
    /\ (col r = None ->
        allow_null_org = true
        \/ Py.truthy (OrgIsolation.ctx_org_id ctx) = false)
    /\ (Auth.is_system_admin user = false ->
        col r = None \/ col r = Auth.org_id user).
Proof.
  intros R user header ctx stmt col allow rows r Hctx Hin.
  apply In_scope_select in Hin. destruct Hin as [Hstmt Hscope].
  split; [assumption|].
  apply in_scope_cases in Hscope.
  cbn [OrgIsolation.build_org_scoped_query OrgIsolation.org_context
       OrgIsolation.user] in Hscope.
  unfold OrgIsolation.get_org_context in Hctx.
  destruct (Py.truthy header) eqn:Eh.
  - destruct (Auth.is_system_admin user) eqn:Ea; [|discriminate].
    inversion Hctx; subst ctx; clear Hctx.
    cbn [OrgIsolation.ctx_org_id OrgIsolation.is_override] in *.
    rewrite Eh in Hscope.
    destruct Hscope as [[_ Hf] | [[Hn Ha] | [Ho _]]]; [discriminate| |].
    + repeat split; try (now left); try discriminate.
      intros _. destruct Ha as [Ha | Ha]; [now left | discriminate].
    + repeat split; try (now right); try discriminate.
      intros Hn. rewrite Hn in Ho. rewrite <- Ho in Eh. discriminate.
  - inversion Hctx; subst ctx; clear Hctx.
    cbn [OrgIsolation.ctx_org_id OrgIsolation.is_override] in *.
    rewrite andb_false_r in Hscope.
    destruct Hscope as [[Hf _] | [[Hn Ha] | [Ho Ht]]]; [discriminate| |].
    + repeat split; try (now left). intros _. exact Ha.
    + repeat split; try (now right).
      intros Hn. rewrite Hn in Ho. rewrite <- Ho in Ht. discriminate.
Qed.


(** X3. [validate_insert_data] keeps a principal without override inside
    its tenant: when it returns, a non-empty organization in the data has
    the text of the context's organization, every other key is as it was
    given, with [require_org] the key is there, and the returned data
    passes the same validation again unchanged. *)
Theorem validate_insert_data_keeps_tenant :
  forall (self : OrgIsolation.OrgScopedQuery)
         (data data' : gmap string (option string)) (require_org : bool),
    Auth.is_system_admin (OrgIsolation.user self)
      && OrgIsolation.is_override (OrgIsolation.org_context self) = false ->
    OrgGuards.validate_insert_data self data require_org = Errors.Ok data' ->
    (forall v, data' !! "organization_id" = Some v -> Py.truthy v = true ->
               Py.str_opt v
               = Py.str_opt (OrgIsolation.ctx_org_id (OrgIsolation.org_context self)))
    /\ (forall k, k <> "organization_id" -> data' !! k = data !! k)
    /\ (require_org = true -> is_Some (data' !! "organization_id"))
    /\ OrgGuards.validate_insert_data self data' require_org = Errors.Ok data'.
Proof.
  intros self data data' require_org Hadm H.
  unfold OrgGuards.validate_insert_data in *. rewrite Hadm in *.
  destruct (data !! "organization_id") as [v0|] eqn:Ek.
  - rewrite bool_decide_eq_true_2 in H by eauto.
    cbn [negb] in H. rewrite andb_true_r, andb_false_r in H.
    destruct (Py.truthy v0) eqn:Et; cbn [andb] in H.
    + destruct (negb (Py.str_opt v0 =? _)%string) eqn:Eq; [discriminate|].
      inversion H; subst data'; clear H.
      rewrite Ek, Et, Eq. cbn [andb negb].
      rewrite bool_decide_eq_true_2 by eauto. cbn [negb].
      rewrite andb_false_r.
      repeat split; eauto.
      intros v Hv _. inversion Hv; subst v.
      apply negb_false_iff, String.eqb_eq in Eq. exact Eq.
    + inversion H; subst data'; clear H.
      rewrite Ek, Et. cbn [andb negb].
      rewrite bool_decide_eq_true_2 by eauto. cbn [negb].
      rewrite andb_false_r.
      repeat split; eauto.
      intros v Hv Htv. inversion Hv; subst v. congruence.
  - rewrite bool_decide_eq_false_2 in H by (intros [x Hx]; discriminate).
    cbn [negb] in H. rewrite andb_true_r in H.
    destruct require_org.
    + destruct (Py.truthy (OrgIsolation.ctx_org_id (OrgIsolation.org_context self)))
        eqn:Et; cbn [negb] in H; [|discriminate].
      inversion H; subst data'; clear H.
      rewrite lookup_insert_eq, Et, String.eqb_refl. cbn [andb negb].
      rewrite bool_decide_eq_true_2 by eauto. cbn [negb].
      repeat split; eauto.
      * intros v Hv _. now inversion Hv.
      * intros k Hk. now rewrite lookup_insert_ne.
    + inversion H; subst data'; clear H. rewrite Ek.
      rewrite bool_decide_eq_false_2 by (intros [x Hx]; discriminate).
      repeat split; discriminate.
Qed.

Lemma validate_insert_data_keeps_tenant_witness :
  OrgGuards.validate_insert_data
    (OrgIsolation.build_org_scoped_query (Samples.in_org "org-1") Samples.member)
    (<[ "organization_id" := Some "org-1" ]> {[ "name" := Some "team" ]}) true
  = Errors.Ok (<[ "organization_id" := Some "org-1" ]> {[ "name" := Some "team" ]}).
Proof.
  apply (validate_insert_data_keeps_tenant
           (OrgIsolation.build_org_scoped_query (Samples.in_org "org-1")
              Samples.member)
           {[ "name" := Some "team" ]} _ true); reflexivity.
Defined.

Lemma resolved_scope_restricts_witness :
  In (Some "org-1") (OrgIsolation.execute [] Samples.org_rows)
  /\ (Some "org-1" = None \/ Some "org-1" = Some "org-1").
Proof.
  destruct (resolved_scope_restricts (option string) Samples.member None
              (OrgIsolation.mkOrgContext (Some "org-1") None false None)
              [] (fun r => r) false Samples.org_rows (Some "org-1"))
    as [H1 [H2 _]].
  - reflexivity.
  - vm_compute. left. reflexivity.
  - split; assumption.
Defined.


(** X4. A context that [enforce_org_isolation] lets through has an
    organization id, and [validate_org_id] returns that id for it, with
    one exception: a principal whose token carries an empty organization
    id, sending no override, passes [enforce_org_isolation] and is then
    refused by [validate_org_id] with status 400. *)
Theorem enforce_then_validate_org_id :
  forall (user : Auth.CurrentUser) (header : option string)
         (ctx : OrgIsolation.OrgContext),
    OrgIsolation.enforce_org_isolation user header = Errors.Ok ctx ->
    (exists s, s <> "" /\ OrgIsolation.ctx_org_id ctx = Some s
               /\ OrgIsolation.validate_org_id ctx = Errors.Ok s)
    \/ (Auth.org_id user = Some "" /\ Py.truthy header = false
        /\ OrgIsolation.validate_org_id ctx
           = Errors.Raise (Errors.HTTPException Errors.HTTP_400_BAD_REQUEST
                             "Organization context required")).
Proof.
  intros user header ctx H.
  unfold OrgIsolation.enforce_org_isolation, OrgIsolation.get_org_context in H.
  destruct (Py.truthy header) eqn:Eh.
  - destruct (Auth.is_system_admin user); [|discriminate].
    cbn [negb Errors.bind] in H.
    unfold OrgIsolation.has_org in H. cbn [OrgIsolation.ctx_org_id] in H.
    apply truthy_Some in Eh. destruct Eh as [s [Hs Hne]]. subst header.
    cbn [negb] in H. inversion H; subst ctx; clear H.
    left. exists s. split; [assumption|]. split; [reflexivity|].
    unfold OrgIsolation.validate_org_id. cbn [OrgIsolation.ctx_org_id].
    destruct s; [contradiction|reflexivity].
  - cbn [Errors.bind] in H.
    unfold OrgIsolation.has_org in H. cbn [OrgIsolation.ctx_org_id] in H.
    destruct (Auth.org_id user) as [s|] eqn:Eo; [|discriminate].
    cbn [negb] in H. inversion H; subst ctx; clear H.
    unfold OrgIsolation.validate_org_id. cbn [OrgIsolation.ctx_org_id].
    destruct s as [|a s].
    + right. repeat split; reflexivity.
    + left. exists (String a s). split; [discriminate | split; reflexivity].
Qed.

Lemma enforce_then_validate_org_id_witness :
  exists ctx,
    OrgIsolation.enforce_org_isolation Cases.blank_org_member None
      = Errors.Ok ctx
    /\ OrgIsolation.validate_org_id ctx
       = Errors.Raise (Errors.HTTPException Errors.HTTP_400_BAD_REQUEST
                         "Organization context required").
Proof.
  exists (OrgIsolation.mkOrgContext (Some "") None false None).
  split; [reflexivity|].
  destruct (enforce_then_validate_org_id Cases.blank_org_member None
              (OrgIsolation.mkOrgContext (Some "") None false None)
              eq_refl) as [[s [Hs [He _]]] | [_ [_ H]]].
  - exfalso. apply Hs. now inversion He.
  - exact H.
Defined.

(** X5. The filter dictionary of [get_org_filter], used with
    [filter_by], selects the same rows as [scope_select] without null
    rows, unless the context's organization id is the empty string; with
    the empty string and no override the dictionary selects the rows
    whose organization is the empty string, while [scope_select] selects
    the rows with no organization. *)
Theorem get_org_filter_agrees_with_scope_select :
  forall (R : Type) (q : OrgIsolation.OrgScopedQuery)
         (stmt : OrgIsolation.Select R) (col : R -> option string)
         (rows : list R),
    let model := OrgIsolation.mkModel R (Some col) in
    let by_filter :=
      OrgIsolation.execute
        (OrgIsolation.where_ stmt
           (OrgGuards.filter_by col (OrgGuards.get_org_filter q model))) rows in
    let by_scope :=
      OrgIsolation.execute (OrgIsolation.scope_select q stmt model false) rows in
    (OrgIsolation.ctx_org_id (OrgIsolation.org_context q) <> Some "" ->
     by_filter = by_scope)
    /\ (OrgIsolation.ctx_org_id (OrgIsolation.org_context q) = Some "" ->
        Auth.is_system_admin (OrgIsolation.user q)
          && OrgIsolation.is_override (OrgIsolation.org_context q) = false ->
        by_filter
        = OrgIsolation.execute
            (OrgIsolation.where_ stmt (OrgIsolation.col_eq col (Some ""))) rows
        /\ by_scope
           = OrgIsolation.execute
               (OrgIsolation.where_ stmt (OrgIsolation.col_is_null col)) rows).
Proof.
  intros R q stmt col rows model by_filter by_scope.
  subst model by_filter by_scope.
  unfold OrgGuards.get_org_filter, OrgIsolation.scope_select,
    OrgGuards.filter_by.
  cbn [OrgIsolation.organization_id_attr].
  split.
  - intros Hne.
    destruct (Auth.is_system_admin (OrgIsolation.user q)
              && OrgIsolation.is_override (OrgIsolation.org_context q)).
    + destruct (Py.truthy _) eqn:Et.
      * apply truthy_Some in Et. destruct Et as [s [Hs _]]. rewrite Hs.
        now rewrite lookup_singleton_eq.
      * rewrite lookup_empty. unfold OrgIsolation.where_, OrgIsolation.execute.
        apply List.filter_ext. intros r. rewrite forallb_app. cbn.
        now rewrite !andb_true_r.
    + rewrite lookup_singleton_eq.
      destruct (OrgIsolation.ctx_org_id (OrgIsolation.org_context q))
        as [s|] eqn:Eo.
      * destruct s; [contradiction|reflexivity].
      * reflexivity.
  - intros He Hadm. rewrite Hadm, He. rewrite lookup_singleton_eq.
    split; reflexivity.
Qed.

Lemma get_org_filter_agrees_with_scope_select_witness :
  OrgIsolation.execute
    (OrgIsolation.where_ []
       (OrgGuards.filter_by (fun r => r)
          (OrgGuards.get_org_filter
             (OrgIsolation.build_org_scoped_query (Samples.in_org "org-1")
                Samples.member)
             Samples.org_model))) Samples.org_rows
  = OrgIsolation.execute
      (OrgIsolation.scope_select
         (OrgIsolation.build_org_scoped_query (Samples.in_org "org-1")
            Samples.member)
         [] Samples.org_model false) Samples.org_rows.
Proof.
  apply (get_org_filter_agrees_with_scope_select (option string)
           (OrgIsolation.build_org_scoped_query (Samples.in_org "org-1")
              Samples.member)
           [] (fun r => r) Samples.org_rows).
  discriminate.
Defined.

(** ** Roles, permissions and policies *)

Section RbacFacts.
Import Py Errors Auth Permissions Rbac.

Lemma has_any_permission_In (u : CurrentUser) (ps : list string) :
  has_any_permission u ps = true
  <-> exists p, In p ps /\ In p (permissions u).
Proof.
  unfold has_any_permission. rewrite existsb_exists.
  split; intros [p [H1 H2]]; exists p; split; try assumption;
    now apply contains_In.
Qed.

Lemma has_all_permissions_In (u : CurrentUser) (ps : list string) :
  has_all_permissions u ps = true
  <-> forall p, In p ps -> In p (permissions u).
Proof.
  unfold has_all_permissions. rewrite forallb_forall.
  split; intros H p Hp; apply contains_In, H, Hp.
Qed.

Lemma missing_roles_In (required : list string) (u : CurrentUser) (r : string) :
  In r (missing_roles required u) <-> In r required /\ ~ In r (roles u).
Proof.
  unfold missing_roles, has_role.
  rewrite List.filter_In, negb_true_iff, contains_not_In. reflexivity.
Qed.

Lemma is_system_admin_mono (u u' : CurrentUser) :
  (forall r, In r (roles u) -> In r (roles u')) ->
  is_system_admin u = true -> is_system_admin u' = true.
Proof.
  intros Hsub. rewrite !is_system_admin_roles.
  intros [H | H]; [left | right]; now apply Hsub.
Qed.

Lemma forallb_map_id {A : Type} (f : A -> bool) (l : list A) :
  forallb (fun b => b) (map f l) = forallb f l.
Proof. induction l as [|x l IH]; cbn; [reflexivity | now rewrite IH]. Qed.

Lemma existsb_map_id {A : Type} (f : A -> bool) (l : list A) :
  existsb (fun b => b) (map f l) = existsb f l.
Proof. induction l as [|x l IH]; cbn; [reflexivity | now rewrite IH]. Qed.

End RbacFacts.

(** X6. [require_any_permission] lets a principal through exactly when it
    is a system admin or holds one of the listed permissions; otherwise it
    raises 403 naming the whole list. With an empty list it refuses every
    principal who is not a system admin, whereas [require_permissions]
    with an empty list lets everyone through; with a non-empty list,
    whoever passes [require_permissions] passes
    [require_any_permission]. *)
Theorem require_any_permission_cases :
  forall (ps : list string) (u : Auth.CurrentUser),
    (Rbac.require_any_permission ps u = Errors.Ok u
     <-> Auth.is_system_admin u = true
         \/ exists p, In p ps /\ In p (Auth.permissions u))
    /\ (Rbac.require_any_permission ps u <> Errors.Ok u ->
        Rbac.require_any_permission ps u
        = Errors.Raise (Errors.HTTPException Errors.HTTP_403_FORBIDDEN
                          ("Requires one of: " +:+ Py.join ", " ps)))
    /\ (Auth.is_system_admin u = false ->
        Rbac.require_any_permission [] u
        = Errors.Raise (Errors.HTTPException Errors.HTTP_403_FORBIDDEN
                          "Requires one of: ")
        /\ Permissions.require_permissions [] u = Errors.Ok u)
    /\ (ps <> [] -> Permissions.require_permissions ps u = Errors.Ok u ->
        Rbac.require_any_permission ps u = Errors.Ok u).
Proof.
  intros ps u. unfold Rbac.require_any_permission.
  split; [|split; [|split]].
  - destruct (Auth.is_system_admin u) eqn:Ea.
    + split; [now left | reflexivity].
    + destruct (Auth.has_any_permission u ps) eqn:Eh; cbn [negb].
      * split; [|reflexivity]. intros _. right.
        now apply has_any_permission_In.
      * split; [discriminate|]. intros [H | H]; [discriminate|].
        apply has_any_permission_In in H. congruence.
  - destruct (Auth.is_system_admin u); [congruence|].
    destruct (Auth.has_any_permission u ps); cbn [negb]; congruence.
  - intros Ea. unfold Permissions.require_permissions. rewrite Ea.
    split; reflexivity.
  - intros Hne. unfold Permissions.require_permissions.
    destruct (Auth.is_system_admin u); [reflexivity|].
    destruct (Permissions.missing_permissions ps u) as [|m ms] eqn:Em;
      [|discriminate].
    intros _. destruct ps as [|p ps']; [contradiction|].
    assert (Hp : In p (Auth.permissions u)).
    { destruct (in_dec string_dec p (Auth.permissions u)) as [Hi | Hn];
        [assumption|].
      assert (Hin : In p (Permissions.missing_permissions (p :: ps') u))
        by (apply missing_permissions_In; split; [now left | assumption]).
      rewrite Em in Hin. destruct Hin. }
    assert (Hany : Auth.has_any_permission u (p :: ps') = true)
      by (apply has_any_permission_In; exists p; split; [now left | assumption]).
    now rewrite Hany.
Qed.

(** X7. [require_role] lets a principal through exactly when it is a
    system admin or holds every required role; otherwise it raises 403,
    and the roles it names are the required roles the principal does not
    hold, in the order they were required. *)
Theorem require_role_cases :
  forall (required_roles : list string) (u : Auth.CurrentUser),
    (Rbac.require_role required_roles u = Errors.Ok u
     <-> Auth.is_system_admin u = true
         \/ forall r, In r required_roles -> In r (Auth.roles u))
    /\ (Rbac.require_role required_roles u <> Errors.Ok u ->
        Rbac.require_role required_roles u
        = Errors.Raise
            (Errors.HTTPException Errors.HTTP_403_FORBIDDEN
               ("Missing required roles: "
                +:+ Py.join ", " (Rbac.missing_roles required_roles u))))
    /\ (forall r, In r (Rbac.missing_roles required_roles u)
                  <-> In r required_roles /\ ~ In r (Auth.roles u))
    /\ (exists keep, Rbac.missing_roles required_roles u
                     = List.filter keep required_roles).
Proof.
  intros rs u. unfold Rbac.require_role.
  split; [|split; [|split]].
  - destruct (Auth.is_system_admin u) eqn:Ea.
    + split; [now left | reflexivity].
    + destruct (Rbac.missing_roles rs u) as [|m ms] eqn:Em.
      * split; [|reflexivity]. intros _. right. intros r Hr.
        destruct (in_dec string_dec r (Auth.roles u)) as [Hi | Hn];
          [assumption|].
        assert (Hin : In r (Rbac.missing_roles rs u))
          by (apply missing_roles_In; now split).
        rewrite Em in Hin. destruct Hin.
      * split; [discriminate|]. intros [H | H]; [discriminate|].
        assert (Hin : In m (Rbac.missing_roles rs u))
          by (rewrite Em; now left).
        apply missing_roles_In in Hin. destruct Hin as [H1 H2].
        exfalso. apply H2, H, H1.
  - destruct (Auth.is_system_admin u); [congruence|].
    destruct (Rbac.missing_roles rs u); congruence.
  - intros r. apply missing_roles_In.
  - eexists. reflexivity.
Qed.

(** X8. Granting more never revokes: when a principal passes
    [check_rbac], every principal holding at least the same permissions
    and roles passes it too, for every checker. *)
Theorem check_rbac_monotone :
  forall (self : Rbac.PermissionChecker) (u u' : Auth.CurrentUser),
    (forall p, In p (Auth.permissions u) -> In p (Auth.permissions u')) ->
    (forall r, In r (Auth.roles u) -> In r (Auth.roles u')) ->
    Rbac.check_rbac self u = true ->
    Rbac.check_rbac self u' = true.
Proof.
  intros self u u' Hp Hr. unfold Rbac.check_rbac.
  destruct (Auth.is_system_admin u) eqn:Ea.
  - intros _. now rewrite (is_system_admin_mono u u' Hr Ea).
  - destruct (Auth.is_system_admin u'); [reflexivity|].
    rewrite !forallb_map_id, !existsb_map_id.
    assert (Hall : forall ps, Auth.has_all_permissions u ps = true ->
                              Auth.has_all_permissions u' ps = true).
    { intros ps. rewrite !has_all_permissions_In. intros H p Hin.
      apply Hp, H, Hin. }
    assert (Hany : forall ps, Auth.has_any_permission u ps = true ->
                              Auth.has_any_permission u' ps = true).
    { intros ps. rewrite !has_any_permission_In. intros [p [H1 H2]].
      exists p. split; [assumption | now apply Hp]. }
    assert (Hrall : forall rs, forallb (Auth.has_role u) rs = true ->
                               forallb (Auth.has_role u') rs = true).
    { intros rs. rewrite !forallb_forall. intros H r Hin.
      apply contains_In, Hr, contains_In, H, Hin. }
    assert (Hrany : forall rs, existsb (Auth.has_role u) rs = true ->
                               existsb (Auth.has_role u') rs = true).
    { intros rs. rewrite !existsb_exists. intros [r [H1 H2]].
      exists r. split; [assumption|]. apply contains_In, Hr, contains_In, H2. }
    specialize (Hall (Rbac.pc_permissions self)).
    specialize (Hany (Rbac.pc_permissions self)).
    specialize (Hrall (Rbac.pc_roles self)).
    specialize (Hrany (Rbac.pc_roles self)).
    destruct (Rbac.nonempty (Rbac.pc_permissions self));
      destruct (Rbac.require_all_permissions self);
      destruct (Rbac.nonempty (Rbac.pc_roles self));
      destruct (Rbac.require_all_roles self);
      destruct (Auth.has_all_permissions u (Rbac.pc_permissions self));
      destruct (Auth.has_any_permission u (Rbac.pc_permissions self));
      destruct (forallb (Auth.has_role u) (Rbac.pc_roles self));
      destruct (existsb (Auth.has_role u) (Rbac.pc_roles self));
      cbn; try discriminate; intros _;
      try rewrite (Hall eq_refl); try rewrite (Hany eq_refl);
      try rewrite (Hrall eq_refl); try rewrite (Hrany eq_refl);
      reflexivity.
Qed.

Lemma check_rbac_monotone_witness :
  Rbac.check_rbac
    (Rbac.mkPermissionChecker ["read:teams"] ["member"] [] true true)
    (Samples.principal (Some "org-1") ["read:teams"; "write:teams"]
       ["member"; "auditor"]) = true.
Proof.
  apply (check_rbac_monotone _ Samples.member).
  - cbn. intros p [H | []]. left. exact H.
  - cbn. intros r [H | []]. left. exact H.
  - reflexivity.
Defined.

(** X9. [PermissionChecker.check] is [check_rbac] together with, when a
    resource is given, the checker's [check_abac]: the test that the
    policy list is not empty changes nothing. So a system admin passes
    every checker on every resource, a call without resource is decided
    by [check_rbac] alone whatever the policies, and adding a policy to a
    checker never turns a refusal into a grant. *)
Theorem permission_checker_check_cases :
  forall (self : Rbac.PermissionChecker) (u : Auth.CurrentUser)
         (resource : option Rbac.Resource) (context : option Rbac.Context),
    Rbac.check self u resource context
    = Rbac.check_rbac self u
      && match resource with
         | Some r => Rbac.checker_check_abac self u r context
         | None => true
         end
    /\ (Auth.is_system_admin u = true ->
        Rbac.check self u resource context = true)
    /\ Rbac.check self u None context = Rbac.check_rbac self u
    /\ (forall policy,
          Rbac.check
            (Rbac.mkPermissionChecker
               (Rbac.pc_permissions self) (Rbac.pc_roles self)
               (policy :: Rbac.pc_abac_policies self)
               (Rbac.require_all_permissions self)
               (Rbac.require_all_roles self))
            u resource context = true ->
          Rbac.check self u resource context = true).
Proof.
  intros self u resource context.
  assert (Hchar : forall s res, Rbac.check s u res context
    = Rbac.check_rbac s u
      && match res with
         | Some r => Rbac.checker_check_abac s u r context
         | None => true
         end).
  { intros s res. unfold Rbac.check.
    destruct (Rbac.check_rbac s u); cbn [negb andb]; [|reflexivity].
    destruct res as [r|]; [|reflexivity].
    unfold Rbac.checker_check_abac, Rbac.check_abac.
    destruct (Rbac.pc_abac_policies s) as [|p ps]; cbn [Rbac.nonempty andb].
    - cbn. now destruct (Auth.is_system_admin u).
    - now destruct (if Auth.is_system_admin u then true else _). }
  split; [apply Hchar|]. split; [|split].
  - intros Ea. rewrite Hchar. unfold Rbac.check_rbac, Rbac.checker_check_abac.
    rewrite Ea. now destruct resource.
  - rewrite Hchar. apply andb_true_r.
  - intros policy. rewrite !Hchar.
    unfold Rbac.check_rbac, Rbac.checker_check_abac, Rbac.check_abac.
    cbn [Rbac.pc_permissions Rbac.pc_roles Rbac.pc_abac_policies
         Rbac.require_all_permissions Rbac.require_all_roles].
    destruct (Auth.is_system_admin u); [now destruct resource|].
    destruct resource as [r|]; [|trivial].
    cbn [forallb]. rewrite !andb_true_iff.
    intros [H1 [_ H2]]. now split.
Qed.

(** X10. For a request without override, the ABAC policy
    [same_organization] and the guard [validate_resource_org] decide
    alike: on a resource whose organization attribute is the one the
    guard reads, the guard returns exactly when the policy, given an
    empty context, grants. *)
Theorem same_organization_agrees_with_resource_guard :
  forall (R : Type) (model : OrgIsolation.Model R) (r : R)
         (resource : Rbac.Resource) (user : Auth.CurrentUser)
         (header : option string) (ctx : OrgIsolation.OrgContext),
    Py.truthy header = false ->
    OrgIsolation.get_org_context user header = Errors.Ok ctx ->
    Rbac.res_organization_id resource
    = OrgGuards.getattr_organization_id model r ->
    (OrgGuards.validate_resource_org model r ctx user = Errors.Ok true
     <-> Rbac.same_organization user resource ∅ = true)
    /\ (OrgGuards.validate_resource_org model r ctx user <> Errors.Ok true ->
        OrgGuards.validate_resource_org model r ctx user
        = Errors.Raise
            (Errors.HTTPException Errors.HTTP_403_FORBIDDEN
               "Access denied: resource belongs to different organization")).
Proof.
  intros R model r resource user header ctx Hh Hctx Hres.
  unfold OrgIsolation.get_org_context in Hctx. rewrite Hh in Hctx.
  inversion Hctx; subst ctx; clear Hctx.
  unfold OrgGuards.validate_resource_org, Rbac.same_organization.
  cbn [OrgIsolation.is_override OrgIsolation.ctx_org_id].
  rewrite andb_false_r, Hres.
  destruct (OrgGuards.getattr_organization_id model r) as [v|].
  - rewrite (String.eqb_sym v).
    destruct (Py.str_opt (Auth.org_id user) =? v)%string; cbn [negb];
      split; try split; congruence.
  - split; [split; reflexivity | congruence].
Qed.

Lemma same_organization_agrees_with_resource_guard_witness :
  OrgGuards.validate_resource_org Samples.org_model (Some "org-2")
    (Samples.in_org "org-1") Samples.member
  = Errors.Raise
      (Errors.HTTPException Errors.HTTP_403_FORBIDDEN
         "Access denied: resource belongs to different organization")
  /\ Rbac.same_organization Samples.member
       (Rbac.mkResource (Some "org-2") None None None) ∅ = false.
Proof.
  destruct (same_organization_agrees_with_resource_guard (option string)
              Samples.org_model (Some "org-2")
              (Rbac.mkResource (Some "org-2") None None None)
              Samples.member None (Samples.in_org "org-1")
              eq_refl eq_refl eq_refl) as [_ H].
  split; [|reflexivity]. apply H. discriminate.
Defined.

(** X11. The context dictionary cannot overrule the resource: when the
    resource has an organization, [same_organization] does not read the
    context, and when the resource has a non-empty [user_id], [owner_id]
    or [created_by], [owned_by] does not read it either and compares the
    first non-empty of them, in that order, with the principal's [sub].
    Only a resource with none of the three is judged by the context's
    [owner_id], and with no such entry it is owned by nobody. *)
Theorem abac_context_cannot_overrule_resource :
  forall (u : Auth.CurrentUser) (r : Rbac.Resource),
    (forall c c', Rbac.res_organization_id r <> None ->
       Rbac.same_organization u r c = Rbac.same_organization u r c')
    /\ (forall c c',
          Py.truthy (Rbac.res_user_id r) || Py.truthy (Rbac.res_owner_id r)
            || Py.truthy (Rbac.res_created_by r) = true ->
          Rbac.owned_by u r c = Rbac.owned_by u r c')
    /\ (forall c v, Py.truthy (Rbac.res_user_id r) = true ->
          Rbac.res_user_id r = Some v ->
          Rbac.owned_by u r c = String.eqb (Auth.sub u) v)
    /\ (forall c v, Py.truthy (Rbac.res_user_id r) = false ->
          Py.truthy (Rbac.res_owner_id r) = true ->
          Rbac.res_owner_id r = Some v ->
          Rbac.owned_by u r c = String.eqb (Auth.sub u) v)
    /\ (forall c v, Py.truthy (Rbac.res_user_id r) = false ->
          Py.truthy (Rbac.res_owner_id r) = false ->
          Py.truthy (Rbac.res_created_by r) = true ->
          Rbac.res_created_by r = Some v ->
          Rbac.owned_by u r c = String.eqb (Auth.sub u) v)
    /\ (forall c,
          Py.truthy (Rbac.res_user_id r) || Py.truthy (Rbac.res_owner_id r)
            || Py.truthy (Rbac.res_created_by r) = false ->
          Rbac.owned_by u r c
          = match Rbac.context_get c "owner_id" with
            | Some v => String.eqb (Auth.sub u) v
            | None => false
            end).
Proof.
  intros u r. unfold Rbac.same_organization, Rbac.owned_by, Rbac.opt_or.
  split; [|split; [|split; [|split; [|split]]]].
  - intros c c' H. now destruct (Rbac.res_organization_id r).
  - intros c c'.
    destruct (Py.truthy (Rbac.res_user_id r)); [reflexivity|].
    destruct (Py.truthy (Rbac.res_owner_id r)); [reflexivity|].
    destruct (Py.truthy (Rbac.res_created_by r)); [reflexivity|].
    discriminate.
  - intros c v Ht Hv. now rewrite Ht, Hv.
  - intros c v Hf Ht Hv. now rewrite Hf, Ht, Hv.
  - intros c v Hf1 Hf2 Ht Hv. now rewrite Hf1, Hf2, Ht, Hv.
  - intros c.
    destruct (Py.truthy (Rbac.res_user_id r)); [discriminate|].
    destruct (Py.truthy (Rbac.res_owner_id r)); [discriminate|].
    destruct (Py.truthy (Rbac.res_created_by r)); [discriminate|].
    reflexivity.
Qed.

(** ** Authentication dependencies *)

Section AuthDepFacts.
Import Py Errors Auth AuthDeps Terms.

Lemma _fetch_keys_raises (self : JWKSClient) (w : World) (e : exn) :
  snd (_fetch_keys self w) = Raise e -> uncaught e = true.
Proof.
  unfold _fetch_keys.
  destruct (http_get w) as [m | keys | | | t | before fault].
  - destruct (dict_is_empty _); cbn; intros H; inversion H. reflexivity.
  - discriminate.
  - cbn. intros H. inversion H. reflexivity.
  - cbn. intros H. inversion H. reflexivity.
  - cbn. intros H. inversion H. reflexivity.
  - destruct fault; cbn; intros H; inversion H; reflexivity.
Qed.

Lemma get_signing_key_raises (self : JWKSClient) (w : World) (kid : string)
    (e : exn) :
  returned (get_signing_key self w kid) = Raise e -> uncaught e = true.
Proof.
  unfold get_signing_key. destruct (needs_refresh _ _ _); [|discriminate].
  pose proof (_fetch_keys_raises self w e) as H.
  destruct (_fetch_keys self w) as [self' r]. cbn [snd] in H.
  cbn [returned]. destruct r as [[]|e']; cbn [bind]; [discriminate|].
  intros He. apply H. inversion He. reflexivity.
Qed.

(** [validate_token] after a header that passes [validate_algorithm],
    by what the key lookup gives. *)
Lemma validate_token_paths (PublicKey : Type)
    (guh : string -> option JoseHeader) (jc : jwk -> option PublicKey)
    (jd : string -> PublicKey -> string -> option string -> Z -> decode_outcome)
    (g : option JWKSClient) (w : World) (token : string) (settings : Settings)
    (h : JoseHeader) :
  guh token = Some h -> alg h = Some "RS256" ->
  let lk := get_signing_key (get_jwks_client g settings) w
              (default "" (kid h)) in
  validated (validate_token PublicKey guh jc jd g w token settings)
  = match returned lk with
    | Raise e => Raise e
    | Ok None => Raise (AttributeError "AUTH_TOKEN_INVALID")
    | Ok (Some key) =>
      match jc key with
      | None => Raise JWKError
      | Some _ => Raise (AttributeError "CLOCK_TOLERANCE_SECONDS")
      end
    end.
Proof.
  intros Hh Halg lk. subst lk.
  unfold validate_token, validate_algorithm. rewrite Hh, Halg.
  cbn [opt_str_eqb]. rewrite String.eqb_refl. cbn [negb validated].
  destruct (returned _) as [[key|]|e]; cbn [bind]; reflexivity.
Qed.

(** Every exception [validate_token] leaves with passes the handlers. *)
Lemma validate_token_raises (PublicKey : Type)
    (guh : string -> option JoseHeader) (jc : jwk -> option PublicKey)
    (jd : string -> PublicKey -> string -> option string -> Z -> decode_outcome)
    (g : option JWKSClient) (w : World) (token : string) (settings : Settings) :
  exists e,
    validated (validate_token PublicKey guh jc jd g w token settings) = Raise e
    /\ uncaught e = true.
Proof.
  destruct (guh token) as [h|] eqn:Eh.
  - destruct (opt_str_eqb (alg h) (Some "RS256")) eqn:Ea.
    + apply opt_str_eqb_eq in Ea.
      rewrite (validate_token_paths PublicKey guh jc jd g w token settings h
                 Eh Ea).
      cbv zeta.
      destruct (returned _) as [[key|]|e] eqn:Er.
      * destruct (jc key); eexists; split; reflexivity.
      * eexists; split; reflexivity.
      * exists e. split; [reflexivity|].
        now apply get_signing_key_raises in Er.
    + unfold validate_token, validate_algorithm. rewrite Eh, Ea.
      eexists; split; reflexivity.
  - unfold validate_token, validate_algorithm. rewrite Eh.
    eexists; split; reflexivity.
Qed.

End AuthDepFacts.

(** X12. [validate_token] never returns a payload and never raises
    [AuthenticationError], whatever the token, the cache, the outcome of
    the fetch and the verdict of python-jose. After a header with
    algorithm [RS256]: an exception of the key lookup passes through; a
    lookup that finds no key ends in [AttributeError] for
    [ErrorCode.AUTH_TOKEN_INVALID], which [ErrorCode] does not have; a
    key that [jwk.construct] refuses ends in its [JWKError]; and a key
    that constructs ends in [AttributeError] for
    [settings.CLOCK_TOLERANCE_SECONDS], which [Settings] does not have,
    before [jwt.decode] is called. *)
Theorem validate_token_never_returns :
  forall (PublicKey : Type)
         (get_unverified_header : string -> option Auth.JoseHeader)
         (jwk_construct : Auth.jwk -> option PublicKey)
         (jwt_decode : string -> PublicKey -> string -> option string -> Z
                       -> Auth.decode_outcome)
         (g : option Auth.JWKSClient) (w : Auth.World) (token : string)
         (settings : Auth.Settings),
    let v := Auth.validate_token PublicKey get_unverified_header jwk_construct
               jwt_decode g w token settings in
    (forall payload, Auth.validated v <> Errors.Ok payload)
    /\ (forall message code,
          Auth.validated v <> Errors.Raise (Errors.AuthenticationError message code))
    /\ (forall h,
          get_unverified_header token = Some h ->
          Auth.alg h = Some "RS256" ->
          let lk := Auth.get_signing_key (Auth.get_jwks_client g settings) w
                      (default "" (Auth.kid h)) in
          (forall e, Auth.returned lk = Errors.Raise e ->
                     Auth.validated v = Errors.Raise e)
          /\ (Auth.returned lk = Errors.Ok None ->
              Auth.validated v
              = Errors.Raise (Errors.AttributeError "AUTH_TOKEN_INVALID"))
          /\ (forall key, Auth.returned lk = Errors.Ok (Some key) ->
                (jwk_construct key = None ->
                 Auth.validated v = Errors.Raise Errors.JWKError)
                /\ (forall public_key, jwk_construct key = Some public_key ->
                      Auth.validated v
                      = Errors.Raise
                          (Errors.AttributeError "CLOCK_TOLERANCE_SECONDS")))).
Proof.
  intros PublicKey guh jc jd g w token settings v. subst v.
  destruct (validate_token_raises PublicKey guh jc jd g w token settings)
    as [e [He Hun]].
  split; [|split].
  - intros payload. rewrite He. discriminate.
  - intros message code. rewrite He. intros H. inversion H; subst e.
    discriminate.
  - intros h Hh Halg lk. subst lk.
    rewrite (validate_token_paths PublicKey guh jc jd g w token settings h
               Hh Halg). cbv zeta.
    split; [|split].
    + intros e' He'. now rewrite He'.
    + intros Hn. now rewrite Hn.
    + intros key Hk. rewrite Hk. split.
      * intros Hc. now rewrite Hc.
      * intros pk Hc. now rewrite Hc.
Qed.

Lemma validate_token_never_returns_witness :
  Auth.validated
    (Auth.validate_token unit Cases.header_rs256 Samples.construct_any
       Samples.decode_accepts (Some Samples.warm_cache)
       (Samples.provider_down 200) Cases.token_rs256 Samples.settings)
  = Errors.Raise (Errors.AttributeError "CLOCK_TOLERANCE_SECONDS")
  /\ Auth.validated
       (Auth.validate_token unit Cases.header_rs256 Samples.construct_any
          Samples.decode_accepts (Some Samples.warm_cache)
          (Cases.provider_garbled 5000) Cases.token_rs256 Samples.settings)
     = Errors.Raise Errors.JSONDecodeError.
Proof.
  destruct (validate_token_never_returns unit Cases.header_rs256
              Samples.construct_any Samples.decode_accepts
              (Some Samples.warm_cache) (Samples.provider_down 200)
              Cases.token_rs256 Samples.settings) as [_ [_ H1]].
  destruct (validate_token_never_returns unit Cases.header_rs256
              Samples.construct_any Samples.decode_accepts
              (Some Samples.warm_cache) (Cases.provider_garbled 5000)
              Cases.token_rs256 Samples.settings) as [_ [_ H2]].
  split.
  - destruct (H1 {| Auth.alg := Some "RS256"; Auth.kid := Some "k1" |}
                eq_refl eq_refl) as [_ [_ H]].
    destruct (H Samples.key1 eq_refl) as [_ Hc].
    apply (Hc tt). reflexivity.
  - destruct (H2 {| Auth.alg := Some "RS256"; Auth.kid := Some "k1" |}
                eq_refl eq_refl) as [H _].
    apply H. reflexivity.
Defined.

(** X13. [get_current_user] never returns a user. Without credentials it
    raises 401 [Authentication required]; with credentials it leaves with
    the exception of [validate_token], which is never an
    [AuthenticationError], so no 401 is produced for a bad token. In turn
    [get_current_user_optional] returns [None] exactly when there are no
    credentials, and with credentials it raises that same exception
    instead of returning. *)
Theorem get_current_user_never_authenticates :
  forall (PublicKey : Type)
         (get_unverified_header : string -> option Auth.JoseHeader)
         (jwk_construct : Auth.jwk -> option PublicKey)
         (jwt_decode : string -> PublicKey -> string -> option string -> Z
                       -> Auth.decode_outcome)
         (g : option Auth.JWKSClient) (w : Auth.World)
         (credentials : option string) (settings : Auth.Settings),
    let r := AuthDeps.get_current_user PublicKey get_unverified_header
               jwk_construct jwt_decode g w credentials settings in
    let o := AuthDeps.get_current_user_optional PublicKey get_unverified_header
               jwk_construct jwt_decode g w credentials settings in
    (forall user, r <> Errors.Ok user)
    /\ (credentials = None <->
        r = Errors.Raise (Errors.HTTPException Errors.HTTP_401_UNAUTHORIZED
                            "Authentication required"))
    /\ (credentials = None <-> o = Errors.Ok None)
    /\ (forall token, credentials = Some token ->
          exists e,
            Auth.validated
              (Auth.validate_token PublicKey get_unverified_header
                 jwk_construct jwt_decode g w token settings) = Errors.Raise e
            /\ r = Errors.Raise e /\ o = Errors.Raise e
            /\ (forall status detail, e <> Errors.HTTPException status detail)).
Proof.
  intros PublicKey guh jc jd g w credentials settings r o. subst r o.
  unfold AuthDeps.get_current_user_optional, AuthDeps.get_current_user.
  destruct credentials as [token|].
  - destruct (validate_token_raises PublicKey guh jc jd g w token settings)
      as [e [He Hun]].
    rewrite He. cbn [Errors.bind].
    assert (Hr : Auth.to_http_401 (Errors.Raise e)
                 = (Errors.Raise e : Errors.result Auth.CurrentUser))
      by (destruct e; try discriminate; reflexivity).
    rewrite Hr.
    assert (Hne : forall status detail, e <> Errors.HTTPException status detail)
      by (intros status detail ->; discriminate).
    split; [|split; [|split]].
    + intros user. discriminate.
    + split; [discriminate|]. intros H. inversion H; subst e.
      discriminate.
    + split; [discriminate|]. destruct e; discriminate.
    + intros token' Ht. inversion Ht; subst token'. exists e.
      split; [assumption|]. split; [reflexivity|]. split; [|assumption].
      destruct e; try discriminate; reflexivity.
  - split; [|split; [|split]].
    + intros user. discriminate.
    + split; reflexivity.
    + split; reflexivity.
    + intros token Ht. discriminate.
Qed.

(** ** The key cache *)

Section KeyCacheFacts.
Import Py Errors Auth Terms.

Lemma index_step_lookup (m : gmap string jwk) (key : jwk) (kid : string) :
  kid <> "" ->
  (if truthy (jwk_kid key) then <[default "" (jwk_kid key) := key]> m else m)
    !! kid
  = if has_kid kid key then Some key else m !! kid.
Proof.
  intros Hne. unfold has_kid.
  destruct (jwk_kid key) as [k|] eqn:Ek; cbn [truthy opt_str_eqb].
  - destruct k as [|a k'].
    + cbn. destruct kid; [contradiction | reflexivity].
    + cbn [truthy from_option id negb String.eqb].
      change (match kid with
              | "" => false
              | String c2 s2' => if Ascii.eqb a c2 then (k' =? s2')%string else false
              end) with (String a k' =? kid)%string.
      destruct (String a k' =? kid)%string eqn:E.
      * apply String.eqb_eq in E. subst kid. now rewrite lookup_insert_eq.
      * apply String.eqb_neq in E. now rewrite lookup_insert_ne.
  - reflexivity.
Qed.

Lemma fold_index_lookup (keys : list jwk) (m : gmap string jwk) (kid : string) :
  kid <> "" ->
  fold_left
    (fun m key =>
       if truthy (jwk_kid key) then <[default "" (jwk_kid key) := key]> m
       else m) keys m !! kid
  = match last (List.filter (has_kid kid) keys) with
    | Some key => Some key
    | None => m !! kid
    end.
Proof.
  intros Hne. revert m. induction keys as [|key keys IH]; intros m.
  - reflexivity.
  - cbn [fold_left List.filter]. rewrite IH, index_step_lookup by assumption.
    destruct (has_kid kid key).
    + rewrite last_cons. now destruct (last _).
    + reflexivity.
Qed.

Lemma fold_index_lookup_empty (keys : list jwk) (m : gmap string jwk) :
  m !! "" = None ->
  fold_left
    (fun m key =>
       if truthy (jwk_kid key) then <[default "" (jwk_kid key) := key]> m
       else m) keys m !! "" = None.
Proof.
  revert m. induction keys as [|key keys IH]; intros m Hm; [exact Hm|].
  cbn [fold_left]. apply IH.
  destruct (jwk_kid key) as [[|a k]|]; cbn; try assumption.
  now rewrite lookup_insert_ne.
Qed.

End KeyCacheFacts.

(** X14. The map [_fetch_keys] builds from a JWKS document answers a key
    id with the last key of the document that carries it; keys without
    [kid] or with an empty one are not stored, so the empty key id is
    never answered. *)
Theorem index_keys_last_wins :
  forall (keys : list Auth.jwk) (kid : string),
    Auth.index_keys keys !! kid
    = if String.eqb kid "" then None
      else last (List.filter (Terms.has_kid kid) keys).
Proof.
  intros keys kid. unfold Auth.index_keys.
  destruct (String.eqb kid "") eqn:E.
  - apply String.eqb_eq in E. subst kid.
    apply fold_index_lookup_empty. apply lookup_empty.
  - apply String.eqb_neq in E. rewrite fold_index_lookup by assumption.
    rewrite lookup_empty. now destruct (last _).
Qed.

(** X15. Two lookups in a row. After a lookup that fetched a document,
    a second lookup for a key id of that document, made within the TTL
    of the fetch, makes no GET, leaves the cache as it is and returns
    the same key. A second lookup for a key id that is not in the
    document makes a GET again, however soon it comes: misses are not
    cached. *)
Theorem get_signing_key_twice :
  forall (self : Auth.JWKSClient) (w1 w2 : Auth.World) (kid1 kid2 : string)
         (keys : option (list Auth.jwk)),
    let lk1 := Auth.get_signing_key self w1 kid1 in
    let lk2 := Auth.get_signing_key (Auth.client_after lk1) w2 kid2 in
    Auth.fetches lk1 = 1%nat ->
    Auth.http_get w1 = Auth.Response keys ->
    (forall key,
       Auth.index_keys (default [] keys) !! kid2 = Some key ->
       (Auth.clock_check w2 - Auth.clock_fetch w1 <= Auth.cache_ttl self)%Z ->
       Auth.fetches lk2 = 0%nat
       /\ Auth.returned lk2 = Errors.Ok (Some key)
       /\ Auth.client_after lk2 = Auth.client_after lk1)
    /\ (Auth.index_keys (default [] keys) !! kid2 = None ->
        Auth.fetches lk2 = 1%nat).
Proof.
  intros self w1 w2 kid1 kid2 keys lk1 lk2 Hf Hw. subst lk2 lk1.
  set (c := {| Auth.jwks_url := Auth.jwks_url self;
               Auth.cache_ttl := Auth.cache_ttl self;
               Auth._keys := Auth.index_keys (default [] keys);
               Auth._last_fetch := Auth.clock_fetch w1 |}).
  assert (Hc : Auth.client_after (Auth.get_signing_key self w1 kid1) = c).
  { unfold Auth.get_signing_key in Hf |- *.
    destruct (Auth.needs_refresh self (Auth.clock_check w1) kid1);
      [|discriminate].
    unfold Auth._fetch_keys. rewrite Hw. reflexivity. }
  rewrite Hc. clear Hf Hc. unfold Auth.get_signing_key.
  pose proof (needs_refresh_iff c (Auth.clock_check w2) kid2) as Hn.
  split.
  - intros key Hk Httl.
    destruct (Auth.needs_refresh c (Auth.clock_check w2) kid2).
    + exfalso. destruct Hn as [Hn _]. specialize (Hn eq_refl).
      subst c. cbn in Hn. destruct Hn as [Hn | Hn]; [lia | congruence].
    + cbn [Auth.fetches Auth.returned Auth.client_after].
      change (Auth._keys c) with (Auth.index_keys (default [] keys)).
      rewrite Hk. repeat split.
  - intros Hk.
    destruct (Auth.needs_refresh c (Auth.clock_check w2) kid2).
    + now destruct (Auth._fetch_keys c w2).
    + exfalso. destruct Hn as [_ Hn].
      assert (false = true); [|discriminate].
      apply Hn. right. exact Hk.
Qed.

Lemma get_signing_key_twice_witness :
  Auth.fetches
    (Auth.get_signing_key
       (Auth.client_after
          (Auth.get_signing_key Samples.warm_cache
             (Cases.provider_serves 200 [Samples.key1]) "k2"))
       (Cases.provider_serves 201 [Samples.key1]) "k2") = 1%nat.
Proof.
  apply (get_signing_key_twice Samples.warm_cache
           (Cases.provider_serves 200 [Samples.key1])
           (Cases.provider_serves 201 [Samples.key1]) "k2" "k2"
           (Some [Samples.key1])); reflexivity.
Defined.

(** ** Audit rows *)

Section AuditRowFacts.
Import Py Errors Auth OrgIsolation Datetime Audit AuditQueries Props.
Local Open Scope Z_scope.

Lemma before_dot_split (s p : string) :
  before_dot s = Some p ->
  exists rest, s = p +:+ "." +:+ rest /\ before_dot p = None.
Proof.
  revert p. induction s as [|c s IH]; intros p; cbn; [discriminate|].
  destruct (Ascii.eqb c ".") eqn:Ec.
  - intros H. inversion H; subst p. apply Ascii.eqb_eq in Ec. subst c.
    exists s. split; reflexivity.
  - destruct (before_dot s) as [p'|]; [|discriminate].
    intros H. inversion H; subst p. destruct (IH p' eq_refl) as [rest [-> Hp]].
    exists rest. split; [reflexivity|]. cbn. now rewrite Ec, Hp.
Qed.

Lemma before_dot_app (p rest : string) :
  before_dot p = None -> before_dot (p +:+ "." +:+ rest) = Some p.
Proof.
  induction p as [|c p IH]; intros H; [reflexivity|].
  cbn [before_dot] in H.
  change (String c p +:+ "." +:+ rest) with (String c (p +:+ "." +:+ rest)).
  cbn [before_dot].
  destruct (Ascii.eqb c "."); [discriminate|].
  destruct (before_dot p) as [p'|] eqn:Ep; [discriminate|].
  now rewrite IH.
Qed.

Lemma startswith_category (s t : string) :
  before_dot t = None ->
  startswith s (t +:+ ".") = true <-> before_dot s = Some t.
Proof.
  unfold startswith. revert s.
  induction t as [|c t IH]; intros s Ht.
  - change ("" +:+ ".") with ".".
    destruct s as [|a s]; cbn [String.prefix before_dot];
      [split; discriminate|].
    destruct (ascii_dec "." a) as [<- | Hn].
    + cbn. destruct s; split; reflexivity.
    + assert (E : Ascii.eqb a "." = false)
        by (apply Ascii.eqb_neq; congruence).
      rewrite E. split; [discriminate|].
      destruct (before_dot s); discriminate.
  - change (String c t +:+ ".") with (String c (t +:+ ".")).
    cbn [before_dot] in Ht.
    destruct (Ascii.eqb c ".") eqn:Ec; [discriminate|].
    destruct (before_dot t) as [t'|] eqn:Et; [discriminate|].
    destruct s as [|a s]; cbn [String.prefix before_dot];
      [split; discriminate|].
    destruct (ascii_dec c a) as [<- | Hn].
    + rewrite Ec. rewrite (IH s eq_refl).
      destruct (before_dot s) as [p|]; split; intros H;
        try discriminate; congruence.
    + split; [discriminate|].
      destruct (Ascii.eqb a "."); [discriminate|].
      destruct (before_dot s); [|discriminate].
      intros H. exfalso. apply Hn. congruence.
Qed.

Lemma build_log_inv (c : LogCall) (pre : AuditLog) :
  build_log c = Ok pre ->
  c_event_type c <> ""
  /\ event_type pre = c_event_type c
  /\ event_category pre = before_dot (c_event_type c)
  /\ severity pre = c_severity c
  /\ outcome pre = (match c_outcome c with
                    | SUCCESS => "success"
                    | _ => "failure"
                    end)
  /\ actor_id pre = option_map sub (c_actor c)
  /\ session_id pre = None.
Proof.
  unfold build_log. destruct (String.eqb (c_event_type c) "") eqn:E;
    [discriminate|].
  intros H. inversion H; subst; clear H. cbn.
  apply String.eqb_neq in E. repeat split; assumption.
Qed.

(** What a flushed row keeps of the object [build()] returned. *)
Lemma create_log_fields db new_id now c log db' :
  create_log db new_id now c = Ok (log, db') ->
  c_event_type c <> ""
  /\ event_type log = c_event_type c
  /\ event_category log = before_dot (c_event_type c)
  /\ severity log = c_severity c
  /\ outcome log = (match c_outcome c with
                    | SUCCESS => "success"
                    | _ => "failure"
                    end)
  /\ actor_id log = option_map sub (c_actor c)
  /\ session_id log = None.
Proof.
  unfold create_log. destruct (build_log c) as [pre|e] eqn:Eb; [|discriminate].
  cbn [bind]. intros H. inversion H; subst; clear H.
  apply build_log_inv in Eb. exact Eb.
Qed.

End AuditRowFacts.

(** X16. The category [AuditLogBuilder.event] stores is the text before
    the first dot of the event type, and there is none when the type has
    no dot. Hence on every row [create_log] writes, [is_security_event]
    holds exactly when the stored category is [auth], [access] or
    [admin]. *)
Theorem security_event_iff_category :
  forall (db db' : Audit.Table) (new_id : string) (now : Datetime.datetime)
         (c : Audit.LogCall) (log : Audit.AuditLog),
    Audit.create_log db new_id now c = Errors.Ok (log, db') ->
    (forall p, Audit.event_category log = Some p <->
               Audit.before_dot p = None
               /\ exists rest, Audit.event_type log = p +:+ "." +:+ rest)
    /\ (AuditQueries.is_security_event log = true
        <-> In (Audit.event_category log)
              [Some "auth"; Some "access"; Some "admin"]).
Proof.
  intros db db' new_id now c log H.
  apply create_log_fields in H.
  destruct H as [_ [Het [Hcat _]]]. rewrite Hcat, Het.
  split.
  - intros p. split.
    + intros Hp. apply before_dot_split in Hp.
      destruct Hp as [rest [Hs Hn]]. split; [assumption | now exists rest].
    + intros [Hn [rest Hs]]. rewrite Hs. now apply before_dot_app.
  - unfold AuditQueries.is_security_event, AuditQueries.security_types.
    rewrite Het. cbn [existsb In]. rewrite !orb_true_iff.
    change "auth." with ("auth" +:+ ".").
    change "access." with ("access" +:+ ".").
    change "admin." with ("admin" +:+ ".").
    rewrite !startswith_category by reflexivity.
    split.
    + intros [H | [H | [H | H]]]; [| | |discriminate]; rewrite H; auto.
    + intros [H | [H | [H | []]]]; rewrite <- H; auto.
Qed.

Lemma security_event_iff_category_witness :
  AuditQueries.is_security_event Cases.denied_row = true.
Proof.
  destruct (security_event_iff_category [] Cases.denied_table "id-1"
              Samples.t0 (Samples.event "access.denied" (Some "org-1"))
              Cases.denied_row) as [_ [_ H]].
  - vm_compute. reflexivity.
  - apply H. vm_compute. right. left. reflexivity.
Defined.

Section AppendedFacts.
Import Py Errors Auth OrgIsolation Datetime Audit AuditQueries Props.
Local Open Scope Z_scope.

Lemma _get_last_log_In (db : Table) (org : option string) (l : AuditLog) :
  _get_last_log db org = Some l ->
  In l db /\ (truthy org = true -> organization_id l = org).
Proof.
  unfold _get_last_log. intros H.
  assert (Hin : In l (if truthy org then List.filter (org_is org) db else db)).
  { apply (In_order_by desc).
    destruct (order_by desc _) as [|y rest]; [discriminate|].
    cbn in H. inversion H. now left. }
  destruct (truthy org) eqn:Et.
  - apply List.filter_In in Hin. destruct Hin as [Hin Ho].
    split; [assumption|]. intros _.
    apply truthy_Some in Et. destruct Et as [v [-> _]].
    rewrite org_is_Some in Ho. now apply bool_decide_eq_true in Ho.
  - split; [assumption | discriminate].
Qed.

(** Where the [previous_hash] of a row of an appended table comes from. *)
Lemma appended_previous_hash (db : Table) :
  appended db ->
  forall l1 x l2,
    db = (l1 ++ x :: l2)%list ->
    previous_hash x = None
    \/ exists p, In p l1 /\ previous_hash x = current_hash p
                 /\ (organization_id x <> None ->
                     organization_id p = organization_id x).
Proof.
  induction 1 as [|db db' new_id now c log Hdb IH Hlt Hc]; intros l1 x l2 Heq.
  - destruct l1; discriminate.
  - apply create_log_inv in Hc.
    destruct Hc as [pre [_ [_ [_ [_ [_ [Horg [Hprev ->]]]]]]]].
    destruct l2 as [|z l2' _] using rev_ind.
    + apply app_inj_tail in Heq. destruct Heq as [<- <-].
      rewrite Hprev.
      destruct (_get_last_log db (c_organization_id c)) as [p|] eqn:El;
        [|now left].
      apply _get_last_log_In in El. destruct El as [Hin Ho].
      right. exists p. split; [assumption|]. split; [reflexivity|].
      intros Hne. rewrite Horg in Hne |- *.
      destruct (truthy (c_organization_id c)); [now apply Ho | contradiction].
    + change (l1 ++ x :: l2' ++ [z])%list
        with (l1 ++ (x :: l2') ++ [z])%list in Heq.
      rewrite app_assoc in Heq. apply app_inj_tail in Heq.
      destruct Heq as [Heq _]. now apply (IH l1 x l2').
Qed.

Lemma appended_rows (db : Table) :
  appended db ->
  List.Forall
    (fun l =>
       is_Some (id l) /\ is_Some (timestamp l) /\ is_Some (current_hash l)
       /\ event_type l <> ""
       /\ event_category l = before_dot (event_type l)
       /\ (outcome l = "success" \/ outcome l = "failure")
       /\ organization_id l <> Some ""
       /\ session_id l = None) db.
Proof.
  induction 1 as [|db db' new_id now c log Hdb IH Hlt Hc]; [constructor|].
  pose proof (create_log_fields _ _ _ _ _ _ Hc)
    as [Hne [Het [Hcat [_ [Hout [_ Hsess]]]]]].
  apply create_log_inv in Hc.
  destruct Hc as [pre [_ [_ [Hcur [Hts [Hid [Horg [_ ->]]]]]]]].
  apply List.Forall_app. split; [assumption|]. constructor; [|constructor].
  rewrite Hid, Hts, Hcur, Het, Hcat, Hout, Horg, Hsess.
  repeat split; eauto.
  - destruct (c_outcome c); auto.
  - destruct (truthy (c_organization_id c)) eqn:Et; [|discriminate].
    apply truthy_Some in Et. destruct Et as [v [-> Hv]]. congruence.
Qed.

End AppendedFacts.

(** X17. Every row of a table built by [create_log] calls has an id, a
    timestamp and a current hash, a non-empty event type whose text
    before the first dot is the stored category, and no session id; its
    outcome is [success] or [failure] (an [unknown] outcome is stored as
    [failure]); its organization is null or non-empty. Its previous hash
    is null or the current hash of a row written before it, and for a
    row of an organization that earlier row is of the same
    organization. *)
Theorem appended_table_invariant :
  forall (db : Audit.Table),
    Props.appended db ->
    List.Forall
      (fun l =>
         is_Some (Audit.id l) /\ is_Some (Audit.timestamp l)
         /\ is_Some (Audit.current_hash l)
         /\ Audit.event_type l <> ""
         /\ Audit.event_category l = Audit.before_dot (Audit.event_type l)
         /\ (Audit.outcome l = "success" \/ Audit.outcome l = "failure")
         /\ Audit.organization_id l <> Some ""
         /\ Audit.session_id l = None) db
    /\ (forall l1 x l2,
          db = (l1 ++ x :: l2)%list ->
          Audit.previous_hash x = None
          \/ exists p, In p l1
                       /\ Audit.previous_hash x = Audit.current_hash p
                       /\ (Audit.organization_id x <> None ->
                           Audit.organization_id p = Audit.organization_id x)).
Proof.
  intros db H. split.
  - now apply appended_rows.
  - now apply appended_previous_hash.
Qed.

Lemma appended_table_invariant_witness :
  Audit.previous_hash Cases.denied_row = None
  \/ exists p, In p []
               /\ Audit.previous_hash Cases.denied_row = Audit.current_hash p
               /\ (Audit.organization_id Cases.denied_row <> None ->
                   Audit.organization_id p
                   = Audit.organization_id Cases.denied_row).
Proof.
  assert (Happ : Props.appended Cases.denied_table).
  { apply (Props.appended_step [] Cases.denied_table "id-1" Samples.t0
             (Samples.event "access.denied" (Some "org-1")) Cases.denied_row).
    - constructor.
    - constructor.
    - vm_compute. reflexivity. }
  destruct (appended_table_invariant Cases.denied_table Happ) as [_ H].
  apply (H [] Cases.denied_row []). vm_compute. reflexivity.
Defined.

(** ** Verification reports *)

Section VerifyFacts.
Import Py Errors Auth OrgIsolation Datetime Audit AuditQueries Props.
Local Open Scope Z_scope.

Lemma chronological_app_l (a b : list AuditLog) :
  chronological (a ++ b)%list -> chronological a.
Proof.
  induction a as [|x a IH]; intros H; [constructor|].
  cbn in H. inversion H as [|? ? Hs Hf]; subst.
  constructor; [now apply IH|].
  apply List.Forall_app in Hf. tauto.
Qed.

Lemma check_logs_entries (logs : list AuditLog) :
  forall prev b,
    In b (check_logs prev logs) ->
    exists log, In log logs /\ entry_id b = reported_id log.
Proof.
  induction logs as [|log rest IH]; intros prev b Hb; [destruct Hb|].
  cbn [check_logs] in Hb. rewrite !in_app_iff in Hb.
  destruct Hb as [Hb | [Hb | Hb]].
  - apply check_hash_entries in Hb. destruct Hb as [e [a ->]].
    exists log. split; [now left | reflexivity].
  - apply check_link_entries in Hb.
    destruct Hb as [p [a [_ [_ [_ [_ ->]]]]]].
    exists log. split; [now left | reflexivity].
  - apply IH in Hb. destruct Hb as [l [Hin Hid]].
    exists l. split; [now right | assumption].
Qed.

Lemma check_logs_length (logs : list AuditLog) :
  forall prev,
    (List.length (check_logs prev logs) <= 2 * List.length logs)%nat.
Proof.
  induction logs as [|log rest IH]; intros prev; [cbn; lia|].
  cbn [check_logs]. rewrite !length_app. specialize (IH (Some log)).
  assert (H1 : (List.length (check_hash log) <= 1)%nat).
  { unfold check_hash. destruct (_ && _); cbn; lia. }
  assert (H2 : (List.length (check_link prev log) <= 1)%nat).
  { unfold check_link. destruct prev; [destruct (_ && _)|]; cbn; lia. }
  cbn [List.length]. lia.
Qed.

Lemma fetch_logs_org db ctx limit (x : AuditLog) :
  In x (fetch_logs db ctx limit) ->
  truthy (ctx_org_id ctx) = true ->
  organization_id x = ctx_org_id ctx.
Proof.
  unfold fetch_logs. intros H Ht. rewrite Ht in H.
  apply In_firstn_In in H. apply In_order_by in H.
  apply List.filter_In in H. destruct H as [_ H].
  apply truthy_Some in Ht. destruct Ht as [v [Hv _]]. rewrite Hv in *.
  rewrite org_is_Some in H. now apply bool_decide_eq_true in H.
Qed.

Lemma length_insert_by le (x : AuditLog) (l : list AuditLog) :
  List.length (insert_by le x l) = S (List.length l).
Proof.
  induction l as [|y l IH]; cbn; [reflexivity|].
  destruct (le (ts x) (ts y)); cbn; [reflexivity | now rewrite IH].
Qed.

Lemma length_order_by le (l : list AuditLog) :
  List.length (order_by le l) = List.length l.
Proof.
  unfold order_by. induction l as [|y l IH]; [reflexivity|].
  cbn [fold_right]. now rewrite length_insert_by, IH.
Qed.

End VerifyFacts.

(** X18. The shape of every integrity report: at most [limit] rows are
    verified; the report is valid exactly when it lists no entry; there
    are at most two entries per verified row; every entry carries the id
    of a row of the table, and in the scope of an organization that row
    is of this organization. *)
Theorem verify_report_shape :
  forall (db : Audit.Table) (org_context : OrgIsolation.OrgContext)
         (limit : nat),
    let r := Audit.verify_chain_integrity db org_context limit in
    (Audit.verified_count r <= limit)%nat
    /\ (Audit.verified_count r <= List.length db)%nat
    /\ (Audit.is_valid r = true <-> Audit.broken_links r = [])
    /\ (List.length (Audit.broken_links r) <= 2 * Audit.verified_count r)%nat
    /\ (forall b, In b (Audit.broken_links r) ->
          exists l, In l db
                    /\ Props.entry_id b = Props.reported_id l
                    /\ (Py.truthy (OrgIsolation.ctx_org_id org_context) = true ->
                        Audit.organization_id l
                        = OrgIsolation.ctx_org_id org_context)).
Proof.
  intros db ctx limit r. subst r.
  unfold Audit.verify_chain_integrity.
  cbn [Audit.verified_count Audit.is_valid Audit.broken_links].
  split; [|split; [|split; [|split]]].
  - unfold Audit.fetch_logs. rewrite length_firstn. lia.
  - unfold Audit.fetch_logs. rewrite length_firstn, length_order_by.
    destruct (Py.truthy _); [|lia].
    pose proof (List.filter_length_le
                  (Audit.org_is (OrgIsolation.ctx_org_id ctx)) db). lia.
  - rewrite Nat.eqb_eq. apply length_zero_iff_nil.
  - apply check_logs_length.
  - intros b Hb. apply check_logs_entries in Hb.
    destruct Hb as [l [Hin Hid]]. exists l.
    split; [now apply (fetch_logs_In db ctx limit)|].
    split; [assumption|]. now apply (fetch_logs_org db ctx limit).
Qed.

(** X19. Verification never looks past the first [limit] rows of its
    scope: once a report on a table written at increasing times covers
    [limit] rows, rows appended later do not change it, whatever they
    hold. *)
Theorem verify_ignores_rows_past_limit :
  forall (db more : Audit.Table) (org_context : OrgIsolation.OrgContext)
         (limit : nat),
    Props.chronological (db ++ more)%list ->
    Audit.verified_count (Audit.verify_chain_integrity db org_context limit)
    = limit ->
    Audit.verify_chain_integrity (db ++ more)%list org_context limit
    = Audit.verify_chain_integrity db org_context limit.
Proof.
  intros db more ctx limit Hch Hcount.
  pose proof (chronological_app_l db more Hch) as Hdb.
  assert (Hfetch : Audit.fetch_logs (db ++ more)%list ctx limit
                   = Audit.fetch_logs db ctx limit).
  { unfold Audit.verify_chain_integrity in Hcount.
    cbn [Audit.verified_count] in Hcount.
    unfold Audit.fetch_logs in *.
    set (rows := fun t : Audit.Table =>
                   if Py.truthy (OrgIsolation.ctx_org_id ctx)
                   then List.filter
                          (Audit.org_is (OrgIsolation.ctx_org_id ctx)) t
                   else t) in *.
    change (firstn limit (Audit.order_by Audit.asc (rows (db ++ more)%list))
            = firstn limit (Audit.order_by Audit.asc (rows db))).
    change (List.length (firstn limit (Audit.order_by Audit.asc (rows db)))
            = limit) in Hcount.
    assert (Happ : rows (db ++ more)%list = (rows db ++ rows more)%list).
    { unfold rows. destruct (Py.truthy _); [apply List.filter_app|reflexivity]. }
    assert (Hc1 : Props.chronological (rows db)).
    { unfold rows. destruct (Py.truthy _);
        [now apply chronological_filter | assumption]. }
    assert (Hc2 : Props.chronological (rows (db ++ more)%list)).
    { unfold rows. destruct (Py.truthy _);
        [now apply chronological_filter | assumption]. }
    rewrite (order_by_asc_chronological _ Hc2).
    rewrite (order_by_asc_chronological _ Hc1) in Hcount |- *.
    rewrite Happ. rewrite length_firstn in Hcount.
    rewrite firstn_app.
    replace (limit - List.length (rows db))%nat with 0%nat by lia.
    cbn [firstn]. now rewrite app_nil_r. }
  unfold Audit.verify_chain_integrity. now rewrite Hfetch.
Qed.

(** ** Reading the audit log *)

Section AuditReadFacts.
Import Py Errors Auth OrgIsolation Datetime Audit AuditQueries Props Terms.
Local Open Scope Z_scope.

Lemma execute_nil (db : Table) : execute [] db = db.
Proof.
  unfold execute. induction db as [|x db IH]; [reflexivity|].
  cbn [List.filter forallb]. now f_equal.
Qed.

Lemma filter_filter {A : Type} (f g : A -> bool) (l : list A) :
  List.filter f (List.filter g l) = List.filter (fun x => g x && f x) l.
Proof.
  induction l as [|x l IH]; cbn; [reflexivity|].
  destruct (g x); cbn; [destruct (f x)|]; now rewrite IH.
Qed.

Lemma execute_where_eq {R : Type} (stmt : Select R) (c : R -> bool)
    (rows : list R) :
  execute (where_ stmt c) rows = List.filter c (execute stmt rows).
Proof.
  unfold execute, where_. rewrite filter_filter.
  apply List.filter_ext. intros r. rewrite forallb_app. cbn.
  now rewrite andb_true_r.
Qed.

(** The rows a scoped statement returns, as a filter. *)
Lemma execute_scope_select {R : Type} (q : OrgScopedQuery) (stmt : Select R)
    (col : R -> option string) (allow : bool) (rows : list R) :
  execute (scope_select q stmt (mkModel R (Some col)) allow) rows
  = List.filter (fun r => in_scope q allow (col r)) (execute stmt rows).
Proof.
  unfold scope_select, in_scope. cbn [organization_id_attr].
  destruct (is_system_admin (user q) && is_override (org_context q));
    destruct (truthy (ctx_org_id (org_context q))) eqn:Et; cbn [negb];
    try destruct allow; rewrite ?execute_where_eq;
    try (apply List.filter_ext; intros r; unfold col_or;
         rewrite ?(col_eq_opt col _ r Et), ?col_is_null_None;
         cbn [andb orb]; now rewrite ?orb_false_r).
  all: induction (execute stmt rows) as [|x l IH]; cbn; [reflexivity|].
  all: now rewrite <- IH.
Qed.

Lemma execute_get_logs_stmt (sq : OrgScopedQuery) (q : LogQuery) (db : Table) :
  execute (get_logs_stmt sq q) db = List.filter (matching sq q) db.
Proof.
  unfold get_logs_stmt, matching.
  destruct (conditions q) as [|c cs] eqn:Ec.
  - unfold AuditLog_model. rewrite execute_scope_select, execute_nil.
    apply List.filter_ext. intros l. cbn. now rewrite andb_true_r.
  - rewrite execute_where_eq. unfold AuditLog_model.
    rewrite execute_scope_select, execute_nil, filter_filter. reflexivity.
Qed.

Lemma insert_by_desc_sorted (x : AuditLog) (l : list AuditLog) :
  newest_first l -> newest_first (insert_by desc x l).
Proof.
  unfold newest_first.
  induction 1 as [|y l Hs IH Hf]; cbn.
  - repeat constructor.
  - unfold desc at 1. destruct (Z.leb_spec (ts y) (ts x)).
    + constructor; [now constructor|]. constructor; [assumption|].
      rewrite List.Forall_forall in Hf |- *. intros z Hz.
      specialize (Hf z Hz). cbn in Hf. lia.
    + constructor; [assumption|].
      apply List.Forall_forall. intros z Hz. apply In_insert_by in Hz.
      destruct Hz as [-> | Hz]; [lia|].
      rewrite List.Forall_forall in Hf. now apply Hf.
Qed.

Lemma order_by_desc_sorted (l : list AuditLog) :
  newest_first (order_by desc l).
Proof.
  unfold order_by. induction l as [|x l IH]; cbn [fold_right].
  - constructor.
  - now apply insert_by_desc_sorted.
Qed.

Lemma newest_first_firstn (n : nat) (l : list AuditLog) :
  newest_first l -> newest_first (firstn n l).
Proof.
  unfold newest_first. intros H. revert n.
  induction H as [|x l Hs IH Hf]; intros [|n]; cbn; try constructor.
  - apply IH.
  - apply List.Forall_forall. intros z Hz. apply In_firstn_In in Hz.
    rewrite List.Forall_forall in Hf. now apply Hf.
Qed.

Lemma In_skipn_In {A : Type} (n : nat) (l : list A) (x : A) :
  In x (skipn n l) -> In x l.
Proof.
  revert l. induction n as [|n IH]; intros [|y l]; cbn; try tauto.
  intros H. right. now apply IH.
Qed.

End AuditReadFacts.

Section GetLogsFacts.
Import Py Errors Auth OrgIsolation Datetime Audit AuditQueries Props Terms.
Local Open Scope Z_scope.

Lemma when_truthy_holds (v : option string) (c : AuditLog -> bool)
    (rest : list (AuditLog -> bool)) (l : AuditLog) :
  forallb (fun c => c l) (when_truthy v c ++ rest)%list = true ->
  (truthy v = true -> c l = true) /\ forallb (fun c => c l) rest = true.
Proof.
  unfold when_truthy. destruct (truthy v); cbn.
  - rewrite andb_true_iff. tauto.
  - intros H. split; [discriminate | assumption].
Qed.

Lemma text_is_eq (col : AuditLog -> string) (v : option string) (l : AuditLog) :
  text_is col v l = true -> v = Some (col l).
Proof. unfold text_is. intros H. apply opt_str_eqb_eq in H. congruence. Qed.

Lemma col_eq_eq (col : AuditLog -> option string) (v : option string)
    (l : AuditLog) :
  col_eq col v l = true -> col l = v.
Proof.
  unfold col_eq. destruct (col l) as [a|], v as [b|]; try discriminate.
  intros H. apply String.eqb_eq in H. congruence.
Qed.

Lemma conditions_hold (q : LogQuery) (l : AuditLog) :
  forallb (fun c => c l) (conditions q) = true ->
  (truthy (q_event_type q) = true -> q_event_type q = Some (event_type l))
  /\ (truthy (q_actor_id q) = true -> actor_id l = q_actor_id q)
  /\ (truthy (q_target_type q) = true -> target_type l = q_target_type q)
  /\ (truthy (q_target_id q) = true -> target_id l = q_target_id q)
  /\ (truthy (q_severity q) = true -> q_severity q = Some (severity l))
  /\ (truthy (q_outcome q) = true -> q_outcome q = Some (outcome l))
  /\ (forall d, q_start_date q = Some d -> d <= ts l)
  /\ (forall d, q_end_date q = Some d -> ts l <= d).
Proof.
  unfold conditions. intros H.
  apply when_truthy_holds in H. destruct H as [H1 H].
  apply when_truthy_holds in H. destruct H as [H2 H].
  apply when_truthy_holds in H. destruct H as [H3 H].
  apply when_truthy_holds in H. destruct H as [H4 H].
  apply when_truthy_holds in H. destruct H as [H5 H].
  apply when_truthy_holds in H. destruct H as [H6 H].
  rewrite forallb_app in H. apply andb_true_iff in H. destruct H as [H7 H8].
  split; [intros Ht; now apply text_is_eq, H1|].
  split; [intros Ht; now apply col_eq_eq, H2|].
  split; [intros Ht; now apply col_eq_eq, H3|].
  split; [intros Ht; now apply col_eq_eq, H4|].
  split; [intros Ht; now apply text_is_eq, H5|].
  split; [intros Ht; now apply text_is_eq, H6|].
  split.
  - intros d Hd. rewrite Hd in H7. cbn in H7.
    rewrite andb_true_r in H7. now apply Z.leb_le.
  - intros d Hd. rewrite Hd in H8. cbn in H8.
    rewrite andb_true_r in H8. now apply Z.leb_le.
Qed.

Lemma get_logs_eq (db : Table) (ctx : OrgContext) (sq : OrgScopedQuery)
    (q : LogQuery) :
  get_logs db ctx sq q
  = (firstn (q_page_size q)
       (skipn ((Pos.to_nat (q_page q) - 1) * q_page_size q)
          (order_by desc (List.filter (matching sq q) db))),
     List.length (List.filter (matching sq q) db)).
Proof. unfold get_logs. now rewrite execute_get_logs_stmt. Qed.

Lemma matching_with_page (sq : OrgScopedQuery) (q : LogQuery) (p : positive) :
  matching sq (with_page q p) = matching sq q.
Proof. reflexivity. Qed.

Lemma firstn_plus {A : Type} (a b : nat) (l : list A) :
  firstn (a + b) l = (firstn a l ++ firstn b (skipn a l))%list.
Proof.
  revert l. induction a as [|a IH]; intros l; [reflexivity|].
  destruct l as [|x l]; cbn; [now destruct b|]. now rewrite IH.
Qed.

Lemma pages_concat {A : Type} (k n : nat) (l : list A) :
  concat (map (fun i => firstn k (skipn (i * k) l)) (seq 0 n))
  = firstn (n * k) l.
Proof.
  induction n as [|n IH]; [reflexivity|].
  rewrite seq_S, map_app, concat_app, IH. cbn [map concat].
  rewrite app_nil_r. rewrite <- firstn_plus. f_equal. cbn. lia.
Qed.

End GetLogsFacts.

(** X20. What [get_logs] returns. Every returned row is a row of the
    table, within the scope of the query helper, that passes each filter
    given with a non-empty value and lies between the dates given; the
    rows come newest first and are at most [page_size]; the total is the
    number of all rows in scope that pass the filters, whatever page is
    asked for. *)
Theorem get_logs_rows :
  forall (db : Audit.Table) (org_context : OrgIsolation.OrgContext)
         (scoped_query : OrgIsolation.OrgScopedQuery)
         (q : AuditQueries.LogQuery),
    let logs := fst (AuditQueries.get_logs db org_context scoped_query q) in
    let total := snd (AuditQueries.get_logs db org_context scoped_query q) in
    (forall l, In l logs ->
       In l db
       /\ Terms.in_scope scoped_query false (Audit.organization_id l) = true
       /\ (Py.truthy (AuditQueries.q_event_type q) = true ->
           AuditQueries.q_event_type q = Some (Audit.event_type l))
       /\ (Py.truthy (AuditQueries.q_actor_id q) = true ->
           Audit.actor_id l = AuditQueries.q_actor_id q)
       /\ (Py.truthy (AuditQueries.q_target_type q) = true ->
           Audit.target_type l = AuditQueries.q_target_type q)
       /\ (Py.truthy (AuditQueries.q_target_id q) = true ->
           Audit.target_id l = AuditQueries.q_target_id q)
       /\ (Py.truthy (AuditQueries.q_severity q) = true ->
           AuditQueries.q_severity q = Some (Audit.severity l))
       /\ (Py.truthy (AuditQueries.q_outcome q) = true ->
           AuditQueries.q_outcome q = Some (Audit.outcome l))
       /\ (forall d, AuditQueries.q_start_date q = Some d ->
                     (d <= Audit.ts l)%Z)
       /\ (forall d, AuditQueries.q_end_date q = Some d ->
                     (Audit.ts l <= d)%Z))
    /\ total = List.length (List.filter (Terms.matching scoped_query q) db)
    /\ (forall p,
          snd (AuditQueries.get_logs db org_context scoped_query
                 (Terms.with_page q p)) = total)
    /\ (List.length logs <= AuditQueries.q_page_size q)%nat
    /\ (List.length logs <= total)%nat
    /\ Terms.newest_first logs.
Proof.
  intros db ctx sq q logs total. subst logs total.
  rewrite get_logs_eq. cbn [fst snd].
  split; [|split; [|split; [|split; [|split]]]].
  - intros l Hl. apply In_firstn_In, In_skipn_In in Hl.
    apply In_order_by in Hl. apply List.filter_In in Hl.
    destruct Hl as [Hin Hm]. unfold Terms.matching in Hm.
    apply andb_true_iff in Hm. destruct Hm as [Hs Hc].
    split; [assumption|]. split; [assumption|].
    now apply conditions_hold.
  - reflexivity.
  - intros p. rewrite get_logs_eq. reflexivity.
  - rewrite length_firstn. lia.
  - rewrite length_firstn, length_skipn, length_order_by. lia.
  - apply newest_first_firstn.
    assert (H : forall n (l : list Audit.AuditLog),
               Terms.newest_first l -> Terms.newest_first (skipn n l)).
    { intros n. induction n as [|n IH]; intros l Hl; [assumption|].
      destruct l as [|x l]; [assumption|]. cbn. apply IH.
      now inversion Hl. }
    apply H, order_by_desc_sorted.
Qed.

(** X21. On a table written at increasing times the pages of [get_logs]
    tile the result: pages 1 to [n] of one query, put end to end, are
    the first [n * page_size] matching rows, newest first, with no row
    skipped and none repeated. *)
Theorem get_logs_pages_tile :
  forall (db : Audit.Table) (org_context : OrgIsolation.OrgContext)
         (scoped_query : OrgIsolation.OrgScopedQuery)
         (q : AuditQueries.LogQuery) (n : nat),
    Props.chronological db ->
    concat
      (map (fun i =>
              fst (AuditQueries.get_logs db org_context scoped_query
                     (Terms.with_page q (Pos.of_succ_nat i))))
         (seq 0 n))
    = firstn (n * AuditQueries.q_page_size q)
        (reverse (List.filter (Terms.matching scoped_query q) db)).
Proof.
  intros db ctx sq q n Hch.
  rewrite <- (order_by_desc_chronological
                (List.filter (Terms.matching sq q) db))
    by now apply chronological_filter.
  rewrite <- pages_concat. f_equal. apply map_ext. intros i.
  rewrite get_logs_eq. cbn [fst Terms.with_page AuditQueries.q_page
                              AuditQueries.q_page_size].
  rewrite SuccNat2Pos.id_succ. rewrite matching_with_page.
  replace (S i - 1)%nat with i by lia. reflexivity.
Qed.

Section PaginationFacts.
Import Errors Pagination.
Local Open Scope Z_scope.

Lemma total_pages_bounds (page_size total : Z) :
  0 < page_size -> 0 <= total ->
  let tp := if 0 <? total then (total + page_size - 1) / page_size else 0 in
  total <= tp * page_size < total + page_size.
Proof.
  intros Hps Ht. cbv zeta.
  destruct (Z.ltb_spec 0 total) as [Hpos | Hz]; [|lia].
  pose proof (Z.div_mod (total + page_size - 1) page_size ltac:(lia)) as Hdm.
  pose proof (Z.mod_pos_bound (total + page_size - 1) page_size Hps) as Hm.
  nia.
Qed.

(** Within the bounds of the model the metadata is built, and it is
    this record. *)
Lemma create_pagination_meta_Ok (page page_size total : Z) :
  1 <= page -> 1 <= page_size <= 100 -> 0 <= total ->
  let tp := if 0 <? total then (total + page_size - 1) / page_size else 0 in
  create_pagination_meta page page_size total
  = Ok (mkPaginationMeta page page_size total tp (page <? tp) (1 <? page)).
Proof.
  intros Hp Hps Ht tp.
  pose proof (total_pages_bounds page_size total ltac:(lia) Ht) as Hb.
  cbv zeta in Hb. fold tp in Hb.
  assert (Htp : 0 <= tp) by nia.
  unfold create_pagination_meta, floordiv.
  replace (page_size =? 0) with false by (symmetry; apply Z.eqb_neq; lia).
  assert (Hbind : (if 0 <? total
                   then Ok ((total + page_size - 1) / page_size)
                   else Ok 0) = Ok tp)
    by (subst tp; destruct (0 <? total); reflexivity).
  rewrite Hbind. cbn [bind]. unfold PaginationMeta_init.
  replace (1 <=? page) with true by (symmetry; apply Z.leb_le; lia).
  replace (1 <=? page_size) with true by (symmetry; apply Z.leb_le; lia).
  replace (page_size <=? 100) with true by (symmetry; apply Z.leb_le; lia).
  replace (0 <=? total) with true by (symmetry; apply Z.leb_le; lia).
  replace (0 <=? tp) with true by (symmetry; apply Z.leb_le; lia).
  reflexivity.
Qed.

End PaginationFacts.

(** X22. The pagination metadata the audit route builds from the total
    of [get_logs]. For a page size from 1 to 100, as the route admits,
    [create_pagination_meta] returns the metadata, and these agree with
    what [get_logs] returns: [has_next] holds exactly when the next page
    has a row, [has_previous] exactly when the page is not the first,
    [total_pages] is the least number of pages that hold all matching
    rows, every page up to [total_pages] has a row and every page past
    it is empty. A page size above 100 ends in [ValidationError], and a
    page size of 0 in [ZeroDivisionError] when a row matches and in
    [ValidationError] when none does. *)
Theorem pagination_meta_agrees_with_get_logs :
  forall (db : Audit.Table) (org_context : OrgIsolation.OrgContext)
         (scoped_query : OrgIsolation.OrgScopedQuery)
         (q : AuditQueries.LogQuery),
    let page_of := fun p =>
      fst (AuditQueries.get_logs db org_context scoped_query
             (Terms.with_page q p)) in
    let total := snd (AuditQueries.get_logs db org_context scoped_query q) in
    let built := Pagination.create_pagination_meta
                   (Z.pos (AuditQueries.q_page q))
                   (Z.of_nat (AuditQueries.q_page_size q))
                   (Z.of_nat total) in
    ((1 <= AuditQueries.q_page_size q <= 100)%nat ->
     exists meta,
       built = Errors.Ok meta
       /\ Pagination.page meta = Z.pos (AuditQueries.q_page q)
       /\ Pagination.page_size meta = Z.of_nat (AuditQueries.q_page_size q)
       /\ Pagination.total_items meta = Z.of_nat total
       /\ (Pagination.has_next meta = true
           <-> page_of (Pos.succ (AuditQueries.q_page q)) <> [])
       /\ (Pagination.has_previous meta = true
           <-> AuditQueries.q_page q <> 1%positive)
       /\ (Z.of_nat total
           <= Pagination.total_pages meta
              * Z.of_nat (AuditQueries.q_page_size q)
           < Z.of_nat total + Z.of_nat (AuditQueries.q_page_size q))%Z
       /\ (forall p, (Z.pos p <= Pagination.total_pages meta)%Z <->
                     page_of p <> []))
    /\ ((100 < AuditQueries.q_page_size q)%nat ->
        built = Errors.Raise Errors.ValidationError)
    /\ (AuditQueries.q_page_size q = 0%nat ->
        built = if (0 <? total)%nat
                then Errors.Raise Errors.ZeroDivisionError
                else Errors.Raise Errors.ValidationError).
Proof.
  intros db ctx sq q page_of total built. subst page_of total built.
  rewrite get_logs_eq. cbn [snd].
  set (rows := Audit.order_by Audit.desc
                 (List.filter (Terms.matching sq q) db)).
  set (T := List.length (List.filter (Terms.matching sq q) db)).
  set (ps := AuditQueries.q_page_size q) in *.
  split; [|split].
  - intros Hps.
    assert (Hlen : List.length rows = T) by apply length_order_by.
    assert (Hpage : forall p,
              fst (AuditQueries.get_logs db ctx sq (Terms.with_page q p)) <> []
              <-> ((Pos.to_nat p - 1) * ps < T)%nat).
    { intros p. rewrite get_logs_eq. cbn [fst].
      rewrite matching_with_page.
      cbn [Terms.with_page AuditQueries.q_page AuditQueries.q_page_size].
      fold ps. fold rows.
      rewrite <- length_zero_iff_nil, length_firstn, length_skipn, Hlen. lia. }
    pose proof (total_pages_bounds (Z.of_nat ps) (Z.of_nat T)
                  ltac:(lia) ltac:(lia)) as Hb.
    cbv zeta in Hb.
    eexists. split.
    { apply create_pagination_meta_Ok; lia. }
    cbn [Pagination.page Pagination.page_size Pagination.total_items
         Pagination.has_next Pagination.has_previous Pagination.total_pages].
    split; [reflexivity|]. split; [reflexivity|]. split; [reflexivity|].
    split; [|split; [|split]].
    + rewrite Z.ltb_lt, Hpage, Pos2Nat.inj_succ. nia.
    + rewrite Z.ltb_lt. lia.
    + exact Hb.
    + intros p. rewrite Hpage. nia.
  - intros Hps. unfold Pagination.create_pagination_meta, Pagination.floordiv.
    replace (Z.of_nat ps =? 0)%Z with false
      by (symmetry; apply Z.eqb_neq; lia).
    assert (Hinit : forall tp hn hp,
              Pagination.PaginationMeta_init (Z.pos (AuditQueries.q_page q))
                (Z.of_nat ps) (Z.of_nat T) tp hn hp
              = Errors.Raise Errors.ValidationError).
    { intros tp hn hp. unfold Pagination.PaginationMeta_init.
      replace (Z.of_nat ps <=? 100)%Z with false
        by (symmetry; apply Z.leb_gt; lia).
      now rewrite !andb_false_r. }
    destruct (0 <? Z.of_nat T)%Z; cbn [Errors.bind]; apply Hinit.
  - intros Hps. unfold Pagination.create_pagination_meta, Pagination.floordiv.
    rewrite Hps. change (Z.of_nat 0 =? 0)%Z with true.
    destruct T as [|T'].
    { change (0 <? Z.of_nat 0)%Z with false. cbn [Errors.bind].
      unfold Pagination.PaginationMeta_init.
      change (1 <=? Z.of_nat 0)%Z with false. rewrite andb_false_r.
      reflexivity. }
    replace (0 <? Z.of_nat (S T'))%Z with true
      by (symmetry; apply Z.ltb_lt; lia).
    reflexivity.
Qed.

Lemma pagination_meta_agrees_with_get_logs_witness :
  exists meta,
    Pagination.create_pagination_meta 1 1
      (Z.of_nat
         (snd (AuditQueries.get_logs Samples.interleaved
                 (Samples.in_org "org-a")
                 (OrgIsolation.build_org_scoped_query
                    (Samples.in_org "org-a") Samples.member)
                 (AuditQueries.mkLogQuery None None None None None None
                    None None 1 1))))
    = Errors.Ok meta
    /\ Pagination.has_next meta = true.
Proof.
  destruct (pagination_meta_agrees_with_get_logs Samples.interleaved
              (Samples.in_org "org-a")
              (OrgIsolation.build_org_scoped_query (Samples.in_org "org-a")
                 Samples.member)
              (AuditQueries.mkLogQuery None None None None None None
                 None None 1 1)) as [H _].
  destruct H as [meta [Hm [_ [_ [_ [Hn _]]]]]].
  - cbn. lia.
  - exists meta. split; [exact Hm|]. apply Hn. vm_compute. discriminate.
Defined.

Lemma get_logs_pages_tile_witness :
  concat
    (map (fun i =>
            fst (AuditQueries.get_logs Samples.interleaved
                   (Samples.in_org "org-a")
                   (OrgIsolation.build_org_scoped_query
                      (Samples.in_org "org-a") Samples.member)
                   (Terms.with_page
                      (AuditQueries.mkLogQuery None None None None None None
                         None None 1 1)
                      (Pos.of_succ_nat i))))
       (seq 0 2))
  = firstn (2 * 1)
      (reverse
         (List.filter
            (Terms.matching
               (OrgIsolation.build_org_scoped_query (Samples.in_org "org-a")
                  Samples.member)
               (AuditQueries.mkLogQuery None None None None None None
                  None None 1 1))
            Samples.interleaved)).
Proof.
  apply (get_logs_pages_tile Samples.interleaved (Samples.in_org "org-a")
           (OrgIsolation.build_org_scoped_query (Samples.in_org "org-a")
              Samples.member)
           (AuditQueries.mkLogQuery None None None None None None
              None None 1 1) 2).
  unfold Props.chronological. vm_compute. repeat constructor.
Defined.

Lemma verify_ignores_rows_past_limit_witness :
  Audit.verify_chain_integrity
    (Samples.one_event ++ skipn 1 Samples.system_then_tenant)%list
    Samples.no_org 1
  = Audit.verify_chain_integrity Samples.one_event Samples.no_org 1.
Proof.
  apply (verify_ignores_rows_past_limit Samples.one_event
           (skipn 1 Samples.system_then_tenant) Samples.no_org 1).
  - unfold Props.chronological. vm_compute. repeat constructor.
  - vm_compute. reflexivity.
Defined.

Section RecentFacts.
Import Py Errors Auth OrgIsolation Datetime Audit AuditQueries Props Terms.
Local Open Scope Z_scope.

Lemma security_clause_spec (cutoff : datetime) (l : AuditLog) :
  security_clause cutoff l
  = (cutoff <=? ts l) && (is_security_event l || is_high_severity l).
Proof.
  unfold security_clause, is_security_event, is_high_severity,
    security_types.
  cbn [existsb]. now rewrite orb_false_r, !orb_assoc.
Qed.

Lemma get_security_events_eq (db : Table) (now : datetime) (ctx : OrgContext)
    (sq : OrgScopedQuery) (hours : Z) (limit : nat) :
  get_security_events db now ctx sq hours limit
  = firstn limit
      (order_by desc
         (List.filter
            (fun l => security_clause (now - hours_us hours) l
                      && in_scope sq false (organization_id l)) db)).
Proof.
  unfold get_security_events, AuditLog_model.
  rewrite execute_scope_select, execute_where_eq, execute_nil, filter_filter.
  reflexivity.
Qed.

Lemma get_user_activity_eq (db : Table) (user_id : string) (ctx : OrgContext)
    (sq : OrgScopedQuery) (limit : nat) :
  get_user_activity db user_id ctx sq limit
  = firstn limit
      (order_by desc
         (List.filter
            (fun l =>
               (col_eq actor_id (Some user_id) l
                || (col_eq target_type (Some "user") l
                    && col_eq target_id (Some user_id) l))
               && in_scope sq false (organization_id l)) db)).
Proof.
  unfold get_user_activity, AuditLog_model.
  rewrite execute_scope_select, execute_where_eq, execute_nil, filter_filter.
  reflexivity.
Qed.

End RecentFacts.

(** X23. [get_security_events] and [get_user_activity] return at most
    [limit] rows of the table, newest first, all within the scope of the
    query helper. A security event is at most [hours] old and either its
    type begins with [auth.], [access.] or [admin.] or its severity is
    [error], [critical] or [alert]. A row of a user's activity has the
    user as actor or as the target of type [user]. *)
Theorem recent_reads_rows :
  forall (db : Audit.Table) (now : Datetime.datetime)
         (org_context : OrgIsolation.OrgContext)
         (scoped_query : OrgIsolation.OrgScopedQuery)
         (hours : Z) (user_id : string) (limit : nat),
    let events := AuditQueries.get_security_events db now org_context
                    scoped_query hours limit in
    let activity := AuditQueries.get_user_activity db user_id org_context
                      scoped_query limit in
    (List.length events <= limit)%nat
    /\ Terms.newest_first events
    /\ (forall l, In l events ->
          In l db
          /\ Terms.in_scope scoped_query false (Audit.organization_id l) = true
          /\ (now - AuditQueries.hours_us hours <= Audit.ts l)%Z
          /\ (AuditQueries.is_security_event l = true
              \/ AuditQueries.is_high_severity l = true))
    /\ (List.length activity <= limit)%nat
    /\ Terms.newest_first activity
    /\ (forall l, In l activity ->
          In l db
          /\ Terms.in_scope scoped_query false (Audit.organization_id l) = true
          /\ (Audit.actor_id l = Some user_id
              \/ (Audit.target_type l = Some "user"
                  /\ Audit.target_id l = Some user_id))).
Proof.
  intros db now ctx sq hours user_id limit events activity.
  subst events activity.
  rewrite get_security_events_eq, get_user_activity_eq.
  split; [|split; [|split; [|split; [|split]]]].
  - rewrite length_firstn. lia.
  - apply newest_first_firstn, order_by_desc_sorted.
  - intros l Hl. apply In_firstn_In, In_order_by, List.filter_In in Hl.
    destruct Hl as [Hin Hc]. apply andb_true_iff in Hc.
    destruct Hc as [Hc Hs]. rewrite security_clause_spec in Hc.
    apply andb_true_iff in Hc. destruct Hc as [Hcut Hsec].
    apply Z.leb_le in Hcut. apply orb_true_iff in Hsec.
    repeat split; assumption.
  - rewrite length_firstn. lia.
  - apply newest_first_firstn, order_by_desc_sorted.
  - intros l Hl. apply In_firstn_In, In_order_by, List.filter_In in Hl.
    destruct Hl as [Hin Hc]. apply andb_true_iff in Hc.
    destruct Hc as [Hc Hs]. split; [assumption|]. split; [assumption|].
    apply orb_true_iff in Hc. destruct Hc as [Hc | Hc].
    + left. now apply col_eq_eq in Hc.
    + right. apply andb_true_iff in Hc. destruct Hc as [H1 H2].
      split; now apply col_eq_eq.
Qed.

Section SummaryFacts.
Import Py Errors Auth OrgIsolation Datetime Audit AuditQueries Props Terms.

Lemma count_step_lookup (m : gmap string nat) (l : AuditLog) (c : string) :
  c <> "" ->
  (if truthy (event_category l)
   then <[ default "" (event_category l)
           := S (default 0%nat (m !! default "" (event_category l))) ]> m
   else m) !! c
  = if in_category c l then Some (S (default 0%nat (m !! c))) else m !! c.
Proof.
  intros Hne. unfold in_category.
  destruct (event_category l) as [k|]; cbn [truthy opt_str_eqb];
    [|reflexivity].
  destruct (String.eqb k c) eqn:E.
  - apply String.eqb_eq in E. subst k.
    assert (Ht : negb (String.eqb c "") = true)
      by (apply negb_true_iff, String.eqb_neq; assumption).
    rewrite Ht. cbn [from_option id]. now rewrite lookup_insert_eq.
  - apply String.eqb_neq in E.
    destruct (negb (String.eqb k "")); [|reflexivity].
    cbn [from_option id]. now rewrite lookup_insert_ne.
Qed.

Lemma count_fold_lookup (rows : list AuditLog) (m : gmap string nat)
    (c : string) :
  c <> "" ->
  fold_left
    (fun m l =>
       if truthy (event_category l)
       then let c := default "" (event_category l) in
            <[ c := S (default 0%nat (m !! c)) ]> m
       else m) rows m !! c
  = match List.length (List.filter (in_category c) rows) with
    | O => m !! c
    | S n => Some (S n + default 0%nat (m !! c))%nat
    end.
Proof.
  intros Hne. revert m. induction rows as [|l rows IH]; intros m;
    [reflexivity|].
  cbn [fold_left List.filter]. rewrite IH. cbn zeta.
  rewrite (count_step_lookup m l c Hne).
  destruct (in_category c l); cbn [List.length]; [|reflexivity].
  destruct (List.length (List.filter (in_category c) rows));
    cbn [from_option id]; [reflexivity|].
  unfold Datatypes.id. now rewrite Nat.add_succ_r.
Qed.

Lemma count_fold_lookup_empty (rows : list AuditLog) (m : gmap string nat) :
  m !! "" = None ->
  fold_left
    (fun m l =>
       if truthy (event_category l)
       then let c := default "" (event_category l) in
            <[ c := S (default 0%nat (m !! c)) ]> m
       else m) rows m !! "" = None.
Proof.
  revert m. induction rows as [|l rows IH]; intros m Hm; [exact Hm|].
  cbn [fold_left]. apply IH.
  destruct (event_category l) as [[|a k]|]; cbn; try assumption.
  now rewrite lookup_insert_ne.
Qed.

End SummaryFacts.

(** X24. The counts of [get_summary]. Failed and high-severity events
    are counted among the total; the dictionary of categories has no
    empty key and holds, for a category, the number of counted rows of
    that category, at least one and at most the total. The scoped query
    helper is never read: for a context whose organization id is absent
    or empty the total counts the rows of every organization in the
    period, while [get_logs] for the same principal, without override,
    returns only rows without organization. *)
Theorem get_summary_counts :
  forall (db : Audit.Table) (now : Datetime.datetime)
         (org_context : OrgIsolation.OrgContext)
         (scoped_query : OrgIsolation.OrgScopedQuery) (days : Z),
    let s := AuditQueries.get_summary db now org_context scoped_query days in
    let cutoff := (now - AuditQueries.days_us days)%Z in
    (AuditQueries.failed_events s <= AuditQueries.total_events s)%nat
    /\ (AuditQueries.high_severity_events s <= AuditQueries.total_events s)%nat
    /\ (forall c n,
          AuditQueries.by_category s !! c = Some n ->
          c <> ""
          /\ n = List.length
                   (List.filter (Terms.in_category c)
                      (AuditQueries.summary_rows db cutoff org_context))
          /\ (1 <= n <= AuditQueries.total_events s)%nat)
    /\ (forall scoped_query',
          AuditQueries.get_summary db now org_context scoped_query' days = s)
    /\ (Py.truthy (OrgIsolation.ctx_org_id org_context) = false ->
        AuditQueries.total_events s
        = List.length
            (List.filter (fun l => (cutoff <=? Audit.ts l)%Z) db))
    /\ (Py.truthy (OrgIsolation.ctx_org_id
                     (OrgIsolation.org_context scoped_query)) = false ->
        Auth.is_system_admin (OrgIsolation.user scoped_query)
          && OrgIsolation.is_override (OrgIsolation.org_context scoped_query)
        = false ->
        forall q l,
          In l (fst (AuditQueries.get_logs db org_context scoped_query q)) ->
          Audit.organization_id l = None).
Proof.
  intros db now ctx sq days s cutoff. subst s cutoff.
  unfold AuditQueries.get_summary.
  cbn [AuditQueries.failed_events AuditQueries.total_events
       AuditQueries.high_severity_events AuditQueries.by_category].
  split; [apply List.filter_length_le|].
  split; [apply List.filter_length_le|].
  split; [|split; [|split]].
  - intros c n Hn. unfold AuditQueries.count_by_category in Hn.
    destruct (string_dec c "") as [-> | Hne].
    + rewrite count_fold_lookup_empty in Hn by apply lookup_empty.
      discriminate.
    + rewrite (count_fold_lookup _ ∅ c Hne) in Hn. rewrite lookup_empty in Hn.
      pose proof (List.filter_length_le (Terms.in_category c)
                    (AuditQueries.summary_rows db
                       (now - AuditQueries.days_us days) ctx)) as Hle.
      destruct (List.length (List.filter (Terms.in_category c) _)) as [|k];
        [discriminate|].
      inversion Hn; subst n. cbn [from_option id]. unfold Datatypes.id.
      rewrite Nat.add_0_r. repeat split; try assumption; lia.
  - reflexivity.
  - intros Hf. unfold AuditQueries.summary_rows. rewrite Hf. f_equal.
    apply List.filter_ext. intros l. apply andb_true_r.
  - intros Hf Hadm q l Hl. rewrite get_logs_eq in Hl. cbn [fst] in Hl.
    apply In_firstn_In, In_skipn_In, In_order_by, List.filter_In in Hl.
    destruct Hl as [_ Hm]. unfold Terms.matching in Hm.
    apply andb_true_iff in Hm. destruct Hm as [Hs _].
    unfold Terms.in_scope in Hs. rewrite Hadm, Hf in Hs.
    now apply bool_decide_eq_true in Hs.
Qed.

Lemma get_summary_counts_witness :
  AuditQueries.total_events
    (AuditQueries.get_summary Samples.interleaved
       (Samples.t0 + 3 * Samples.second)%Z
       (OrgIsolation.mkOrgContext (Some "") None false None)
       (OrgIsolation.build_org_scoped_query
          (OrgIsolation.mkOrgContext (Some "") None false None)
          Cases.blank_org_member) 7) = 3%nat.
Proof.
  destruct (get_summary_counts Samples.interleaved
              (Samples.t0 + 3 * Samples.second)%Z
              (OrgIsolation.mkOrgContext (Some "") None false None)
              (OrgIsolation.build_org_scoped_query
                 (OrgIsolation.mkOrgContext (Some "") None false None)
                 Cases.blank_org_member) 7) as [_ [_ [_ [_ [H _]]]]].
  rewrite H by reflexivity. vm_compute. reflexivity.
Defined.

Section HelperFacts.
Import Py Errors Auth OrgIsolation Datetime Audit AuditQueries Props Terms.
Local Open Scope Z_scope.

Lemma create_log_ok (db : Table) (new_id : string) (now : datetime)
    (c : LogCall) :
  c_event_type c <> "" ->
  exists log, create_log db new_id now c = Ok (log, (db ++ [log])%list).
Proof.
  intros Hne. apply String.eqb_neq in Hne.
  unfold create_log, build_log. rewrite Hne. cbn [bind].
  eexists. reflexivity.
Qed.

Lemma create_log_empty_type (db : Table) (new_id : string) (now : datetime)
    (c : LogCall) :
  c_event_type c = "" ->
  create_log db new_id now c = Raise (ValueError "Event type is required").
Proof.
  intros He. unfold create_log, build_log. rewrite He. reflexivity.
Qed.

Lemma create_log_target db new_id now c log db' :
  create_log db new_id now c = Ok (log, db') ->
  actor_type log = match c_actor c with
                   | Some _ => Some "user"
                   | None => None
                   end
  /\ target_type log
     = (if truthy (c_target_type c) then c_target_type c else None)
  /\ target_id log
     = (if truthy (c_target_type c) then c_target_id c else None)
  /\ target_name log
     = (if truthy (c_target_type c) then c_target_name c else None)
  /\ description log
     = (if truthy (c_description c) then c_description c else None).
Proof.
  unfold create_log, build_log.
  destruct (String.eqb (c_event_type c) ""); [discriminate|].
  cbn [bind]. intros H. inversion H; subst; clear H.
  cbn [apply_defaults set_hashes actor_type target_type target_id
       target_name description].
  now destruct (c_actor c).
Qed.

Lemma own_row_in_scope (user : CurrentUser) (header : option string)
    (ctx : OrgContext) :
  truthy header = false ->
  get_org_context user header = Ok ctx ->
  in_scope (build_org_scoped_query ctx user) false
    (if truthy (org_id user) then org_id user else None) = true.
Proof.
  intros Hh Hctx. unfold get_org_context in Hctx. rewrite Hh in Hctx.
  inversion Hctx; subst ctx; clear Hctx.
  unfold in_scope.
  cbn [build_org_scoped_query org_context OrgIsolation.user ctx_org_id
       is_override].
  rewrite andb_false_r.
  destruct (truthy (org_id user)).
  - apply orb_true_iff. left. now apply opt_str_eqb_eq.
  - now apply bool_decide_eq_true.
Qed.

End HelperFacts.

(** X25. The row of [log_access_denied]. When the call returns, the
    table has grown by the returned row, which is a failure of type
    [access.denied] and severity [warning], with the refused principal
    as actor, under the principal's organization. On a table written at
    increasing times, the principal's own next [get_security_events]
    without override, over a period that reaches back to the refusal,
    lists that row first. *)
Theorem log_access_denied_is_reported :
  forall (db : Audit.Table) (new_id : string) (now : Datetime.datetime)
         (user : Auth.CurrentUser) (resource_type : string)
         (resource_id : option string) (reason : string)
         (ip_address : option string)
         (log : Audit.AuditLog) (db' : Audit.Table),
    AuditQueries.log_access_denied db new_id now user resource_type
      resource_id reason ip_address
    = Errors.Ok (log, db') ->
    db' = (db ++ [log])%list
    /\ Audit.event_type log = "access.denied"
    /\ AuditQueries.is_security_event log = true
    /\ AuditQueries.is_failure log = true
    /\ Audit.severity log = "warning"
    /\ Audit.actor_id log = Some (Auth.sub user)
    /\ Audit.organization_id log
       = (if Py.truthy (Auth.org_id user) then Auth.org_id user else None)
    /\ (forall ctx hours limit now',
          Props.chronological db ->
          List.Forall (fun l => (Audit.ts l < now)%Z) db ->
          OrgIsolation.get_org_context user None = Errors.Ok ctx ->
          (now' - AuditQueries.hours_us hours <= now)%Z ->
          head (AuditQueries.get_security_events db' now' ctx
                  (OrgIsolation.build_org_scoped_query ctx user)
                  hours (S limit)) = Some log).
Proof.
  intros db new_id now user rt rid reason ip log db'.
  unfold AuditQueries.log_access_denied.
  set (c := AuditQueries.log_call "access.denied" user (Some rt) rid None
              (Auth.org_id user) (Some reason) Audit.FAILURE "warning"
              None None ip None).
  intros Hlog.
  pose proof (create_log_fields _ _ _ _ _ _ Hlog)
    as [_ [Het [_ [Hsev [Hout [Hact _]]]]]].
  pose proof (create_log_inv _ _ _ _ _ _ Hlog)
    as [pre [_ [_ [_ [Hts [_ [Horg [_ Hdb]]]]]]]].
  cbn in Het, Hsev, Hout, Hact, Horg.
  assert (Hsec : AuditQueries.is_security_event log = true).
  { unfold AuditQueries.is_security_event. rewrite Het. reflexivity. }
  assert (Hfail : AuditQueries.is_failure log = true).
  { unfold AuditQueries.is_failure. rewrite Hout. reflexivity. }
  repeat (split; [assumption|]).
  intros ctx hours limit now' Hch Hlt Hctx Hcut. rewrite Hdb.
  rewrite get_security_events_eq.
  set (P := fun l : Audit.AuditLog =>
              AuditQueries.security_clause (now' - AuditQueries.hours_us hours) l
              && Terms.in_scope (OrgIsolation.build_org_scoped_query ctx user)
                   false (Audit.organization_id l)).
  assert (Hts' : Audit.ts log = now) by (unfold Audit.ts; now rewrite Hts).
  assert (HP : P log = true).
  { unfold P. rewrite security_clause_spec, Hsec, Hts', Horg.
    rewrite (own_row_in_scope user None ctx eq_refl Hctx).
    rewrite orb_true_l, !andb_true_r. now apply Z.leb_le. }
  assert (Hch' : Props.chronological (db ++ [log])%list).
  { apply chronological_snoc; [assumption|]. now rewrite Hts'. }
  rewrite order_by_desc_chronological by now apply chronological_filter.
  rewrite List.filter_app. cbn [List.filter]. rewrite HP.
  rewrite reverse_app. reflexivity.
Qed.

Lemma log_access_denied_is_reported_witness :
  exists log,
    AuditQueries.log_access_denied [] "id-1" Samples.t0 Samples.member
      "team" (Some "t-9") "Permission denied" None
    = Errors.Ok (log, [log])
    /\ Audit.actor_id log = Some "auth0|u1"
    /\ head (AuditQueries.get_security_events [log]
               (Samples.t0 + Samples.second)%Z (Samples.in_org "org-1")
               (OrgIsolation.build_org_scoped_query (Samples.in_org "org-1")
                  Samples.member) 24 1) = Some log.
Proof.
  eexists. split; [reflexivity|].
  match goal with
  | |- Audit.actor_id ?l = _ /\ _ =>
    destruct (log_access_denied_is_reported [] "id-1" Samples.t0
                Samples.member "team" (Some "t-9") "Permission denied" None
                l [l] eq_refl)
      as [_ [_ [_ [_ [_ [H1 [_ H2]]]]]]]
  end.
  split; [exact H1|].
  apply (H2 (Samples.in_org "org-1") 24%Z 0%nat
            (Samples.t0 + Samples.second)%Z).
  - constructor.
  - constructor.
  - reflexivity.
  - vm_compute. discriminate.
Defined.

(** X26. The rows of [log_auth_event], [log_user_action] and
    [log_team_action]. With an empty event type none of them returns a
    row, and the two action helpers raise [ValueError]. When a helper
    returns, the table has grown by the returned row, which has the
    given event type, the acting principal as actor of type [user], that
    principal's organization, never one taken from the target, and the
    target of the helper. An authentication event is stored as a failure
    with severity [warning] exactly when [success] is false, and names
    the principal as its own target; the actions are stored as successes
    of severity [info]. *)
Theorem logging_helpers_rows :
  forall (db : Audit.Table) (new_id : string) (now : Datetime.datetime)
         (event_type : string) (actor : Auth.CurrentUser) (success : bool)
         (ip_address user_agent : option string)
         (metadata changes : option (gmap string Py.json))
         (target : string) (target_name description : option string),
    let auth := AuditQueries.log_auth_event db new_id now event_type actor
                  success ip_address user_agent metadata in
    let by_user := AuditQueries.log_user_action db new_id now event_type actor
                     target target_name changes description in
    let by_team := AuditQueries.log_team_action db new_id now event_type actor
                     target target_name changes description in
    let filed := fun (r : Errors.result (Audit.AuditLog * Audit.Table))
                     (kind : string) (target_id : string) =>
      forall log db',
        r = Errors.Ok (log, db') ->
        db' = (db ++ [log])%list
        /\ event_type <> ""
        /\ Audit.event_type log = event_type
        /\ Audit.actor_id log = Some (Auth.sub actor)
        /\ Audit.actor_type log = Some "user"
        /\ Audit.organization_id log
           = (if Py.truthy (Auth.org_id actor) then Auth.org_id actor
              else None)
        /\ Audit.target_type log = Some kind
        /\ Audit.target_id log = Some target_id in
    (event_type = "" ->
     Errors.is_raise auth = true
     /\ by_user = Errors.Raise (Errors.ValueError "Event type is required")
     /\ by_team = Errors.Raise (Errors.ValueError "Event type is required"))
    /\ filed auth "user" (Auth.sub actor)
    /\ filed by_user "user" target
    /\ filed by_team "team" target
    /\ (forall log db', auth = Errors.Ok (log, db') ->
          AuditQueries.is_failure log = negb success
          /\ Audit.severity log = (if success then "info" else "warning"))
    /\ (forall log db', by_user = Errors.Ok (log, db')
                        \/ by_team = Errors.Ok (log, db') ->
          AuditQueries.is_failure log = false
          /\ Audit.severity log = "info").
Proof.
  intros db new_id now event_type actor success ip ua metadata changes
    target target_name description auth by_user by_team filed.
  subst auth by_user by_team filed.
  unfold AuditQueries.log_auth_event, AuditQueries.log_user_action,
    AuditQueries.log_team_action.
  assert (Hfiled : forall c kind tid,
            Audit.c_event_type c = event_type ->
            Audit.c_actor c = Some actor ->
            Audit.c_organization_id c = Auth.org_id actor ->
            Audit.c_target_type c = Some kind -> kind <> "" ->
            Audit.c_target_id c = Some tid ->
            forall log db',
              Audit.create_log db new_id now c = Errors.Ok (log, db') ->
              db' = (db ++ [log])%list
              /\ event_type <> ""
              /\ Audit.event_type log = event_type
              /\ Audit.actor_id log = Some (Auth.sub actor)
              /\ Audit.actor_type log = Some "user"
              /\ Audit.organization_id log
                 = (if Py.truthy (Auth.org_id actor) then Auth.org_id actor
                    else None)
              /\ Audit.target_type log = Some kind
              /\ Audit.target_id log = Some tid).
  { intros c kind tid Het Hact Horg Hkind Hk Htid log db' Hlog.
    pose proof (create_log_fields _ _ _ _ _ _ Hlog)
      as [Hne [Het' [_ [_ [_ [Hact' _]]]]]].
    pose proof (create_log_inv _ _ _ _ _ _ Hlog)
      as [pre [_ [_ [_ [_ [_ [Horg' [_ Hdb]]]]]]]].
    pose proof (create_log_target _ _ _ _ _ _ Hlog)
      as [Hat [Htt [Hti _]]].
    assert (Htr : Py.truthy (Some kind) = true)
      by (apply truthy_Some; now exists kind).
    rewrite Hkind, Htr in Htt, Hti. rewrite Hact in Hat, Hact'.
    rewrite Horg in Horg'.
    repeat split; try assumption; congruence. }
  split.
  - intros He. split; [|split]; try now apply create_log_empty_type.
    rewrite create_log_empty_type by exact He. reflexivity.
  - split; [apply Hfiled; (reflexivity || discriminate)|].
    split; [apply Hfiled; (reflexivity || discriminate)|].
    split; [apply Hfiled; (reflexivity || discriminate)|].
    split.
    + intros log db' H.
      pose proof (create_log_fields _ _ _ _ _ _ H)
        as [_ [_ [_ [Hsev [Hout _]]]]].
      cbn in Hsev, Hout. unfold AuditQueries.is_failure.
      rewrite Hout, Hsev. now destruct success.
    + intros log db' [H | H];
        pose proof (create_log_fields _ _ _ _ _ _ H)
          as [_ [_ [_ [Hsev [Hout _]]]]];
        cbn in Hsev, Hout; unfold AuditQueries.is_failure;
        rewrite Hout, Hsev; split; reflexivity.
Qed.

(** ** Compliance reporting *)

Section RecommendationFacts.
Import Py Compliance ComplianceReport Props Terms.
Local Open Scope Z_scope.

Lemma In_insert_rec (x y : Recommendation) (l : list Recommendation) :
  In x (insert_rec y l) <-> x = y \/ In x l.
Proof.
  induction l as [|z l IH]; cbn; [intuition congruence|].
  destruct (priority_order (priority y) <=? priority_order (priority z));
    cbn; [intuition congruence|].
  rewrite IH. intuition congruence.
Qed.

Lemma insert_rec_sorted (x : Recommendation) (l : list Recommendation) :
  by_priority l -> by_priority (insert_rec x l).
Proof.
  unfold by_priority. induction 1 as [|y l Hs IH Hf]; cbn.
  - repeat constructor.
  - destruct (Z.leb_spec (priority_order (priority x))
                (priority_order (priority y))).
    + constructor; [now constructor|]. constructor; [assumption|].
      rewrite List.Forall_forall in Hf |- *. intros z Hz.
      specialize (Hf z Hz). cbn in Hf. lia.
    + constructor; [assumption|].
      apply List.Forall_forall. intros z Hz. apply In_insert_rec in Hz.
      destruct Hz as [-> | Hz]; [lia|].
      rewrite List.Forall_forall in Hf. now apply Hf.
Qed.

Lemma sort_by_priority_sorted (l : list Recommendation) :
  by_priority (sort_by_priority l).
Proof.
  unfold sort_by_priority. induction l as [|x l IH]; cbn [fold_right].
  - constructor.
  - now apply insert_rec_sorted.
Qed.

(** The sort is stable: it keeps the order of the recommendations of one
    priority. *)
Lemma filter_insert_rec (p : string) (x : Recommendation)
    (l : list Recommendation) :
  List.filter (has_priority p) (insert_rec x l)
  = if has_priority p x then x :: List.filter (has_priority p) l
    else List.filter (has_priority p) l.
Proof.
  induction l as [|y l IH]; cbn [insert_rec List.filter].
  - reflexivity.
  - destruct (Z.leb_spec (priority_order (priority x))
                (priority_order (priority y))) as [Hle | Hlt].
    + cbn [List.filter]. reflexivity.
    + cbn [List.filter]. rewrite IH.
      destruct (has_priority p x) eqn:Ex; [|reflexivity].
      destruct (has_priority p y) eqn:Ey; [|reflexivity].
      unfold has_priority in Ex, Ey.
      apply String.eqb_eq in Ex. apply String.eqb_eq in Ey.
      rewrite Ex, Ey in Hlt. lia.
Qed.

Lemma filter_sort_by_priority (p : string) (l : list Recommendation) :
  List.filter (has_priority p) (sort_by_priority l)
  = List.filter (has_priority p) l.
Proof.
  unfold sort_by_priority. induction l as [|x l IH]; [reflexivity|].
  cbn [fold_right List.filter]. rewrite filter_insert_rec, IH.
  reflexivity.
Qed.

Lemma In_sort_by_priority (x : Recommendation) (l : list Recommendation) :
  In x (sort_by_priority l) <-> In x l.
Proof.
  unfold sort_by_priority. induction l as [|y l IH]; cbn [fold_right];
    [reflexivity|].
  rewrite In_insert_rec, IH. cbn. intuition congruence.
Qed.

Lemma length_insert_rec (x : Recommendation) (l : list Recommendation) :
  List.length (insert_rec x l) = S (List.length l).
Proof.
  induction l as [|y l IH]; cbn; [reflexivity|].
  destruct (_ <=? _); cbn; [reflexivity | now rewrite IH].
Qed.

Lemma length_sort_by_priority (l : list Recommendation) :
  List.length (sort_by_priority l) = List.length l.
Proof.
  unfold sort_by_priority. induction l as [|y l IH]; [reflexivity|].
  cbn [fold_right]. now rewrite length_insert_rec, IH.
Qed.

Lemma recommend_priority (c : ControlResult) (r : Recommendation) :
  recommend c = Some r ->
  rec_control_id r = control_id c
  /\ ((status c = "non_compliant" /\ priority r = "high")
      \/ (status c = "partial" /\ priority r = "medium")
      \/ (status c = "pending_review" /\ priority r = "low")).
Proof.
  unfold recommend.
  destruct (String.eqb (status c) (ControlStatus_value NON_COMPLIANT)) eqn:E1.
  - intros H. inversion H; subst r. apply String.eqb_eq in E1.
    split; [reflexivity | left; now split].
  - destruct (String.eqb (status c) (ControlStatus_value PARTIAL)) eqn:E2.
    + intros H. inversion H; subst r. apply String.eqb_eq in E2.
      split; [reflexivity | right; left; now split].
    + destruct (String.eqb (status c) (ControlStatus_value PENDING_REVIEW))
        eqn:E3; [|discriminate].
      intros H. inversion H; subst r. apply String.eqb_eq in E3.
      split; [reflexivity | right; right; now split].
Qed.

Lemma evaluated_status db f ctx s e now (c : ControlResult) :
  In c (_evaluate_controls db f ctx s e now) ->
  status c <> "non_compliant"
  /\ status c
     = ControlStatus_value
         (_determine_control_status (control_id c) (evidence_count c)).
Proof.
  unfold _evaluate_controls. intros Hc.
  apply in_flat_map in Hc. destruct Hc as [cat [_ Hc]].
  apply in_map_iff in Hc. destruct Hc as [control [<- _]].
  unfold evaluate_control.
  cbn [status control_id evidence_count].
  split; [|reflexivity].
  unfold _determine_control_status.
  repeat match goal with
         | |- context [if ?b then _ else _] => destruct b
         end; discriminate.
Qed.

End RecommendationFacts.

(** X27. [_generate_recommendations] gives one recommendation for each
    control whose status is [non_compliant], [partial] or
    [pending_review] and none for the others, in the order [high],
    [medium], [low]; recommendations of one priority keep the order of
    their controls. For the controls [_evaluate_controls] produces no
    recommendation is ever [high], since no evaluated control is
    [non_compliant]. *)
Theorem recommendations_sorted_and_complete :
  forall (controls_status : list Compliance.ControlResult),
    let recs := ComplianceReport._generate_recommendations controls_status in
    Terms.by_priority recs
    /\ (forall r, In r recs <->
          exists c, In c controls_status
                    /\ ComplianceReport.recommend c = Some r)
    /\ List.length recs
       = List.length
           (List.filter
              (fun c => Py.contains (Compliance.status c)
                          ["non_compliant"; "partial"; "pending_review"])
              controls_status)
    /\ (forall p, List.filter (Terms.has_priority p) recs
                  = List.filter (Terms.has_priority p)
                      (omap ComplianceReport.recommend controls_status))
    /\ (forall db framework ctx s e now r,
          In r (ComplianceReport._generate_recommendations
                  (Compliance._evaluate_controls db framework ctx s e now)) ->
          ComplianceReport.priority r = "medium"
          \/ ComplianceReport.priority r = "low").
Proof.
  intros cs recs. subst recs. unfold ComplianceReport._generate_recommendations.
  assert (Hin : forall l r,
            In r (ComplianceReport.sort_by_priority
                    (omap ComplianceReport.recommend l))
            <-> exists c, In c l /\ ComplianceReport.recommend c = Some r).
  { intros l r. rewrite In_sort_by_priority.
    rewrite <- list_elem_of_In, list_elem_of_omap.
    split; intros [c [H1 H2]]; exists c; split; try assumption;
      now apply list_elem_of_In. }
  split; [apply sort_by_priority_sorted|].
  split; [apply Hin|].
  split; [|split].
  - rewrite length_sort_by_priority.
    induction cs as [|c cs IH]; [reflexivity|].
    cbn [omap list_omap List.filter]. unfold ComplianceReport.recommend at 1.
    cbn [Py.contains existsb Compliance.ControlStatus_value].
    fold (omap ComplianceReport.recommend cs).
    destruct (String.eqb (Compliance.status c) "non_compliant");
      [cbn [orb List.length]; now rewrite IH|].
    destruct (String.eqb (Compliance.status c) "partial");
      [cbn [orb List.length]; now rewrite IH|].
    destruct (String.eqb (Compliance.status c) "pending_review");
      cbn [orb List.length]; now rewrite IH.
  - intros p. apply filter_sort_by_priority.
  - intros db f ctx s e now r Hr. apply Hin in Hr.
    destruct Hr as [c [Hc Hrec]].
    apply evaluated_status in Hc. destruct Hc as [Hnc _].
    apply recommend_priority in Hrec.
    destruct Hrec as [_ [[H _] | [[_ H] | [_ H]]]];
      [contradiction | now left | now right].
Qed.

Section ReadinessFacts.
Import Py OrgIsolation Datetime Compliance ComplianceReport Props Terms.
Local Open Scope Z_scope.

Lemma count_evidence_outside (db : Audit.Table) (ctx : OrgContext)
    (s e : datetime) (types : list string) :
  (forall l, In l db -> Audit.ts l < s \/ e < Audit.ts l) ->
  count_evidence db ctx s e types = 0.
Proof.
  intros H. unfold count_evidence.
  induction db as [|l db IH]; [reflexivity|].
  cbn [List.filter].
  assert (Hl : (s <=? Audit.ts l) && (Audit.ts l <=? e) = false).
  { destruct (H l (or_introl eq_refl)) as [Hlt | Hlt].
    - destruct (Z.leb_spec s (Audit.ts l)); [lia | reflexivity].
    - destruct (Z.leb_spec (Audit.ts l) e); [lia|]. apply andb_false_r. }
  rewrite Hl. cbn [andb]. apply IH. intros l' Hl'. apply H. now right.
Qed.

Lemma evaluate_controls_outside (db : Audit.Table) (f : ComplianceFramework)
    (ctx : OrgContext) (s e now : datetime) (c : ControlResult) :
  (forall l, In l db -> Audit.ts l < s \/ e < Audit.ts l) ->
  In c (_evaluate_controls db f ctx s e now) ->
  status c = "not_applicable".
Proof.
  intros H Hc. unfold _evaluate_controls in Hc.
  apply in_flat_map in Hc. destruct Hc as [cat [_ Hc]].
  apply in_map_iff in Hc. destruct Hc as [control [<- _]].
  unfold evaluate_control. cbn [status].
  destruct (event_types_of (ctl_id control)); [reflexivity|].
  now rewrite count_evidence_outside.
Qed.

Lemma accumulate_not_applicable (cs : list ControlResult) (acc : Q * Q) :
  (forall c, In c cs -> status c = "not_applicable") ->
  fold_left accumulate cs acc = acc.
Proof.
  revert acc. induction cs as [|c cs IH]; intros acc H; [reflexivity|].
  cbn [fold_left]. unfold accumulate at 2.
  rewrite (H c (or_introl eq_refl)). cbn [weights_get].
  change (weights_get "not_applicable") with (@None Q).
  apply IH. intros c' Hc'. apply H. now right.
Qed.

Lemma score_not_applicable (cs : list ControlResult) :
  cs <> [] ->
  (forall c, In c cs -> status c = "not_applicable") ->
  _calculate_compliance_score cs = 100%Q.
Proof.
  intros Hne H. unfold _calculate_compliance_score.
  destruct cs as [|c cs]; [contradiction|].
  now rewrite accumulate_not_applicable.
Qed.

Lemma filter_disjoint_length {A : Type} (f g : A -> bool) (l : list A) :
  (forall x, f x = true -> g x = false) ->
  (List.length (List.filter f l) + List.length (List.filter g l)
   <= List.length l)%nat.
Proof.
  intros H. induction l as [|x l IH]; cbn; [lia|].
  destruct (f x) eqn:Ef; [rewrite (H x Ef)|destruct (g x)]; cbn; lia.
Qed.

Lemma filter_none_length {A : Type} (f : A -> bool) (l : list A) :
  (forall x, In x l -> f x = false) ->
  List.length (List.filter f l) = 0%nat.
Proof.
  intros H. induction l as [|x l IH]; [reflexivity|]. cbn.
  rewrite (H x (or_introl eq_refl)). apply IH.
  intros y Hy. apply H. now right.
Qed.

End ReadinessFacts.

(** X28. [calculate_audit_readiness]. The compliant controls and those
    that need attention never outnumber the controls. A framework
    without a catalog is rated [Not Ready] with score 0 and no control.
    A framework with a catalog and no audit row in the last 90 days is
    rated [Audit Ready], green, with score 100, although none of its
    controls is compliant. Neither rating depends on the rounding. *)
Theorem audit_readiness_cases :
  forall (db : Audit.Table)
         (now now' : Datetime.datetime) (f : Compliance.ComplianceFramework)
         (org_context : OrgIsolation.OrgContext),
    let r := ComplianceReport.calculate_audit_readiness db now now'
               f org_context in
    (ComplianceReport.summary_compliant r
     + ComplianceReport.summary_needs_attention r
     <= ComplianceReport.summary_total_controls r)%nat
    /\ (Compliance.FRAMEWORK_CONTROLS_get f = [] ->
        ComplianceReport.score r = 0%Q
        /\ ComplianceReport.readiness_level r = "Not Ready"
        /\ ComplianceReport.readiness_color r = "red"
        /\ ComplianceReport.summary_total_controls r = 0%nat)
    /\ (Compliance.FRAMEWORK_CONTROLS_get f <> [] ->
        (forall l, In l db ->
           (Audit.ts l < now - AuditQueries.days_us 90)%Z
           \/ (now < Audit.ts l)%Z) ->
        ComplianceReport.score r = 100%Q
        /\ ComplianceReport.readiness_level r = "Audit Ready"
        /\ ComplianceReport.readiness_color r = "green"
        /\ ComplianceReport.summary_compliant r = 0%nat
        /\ ComplianceReport.summary_needs_attention r = 0%nat
        /\ (0 < ComplianceReport.summary_total_controls r)%nat).
Proof.
  intros db now now' f ctx r. subst r.
  unfold ComplianceReport.calculate_audit_readiness.
  set (cs := Compliance._evaluate_controls db f ctx
               (now - AuditQueries.days_us 90)%Z now now).
  split; [|split].
  - destruct (if Qle_bool 90 _ then _ else _) as [level color].
    cbn [ComplianceReport.summary_compliant
         ComplianceReport.summary_needs_attention
         ComplianceReport.summary_total_controls].
    apply filter_disjoint_length. intros c Hc.
    apply String.eqb_eq in Hc. rewrite Hc. reflexivity.
  - intros Hf.
    assert (Hcs : cs = []).
    { subst cs. unfold Compliance._evaluate_controls. now rewrite Hf. }
    rewrite Hcs. cbn. repeat split.
  - intros Hf Hout.
    assert (Hna : forall c, In c cs -> Compliance.status c = "not_applicable")
      by (intros c Hc;
          now apply (evaluate_controls_outside db f ctx _ now now c Hout)).
    assert (Hne : cs <> []).
    { subst cs. destruct f; try contradiction; discriminate. }
    rewrite (score_not_applicable cs Hne Hna).
    change (Qle_bool 90 100) with true. cbv iota beta.
    cbn [ComplianceReport.score ComplianceReport.readiness_level
         ComplianceReport.readiness_color
         ComplianceReport.summary_compliant
         ComplianceReport.summary_needs_attention
         ComplianceReport.summary_total_controls].
    split; [reflexivity|]. split; [reflexivity|]. split; [reflexivity|].
    split; [|split].
    + apply filter_none_length. intros c Hc. now rewrite (Hna c Hc).
    + apply filter_none_length. intros c Hc. now rewrite (Hna c Hc).
    + destruct cs; [contradiction | cbn; lia].
Qed.

Lemma audit_readiness_cases_witness :
  ComplianceReport.readiness_level
    (ComplianceReport.calculate_audit_readiness
       Samples.interleaved (Samples.t0 + 100 * AuditQueries.days_us 1)%Z
       (Samples.t0 + 100 * AuditQueries.days_us 1)%Z Compliance.SOC2
       (Samples.in_org "org-a"))
  = "Audit Ready".
Proof.
  destruct (audit_readiness_cases Samples.interleaved
              (Samples.t0 + 100 * AuditQueries.days_us 1)%Z
              (Samples.t0 + 100 * AuditQueries.days_us 1)%Z Compliance.SOC2
              (Samples.in_org "org-a")) as [_ [_ H]].
  apply H.
  - discriminate.
  - intros l Hl. left. vm_compute in Hl.
    destruct Hl as [<- | [<- | [<- | []]]]; vm_compute; reflexivity.
Defined.

Section AuditSummaryFacts.
Import Py OrgIsolation Datetime Compliance ComplianceReport Props Terms.

Lemma filter_union_length {A : Type} (f g h : A -> bool) (l : list A) :
  (forall x, h x = f x || g x) ->
  (forall x, f x = true -> g x = false) ->
  List.length (List.filter h l)
  = (List.length (List.filter f l) + List.length (List.filter g l))%nat.
Proof.
  intros Hh Hd. induction l as [|x l IH]; [reflexivity|]. cbn.
  rewrite Hh. destruct (f x) eqn:Ef; [rewrite (Hd x Ef)|destruct (g x)];
    cbn; lia.
Qed.

Lemma filter_implies_length {A : Type} (f g : A -> bool) (l : list A) :
  (forall x, f x = true -> g x = true) ->
  (List.length (List.filter f l) <= List.length (List.filter g l))%nat.
Proof.
  intros H. induction l as [|x l IH]; cbn; [lia|].
  destruct (f x) eqn:Ef; [rewrite (H x Ef)|destruct (g x)]; cbn; lia.
Qed.

End AuditSummaryFacts.

(** X29. The counters of [_get_audit_summary] are nested: failed
    authentications and refused accesses are counted apart, both among
    the security events, and these among all events of the period. The
    evidence [_evaluate_controls] counts for control [CC7.2] over the
    same period and context is the sum of the first two counters. *)
Theorem audit_summary_counters :
  forall (db : Audit.Table) (org_context : OrgIsolation.OrgContext)
         (start_date end_date : Datetime.datetime),
    let a := ComplianceReport._get_audit_summary db org_context start_date
               end_date in
    (ComplianceReport.failed_authentications a
     + ComplianceReport.access_denied_events a
     <= ComplianceReport.security_events a)%nat
    /\ (ComplianceReport.security_events a
        <= ComplianceReport.total_events a)%nat
    /\ (ComplianceReport.total_events a <= List.length db)%nat
    /\ Compliance.count_evidence db org_context start_date end_date
         (Compliance.event_types_of "CC7.2")
       = Z.of_nat (ComplianceReport.failed_authentications a
                   + ComplianceReport.access_denied_events a).
Proof.
  intros db ctx s e a. subst a. unfold ComplianceReport._get_audit_summary.
  cbn [ComplianceReport.failed_authentications
       ComplianceReport.access_denied_events
       ComplianceReport.security_events ComplianceReport.total_events].
  unfold ComplianceReport.count_where.
  set (base := ComplianceReport.base_conditions ctx s e).
  set (failed := fun l : Audit.AuditLog =>
                   base l && String.eqb (Audit.event_type l) "auth.login.failed").
  set (denied := fun l : Audit.AuditLog =>
                   base l && String.eqb (Audit.event_type l) "access.denied").
  assert (Hdisj : forall l, failed l = true -> denied l = false).
  { intros l Hl. unfold failed, denied in *.
    apply andb_true_iff in Hl. destruct Hl as [Hb Ht].
    apply String.eqb_eq in Ht. rewrite Hb, Ht. reflexivity. }
  split; [|split; [|split]].
  - rewrite <- (filter_union_length failed denied
                  (fun l => failed l || denied l) db
                  (fun l => eq_refl) Hdisj).
    apply filter_implies_length. intros l Hl. unfold failed, denied in Hl.
    apply orb_true_iff in Hl.
    destruct Hl as [Hl | Hl]; apply andb_true_iff in Hl;
      destruct Hl as [Hb Ht]; apply String.eqb_eq in Ht;
      rewrite Hb, Ht; reflexivity.
  - apply filter_implies_length. intros l Hl.
    apply andb_true_iff in Hl. tauto.
  - apply List.filter_length_le.
  - unfold Compliance.count_evidence. f_equal.
    rewrite <- (filter_union_length failed denied
                  (fun l => failed l || denied l) db
                  (fun l => eq_refl) Hdisj).
    f_equal. apply List.filter_ext. intros l.
    unfold failed, denied, base, ComplianceReport.base_conditions.
    change (Compliance.event_types_of "CC7.2")
      with ["access.denied"; "auth.login.failed"].
    cbn [Py.contains existsb].
    destruct ((s <=? Audit.ts l)%Z && (Audit.ts l <=? e)%Z);
      destruct (if Py.truthy (OrgIsolation.ctx_org_id ctx)
                then Audit.org_is (OrgIsolation.ctx_org_id ctx) l else true);
      destruct (String.eqb (Audit.event_type l) "access.denied");
      destruct (String.eqb (Audit.event_type l) "auth.login.failed");
      reflexivity.
Qed.

Section ScoreBoundFacts.
Import Py OrgIsolation Datetime Compliance ComplianceReport Props Terms.

Lemma weight_fold_bounds (cs : list ControlResult) :
  (forall c, In c cs -> (1 # 4 <= weight_of c <= 1)%Q) ->
  forall w s,
    let W := fold_left (fun acc _ => (acc + 1)%Q) cs w in
    let S := fold_left (fun acc c => (acc + weight_of c)%Q) cs s in
    (s + (W - w) * (1 # 4) <= S /\ S <= s + (W - w))%Q.
Proof.
  induction cs as [|c cs IH]; intros H w s; cbn [fold_left].
  - cbv zeta. split; lra.
  - cbv zeta.
    assert (Hc := H c (or_introl eq_refl)).
    assert (H' : forall c', In c' cs -> (1 # 4 <= weight_of c' <= 1)%Q)
      by (intros c' Hc'; apply H; now right).
    specialize (IH H' (w + 1)%Q (s + weight_of c)%Q). cbv zeta in IH.
    split; lra.
Qed.

Lemma evaluated_weight (db : Audit.Table) (f : ComplianceFramework)
    (ctx : OrgContext) (s e now : datetime) (c : ControlResult) :
  In c (applicable (_evaluate_controls db f ctx s e now)) ->
  (1 # 4 <= weight_of c <= 1)%Q /\ (0 < evidence_count c)%Z.
Proof.
  unfold applicable. intros Hc. apply List.filter_In in Hc.
  destruct Hc as [Hc Hna]. apply evaluated_status in Hc.
  destruct Hc as [_ Hst]. rewrite Hst in Hna. unfold weight_of.
  rewrite Hst. unfold _determine_control_status in *.
  destruct (100 <=? evidence_count c)%Z eqn:E1;
    [cbn; split; [split; lra | lia]|].
  destruct (10 <=? evidence_count c)%Z eqn:E2;
    [cbn; split; [split; lra | lia]|].
  destruct (0 <? evidence_count c)%Z eqn:E3; [|discriminate].
  cbn. split; [split; lra | lia].
Qed.

End ScoreBoundFacts.

(** X30. The score of an evaluation. Only controls with evidence are
    counted, and each weighs at least a quarter, a control with evidence
    never being [non_compliant]: the sum of the weights lies between a
    quarter of the number of counted controls and that number. When a
    control is counted, the score lies between 25 and 100, and it is off
    the exact percentage of the one over the other by at most 0.005 and
    the error of the floating-point operations, which is below one part
    in ten to the 13. *)
Theorem evaluated_score_bounds :
  forall (db : Audit.Table)
         (f : Compliance.ComplianceFramework)
         (org_context : OrgIsolation.OrgContext)
         (start_date end_date now : Datetime.datetime),
    let cs := Compliance._evaluate_controls db f org_context start_date
                end_date now in
    let counted := Props.applicable cs in
    let score := Compliance._calculate_compliance_score cs in
    (Props.control_count counted * (1 # 4) <= Props.weight_sum counted)%Q
    /\ (Props.weight_sum counted <= Props.control_count counted)%Q
    /\ (forall c, In c counted -> (0 < Compliance.evidence_count c)%Z)
    /\ (counted <> [] ->
        (25 <= score <= 100)%Q
        /\ (Qabs (score
                  - Props.weight_sum counted / Props.control_count counted
                    * 100)
            <= (1 # 200) + (1 # 10000000000000))%Q).
Proof.
  intros db f ctx s e now cs counted score.
  assert (Hw : forall c, In c counted ->
                 (1 # 4 <= Props.weight_of c <= 1)%Q)
    by (intros c Hc; now apply (evaluated_weight db f ctx s e now c)).
  pose proof (weight_fold_bounds counted Hw 0%Q 0%Q) as Hb. cbv zeta in Hb.
  fold (Props.control_count counted) in Hb.
  fold (Props.weight_sum counted) in Hb.
  split; [lra|]. split; [lra|]. split.
  - intros c Hc. now apply (evaluated_weight db f ctx s e now c).
  - intros Hne. subst score.
    assert (Hknown : Forall Props.known_status cs)
      by apply _evaluate_controls_known.
    rewrite (score_of_counted cs Hknown Hne). fold counted.
    pose proof (control_count_pos counted Hne) as Hn.
    assert (Hs0 : (0 <= Props.weight_sum counted)%Q) by lra.
    assert (Hs1 : (Props.weight_sum counted <= Props.control_count counted)%Q)
      by lra.
    assert (Hq : (Props.control_count counted * (1 # 4)
                  <= Props.weight_sum counted)%Q) by lra.
    destruct (rounded_percentage _ _ Hs0 Hs1 Hn)
      as [H1 [H2 [_ [H4 [H5 _]]]]].
    split; [split; [now apply H5 | assumption]|].
    apply Qabs_Qle_condition. split; lra.
Qed.

(** ** The further properties at sample inputs *)

Lemma require_any_permission_cases_witness :
  Rbac.require_any_permission ["read:audit"; "read:teams"] Samples.member
  = Errors.Ok Samples.member.
Proof.
  destruct (require_any_permission_cases ["read:audit"; "read:teams"]
              Samples.member) as [[_ H] _].
  apply H. right. exists "read:teams". split; [right; now left | now left].
Defined.

Lemma require_role_cases_witness :
  Rbac.require_role ["member"; "auditor"] Samples.member
  = Errors.Raise
      (Errors.HTTPException Errors.HTTP_403_FORBIDDEN
         "Missing required roles: auditor").
Proof.
  destruct (require_role_cases ["member"; "auditor"] Samples.member)
    as [_ [H _]].
  rewrite H; [reflexivity | discriminate].
Defined.

Lemma permission_checker_check_cases_witness :
  Rbac.check
    (Rbac.mkPermissionChecker ["write:teams"] [] [Rbac.owned_by] true true)
    Samples.admin (Some (Rbac.mkResource None None None None)) None = true.
Proof.
  destruct (permission_checker_check_cases
              (Rbac.mkPermissionChecker ["write:teams"] [] [Rbac.owned_by]
                 true true)
              Samples.admin (Some (Rbac.mkResource None None None None)) None)
    as [_ [H _]].
  apply H. reflexivity.
Defined.

Lemma abac_context_cannot_overrule_resource_witness :
  Rbac.owned_by Samples.member
    (Rbac.mkResource None None (Some "") (Some "auth0|u2"))
    {[ "owner_id" := Some "auth0|u1" ]} = false
  /\ Rbac.owned_by Samples.member
       (Rbac.mkResource None None None (Some "auth0|u1")) ∅ = true
  /\ Rbac.owned_by Samples.member
       (Rbac.mkResource None None None None)
       {[ "owner_id" := Some "auth0|u1" ]} = true.
Proof.
  destruct (abac_context_cannot_overrule_resource Samples.member
              (Rbac.mkResource None None (Some "") (Some "auth0|u2")))
    as [_ [_ [_ [_ [H1 _]]]]].
  destruct (abac_context_cannot_overrule_resource Samples.member
              (Rbac.mkResource None None None (Some "auth0|u1")))
    as [_ [_ [_ [_ [H2 _]]]]].
  destruct (abac_context_cannot_overrule_resource Samples.member
              (Rbac.mkResource None None None None))
    as [_ [_ [_ [_ [_ H3]]]]].
  split; [|split].
  - rewrite (H1 {[ "owner_id" := Some "auth0|u1" ]} "auth0|u2"); reflexivity.
  - rewrite (H2 ∅ "auth0|u1"); reflexivity.
  - rewrite (H3 {[ "owner_id" := Some "auth0|u1" ]}); reflexivity.
Defined.

Lemma get_logs_rows_witness :
  Terms.in_scope
    (OrgIsolation.build_org_scoped_query (Samples.in_org "org-a")
       Samples.member) false
    (Audit.organization_id (List.hd Samples.blank_row Samples.interleaved))
  = true.
Proof.
  destruct (get_logs_rows Samples.interleaved (Samples.in_org "org-a")
              (OrgIsolation.build_org_scoped_query (Samples.in_org "org-a")
                 Samples.member)
              (AuditQueries.mkLogQuery None None None None None None
                 None None 1 50)) as [H _].
  destruct (H (List.hd Samples.blank_row Samples.interleaved)) as [_ [Hs _]].
  - vm_compute. right. left. reflexivity.
  - exact Hs.
Defined.

Lemma logging_helpers_rows_witness :
  exists log,
    AuditQueries.log_auth_event [] "id-1" Samples.t0 "auth.login.failed"
      Samples.member false None None None
    = Errors.Ok (log, [log])
    /\ Audit.organization_id log = Some "org-1"
    /\ Audit.target_id log = Some "auth0|u1".
Proof.
  eexists. split; [reflexivity|].
  match goal with
  | |- Audit.organization_id ?l = _ /\ _ =>
    destruct (logging_helpers_rows [] "id-1" Samples.t0 "auth.login.failed"
                Samples.member false None None None None "t" None None)
      as [_ [H _]];
    destruct (H l [l] eq_refl) as [_ [_ [_ [_ [_ [H1 [_ H2]]]]]]]
  end.
  split; [exact H1 | exact H2].
Defined.

Lemma evaluated_score_bounds_witness :
  (25 <= Compliance._calculate_compliance_score
           (Compliance._evaluate_controls Samples.interleaved Compliance.SOC2
              (Samples.in_org "org-a") Samples.t0
              (Samples.t0 + 10 * Samples.second)%Z Samples.t0)
   <= 100)%Q
  /\ Compliance._calculate_compliance_score
       (Compliance._evaluate_controls Samples.interleaved Compliance.SOC2
          (Samples.in_org "org-a") Samples.t0
          (Samples.t0 + 10 * Samples.second)%Z Samples.t0)
     = 25%Q.
Proof.
  destruct (evaluated_score_bounds Samples.interleaved
              Compliance.SOC2 (Samples.in_org "org-a") Samples.t0
              (Samples.t0 + 10 * Samples.second)%Z Samples.t0)
    as [_ [_ [_ H]]].
  split; [|vm_compute; reflexivity].
  destruct H as [Hb _]; [vm_compute; discriminate | exact Hb].
Defined.
